(** * kwat.py: the Onco-GPS renderer, the dataframe utilities and the VCF
      variant normaliser, embedded in Rocq.

    Numbers that are Python floats in the sources are rationals ([Q]) here;
    where the rounding of the doubles decides what a function returns (the
    grid axes, a threshold given as a fraction) the rounding is a parameter
    of the function.  Missing values (NaN / None) are explicit constructors.
    Exceptions are values of [exn]; a statement that can raise returns a
    [result]. *)

From Stdlib Require Import QArith Qround Qminmax Lqa.
From stdpp Require Import base option list gmap strings numbers pretty.

Local Open Scope Z_scope.
Local Open Scope string_scope.
Local Open Scope list_scope.
Local Open Scope Q_scope.

(** ** Python runtime: exceptions and results *)

Module Py.

Inductive exn : Type :=
| ValueError (msg : string)
| KeyError
| TypeError (msg : string)
| IndexError
| AssertionError
| QhullError.

Inductive result (A : Type) : Type :=
| Ok (a : A)
| Raised (e : exn).

Arguments Ok {A} a.
Arguments Raised {A} e.

Definition bind {A B} (m : result A) (k : A -> result B) : result B :=
  match m with
  | Ok a => k a
  | Raised e => Raised e
  end.

(** [for x in xs: body], threading the state the body mutates; the first
    exception leaves the loop. *)
Fixpoint for_each {X S} (xs : list X) (body : X -> S -> result S) (s : S)
  : result S :=
  match xs with
  | [] => Ok s
  | x :: rest => bind (body x s) (for_each rest body)
  end.

(** [int(x)] on a float truncates towards zero. *)
Definition int (x : Q) : Z := Z.quot (Qnum x) (Zpos (Qden x)).

(** The two-argument builtin [min(a, b)]: [b] only when [b < a]. *)
Definition min (a b : Q) : Q := if Qle_bool a b then a else b.

(** The two-argument builtin [max(a, b)]: [b] only when [b > a]. *)
Definition max (a b : Q) : Q := if Qle_bool b a then a else b.

(** [range(n)] *)
Definition range (n : nat) : list nat := seq 0 n.

(** [sorted(set(xs))] for a total order given by [cmp]. *)
Fixpoint insert_sorted {A} (cmp : A -> A -> comparison) (x : A) (l : list A) : list A :=
  match l with
  | [] => [x]
  | y :: rest =>
      match cmp x y with
      | Lt => x :: l
      | Eq => l
      | Gt => y :: insert_sorted cmp x rest
      end
  end.

Definition sorted_set {A} (cmp : A -> A -> comparison) (xs : list A) : list A :=
  foldr (insert_sorted cmp) [] xs.

(** [x is not None] *)
Definition is_not_None {A} (x : option A) : bool :=
  match x with
  | Some _ => true
  | None => false
  end.

Definition newline : string := String (Ascii.ascii_of_nat 10) EmptyString.

End Py.

Import Py.

#[global] Instance result_ret : MRet result := fun A a => Ok a.
#[global] Instance result_bind : MBind result := fun A B k m => Py.bind m k.

(** ** numpy *)

Module Numpy.

(** Double-precision arithmetic: an operation on doubles gives the exact
    result rounded to a double, and [round] is that rounding.  The rounding
    is a parameter; a theorem that needs to know something of it says so. *)
Class Float64 : Type := { round : Q -> Q }.

(** The arithmetic that rounds nothing.  A statement that names no
    arithmetic is a statement about this one. *)
#[global] Instance unrounded : Float64 := {| round := fun x => x |}.

(** [numpy.linspace(start, stop, num)] with the default [endpoint=True]:
    [y = arange(0, num)], [delta = stop - start]; for [num > 1],
    [step = delta / (num - 1)] and [y = y * step] (or, when the step
    underflows to zero, [y = y / (num - 1) * delta]), otherwise
    [y = y * delta]; then [y += start], and for [num > 1] the last sample is
    overwritten with [stop].  [num = 0] gives the empty array. *)
Definition linspace `{Float64} (start stop : Q) (num : nat) : list Q :=
  let div := (num - 1)%nat in
  let y := map (fun i => inject_Z (Z.of_nat i)) (seq 0 num) in
  let delta := round (stop - start) in
  let y :=
    if (1 <? num)%nat then
      let step := round (delta / inject_Z (Z.of_nat div)) in
      if Qeq_bool step 0
      then map (fun v => round (round (v / inject_Z (Z.of_nat div)) * delta)) y
      else map (fun v => round (v * step)) y
    else map (fun v => round (v * delta)) y in
  let y := map (fun v => round (v + start)) y in
  if (1 <? num)%nat then <[div := stop]> y else y.

(** A two-dimensional array: its shape and its cells. *)
Record ndarray (A : Type) : Type := mk_ndarray {
  shape0 : nat;
  shape1 : nat;
  item : nat -> nat -> A
}.

Arguments mk_ndarray {A} _ _ _.
Arguments shape0 {A} _.
Arguments shape1 {A} _.
Arguments item {A} _ _ _.

(** The cells in row-major order. *)
Definition ravel {A} (a : ndarray A) : list A :=
  flat_map (fun i => map (fun j => item a i j) (seq 0 (shape1 a))) (seq 0 (shape0 a)).

(** [a.min()] and [a.max()]: a zero-size array has no minimum
    ("zero-size array to reduction operation"). *)
Definition amin (a : ndarray Q) : result Q :=
  match ravel a with
  | [] => Raised (ValueError "zero-size array to reduction operation minimum which has no identity")
  | x :: xs => Ok (fold_left Qmin xs x)
  end.

Definition amax (a : ndarray Q) : result Q :=
  match ravel a with
  | [] => Raised (ValueError "zero-size array to reduction operation maximum which has no identity")
  | x :: xs => Ok (fold_left Qmax xs x)
  end.

End Numpy.

(** ** pandas *)

Module Pandas.

(** A cell of a float column or matrix: [None] is NaN. *)
Abbreviation cell := (option Q).

Definition isna (c : cell) : bool :=
  match c with
  | None => true
  | Some _ => false
  end.

(** A table: row labels, column labels and the row-major matrix that
    [to_numpy()] gives. *)
Record DataFrame : Type := mk_DataFrame {
  index : list string;
  columns : list string;
  to_numpy : list (list cell)
}.

Definition shape (dataframe : DataFrame) : nat * nat :=
  (length (index dataframe), length (columns dataframe)).

End Pandas.

(** ** matplotlib: colours, colormaps, the canvas *)

Module Matplotlib.

Inductive color : Type :=
| Named (name : string)
| RGBA (r g b a : Q).

(** A colormap: [N] look-up entries and the three optional special colours.
    The maps shipped by the library ([bwr], [Paired]) set none of them. *)
Record Colormap : Type := mk_Colormap {
  N : Z;
  lut : Z -> color;
  rgba_bad : option color;
  rgba_under : option color;
  rgba_over : option color
}.

Definition set_bad (cm : Colormap) (c : color) : Colormap :=
  {| N := N cm; lut := lut cm; rgba_bad := Some c;
     rgba_under := rgba_under cm; rgba_over := rgba_over cm |}.

(** The extreme entries default to the two ends of the table, the bad
    entry to transparent black. *)
Definition color_under (cm : Colormap) : color := default (lut cm 0%Z) (rgba_under cm).
Definition color_over (cm : Colormap) : color := default (lut cm (N cm - 1)%Z) (rgba_over cm).
Definition color_bad (cm : Colormap) : color := default (RGBA 0 0 0 0) (rgba_bad cm).

(** Table look-up of an integer index: above [N - 1] is "over", below [0]
    is "under". *)
Definition lut_take (cm : Colormap) (xa : Z) : color :=
  if (N cm - 1 <? xa)%Z then color_over cm
  else if (xa <? 0)%Z then color_under cm
  else lut cm xa.

(** [cmap(i)] for an integer [i]: the index is used as it is. *)
Definition call_int (cm : Colormap) (i : Z) : color := lut_take cm i.

(** [cmap(x)] for a float [x] ([None] is NaN): [x] is read on the scale
    [0, 1]: it is multiplied by [N], negative products become [-1], the
    product [N] becomes [N - 1], and the result is truncated. *)
Definition call_float (cm : Colormap) (x : option Q) : color :=
  match x with
  | None => color_bad cm
  | Some x =>
      let xa := x * inject_Z (N cm) in
      if Qle_bool 0 xa then
        if Qeq_bool xa (inject_Z (N cm)) then lut_take cm (N cm - 1)%Z
        else lut_take cm (Py.int (Py.min xa (inject_Z (N cm))))
      else lut_take cm (-1)%Z
  end.

(** [Normalize(vmin, vmax)(x)] *)
Definition Normalize (vmin vmax x : Q) : Q := (x - vmin) / (vmax - vmin).

Inductive axes : Type := ax_title | ax_colorbar | ax_map | ax_legend.

(** What the renderer puts on the figure, in drawing order. *)
Inductive artist : Type :=
| Text (ax : axes) (x y : Q) (s : string)
| Line (ax : axes) (xs ys : list Q) (marker : string) (markersize : Q)
       (markerfacecolor : color) (zorder : Z)
| Marker (ax : axes) (x y : Q) (marker : string) (markersize : Q)
         (markerfacecolor : color) (alpha : option Q) (zorder : option Z)
| Triplot (points : list (Q * Q)) (simplices : list (nat * nat * nat)) (zorder : Z)
| Contour (xs ys : list Q) (levels : Z) (zorder : Z)
| LegendTitle (s : string)
| Violinplot
| Boxplot (keywords : list string)
| Axvline (x : option Q)
| Xticks (ticks : list (option Q))
| Yticklabels (labels : list string)
| Colorbar (vmin vmax : Q).

Abbreviation canvas := (list artist).

End Matplotlib.

(** ** The geometry provider (scipy.spatial and matplotlib.path) *)

Module Geometry.

Abbreviation point := (Q * Q)%type.

(** [ConvexHull(points)] gives the hull vertices in order, or fails on a
    degenerate input; [Path(vertices).contains_point(p)] is the region
    test; [Delaunay(points).simplices] the triangles. *)
Class Provider : Type := {
  ConvexHull : list point -> result (list point);
  contains_point : list point -> point -> bool;
  Delaunay : list point -> result (list (nat * nat * nat))
}.

End Geometry.

(** ** ccal/visualize.py *)

Module Visualize.

Import Numpy Pandas Matplotlib Geometry.

(** An element of the caller's [annotations] sequence: nothing, NaN or a
    finite number.  Infinite numbers are not among them. *)
Inductive pyval : Type :=
| PNone
| PNaN
| PNum (q : Q).

(** Truth value: [None] and zero are false, NaN is true. *)
Definition truthy (v : pyval) : bool :=
  match v with
  | PNone => false
  | PNaN => true
  | PNum q => negb (Qeq_bool q 0)
  end.

Definition any (vs : list pyval) : bool := existsb truthy vs.

(** [Series(annotations)]: both [None] and NaN are missing. *)
Definition to_cell (v : pyval) : cell :=
  match v with
  | PNum q => Some q
  | _ => None
  end.

Definition isnull (c : cell) : bool := isna c.

(** [Series.clip(lower, upper)]: missing values stay missing. *)
Definition clip (lower upper : Q) (c : cell) : cell :=
  match c with
  | None => None
  | Some x => Some (if Qle_bool x lower then lower
                    else if Qle_bool upper x then upper else x)
  end.

(** The present values of a column. *)
Definition dropna (cs : list cell) : list Q := omap id cs.

(** [Series.min()], [Series.max()], [Series.mean()] skip missing values and
    are NaN when nothing is left. *)
Definition series_min (cs : list cell) : cell :=
  match dropna cs with
  | [] => None
  | x :: xs => Some (fold_left Qmin xs x)
  end.

Definition series_max (cs : list cell) : cell :=
  match dropna cs with
  | [] => None
  | x :: xs => Some (fold_left Qmax xs x)
  end.

Definition series_mean (cs : list cell) : cell :=
  match dropna cs with
  | [] => None
  | x :: xs => Some (fold_left Qplus xs x / inject_Z (Z.of_nat (length (x :: xs))))
  end.

(** [int(x)] of a float that may be NaN. *)
Definition int_of_cell (c : cell) : result Z :=
  match c with
  | None => Raised (ValueError "cannot convert float NaN to integer")
  | Some x => Ok (Py.int x)
  end.

(** [max(a, b)] and [min(a, b)] when [b] may be NaN: a comparison with NaN
    is false, so [a] is returned. *)
Definition max_cell (a : Q) (b : cell) : Q := from_option (Py.max a) a b.
Definition min_cell (a : Q) (b : cell) : Q := from_option (Py.min a) a b.

Record component : Type := mk_component {
  component_label : string;
  component_x : Q;
  component_y : Q
}.

Record sample : Type := mk_sample {
  sample_x : Q;
  sample_y : Q;
  sample_state : Z
}.

(** The keyword arguments of [plot_onco_gps] that decide what is drawn
    (font sizes, line widths, edge colours and the output path are left out). *)
Record options : Type := mk_options {
  annotation_name : string;
  annotation_type : string;
  std_max : Q;
  title : string;
  component_markersize : Q;
  component_markerfacecolor : color;
  component_text_position : string;
  n_contours : Z;
  background_markersize : Q;
  background_mask_markersize : Q;
  background_max_alpha : Q;
  sample_markersize : Q;
  sample_without_annotation_markerfacecolor : color;
  legend_markersize : Q;
  effectplot_type : string
}.

Definition BAD_COLOR : color := Named "wheat".

(** [sum(asarray(states) == s)] *)
Definition count_state (states : list Z) (s : Z) : nat :=
  length (filter (fun t => t = s) states).

(** [ax.contour(x, y, z, levels)]: the library checks its arguments
    before it draws: [z] has at least two rows and two columns, [x] is as
    long as [z] has columns and [y] as long as [z] has rows.  The wording of
    the messages depends on the version of the library. *)
Definition contour (xs ys : list Q) (z : ndarray Q) (levels : Z) (cv : canvas)
    : result canvas :=
  if (shape0 z <? 2)%nat || (shape1 z <? 2)%nat then
    Raised (TypeError "Input z must be at least a (2, 2) shaped array")
  else if negb (length xs =? shape1 z)%nat then
    Raised (TypeError "Length of x must match number of columns in z")
  else if negb (length ys =? shape0 z)%nat then
    Raised (TypeError "Length of y must match number of rows in z")
  else Ok (cv ++ [Contour xs ys levels 2]).

Section Renderer.

Context {geometry : Provider} {float : Float64}.

(** The module-level colormaps: the library's [bwr], [Paired] and the
    two-colour light palette, each with its bad colour set at import. *)
Context (bwr Paired light_palette : Colormap).

(** [ccal.support.normalize_pandas_object], the z-score standardisation of
    a series, a function of the package's support module: a parameter of
    the renderer. *)
Context (normalize_pandas_object : list cell -> list cell).

Definition CMAP_CONTINUOUS : Colormap := set_bad bwr BAD_COLOR.
Definition CMAP_CATEGORICAL : Colormap := set_bad Paired BAD_COLOR.
Definition CMAP_BINARY : Colormap := set_bad light_palette BAD_COLOR.

Definition x_grids (grid_probabilities : ndarray Q) : list Q :=
  linspace 0 1 (shape0 grid_probabilities).

Definition y_grids (grid_probabilities : ndarray Q) : list Q :=
  linspace 0 1 (shape1 grid_probabilities).

(** *** Components and their labels *)

Definition component_points (cs : list component) : list point :=
  map (fun c => (component_x c, component_y c)) cs.

Definition plot_components (o : options) (cs : list component) (cv : canvas) : canvas :=
  cv ++ [Line ax_map (map component_x cs) (map component_y cs) "D"
              (component_markersize o) (component_markerfacecolor o) 6].

(** One pass of the label loop: the shift is a single variable that lives
    across the iterations. *)
Definition label_component (o : options) (region : list point) (c : component)
    (st : Q * canvas) : result (Q * canvas) :=
  let '(component_text_verticalshift, cv) := st in
  let component_text_verticalshift :=
    if String.eqb (component_text_position o) "auto" then
      if contains_point region
           (component_x c, component_y c + component_text_verticalshift)
      then component_text_verticalshift * -1
      else component_text_verticalshift
    else if String.eqb (component_text_position o) "top" then
      component_text_verticalshift * -1
    else if String.eqb (component_text_position o) "bottom" then
      component_text_verticalshift
    else component_text_verticalshift in
  Ok (component_text_verticalshift,
      cv ++ [Text ax_map (component_x c)
                  (component_y c + component_text_verticalshift)
                  (component_label c)]).

Definition plot_component_labels (o : options) (region : list point)
    (cs : list component) (cv : canvas) : result canvas :=
  st ← for_each cs (label_component o region) (-(3 # 100), cv);
  mret (snd st).

(** *** State colours *)

Definition state_index (n_unique_states : nat) (s : Z) : Z :=
  Py.int (inject_Z s / inject_Z (Z.of_nat n_unique_states)
          * inject_Z (N CMAP_CATEGORICAL)).

Definition assign_states_color (unique_states : list Z) : gmap Z color :=
  fold_left
    (fun states_color s =>
       <[s := call_int CMAP_CATEGORICAL (state_index (length unique_states) s)]>
         states_color)
    unique_states ∅.

Definition getitem (states_color : gmap Z color) (s : Z) : result color :=
  match states_color !! s with
  | Some c => Ok c
  | None => Raised KeyError
  end.

(** *** Background and mask *)

(** [min(background_max_alpha, (p - p_min) / p_range)]; on a constant grid
    the quotient is 0/0 = NaN and [min] keeps its first argument. *)
Definition background_alpha (o : options) (p p_min p_range : Q) : Q :=
  if Qeq_bool p_range 0 then background_max_alpha o
  else Py.min (background_max_alpha o) ((p - p_min) / p_range).

Definition background_cell (o : options) (region : list point)
    (grid_probabilities : ndarray Q) (grid_states : ndarray Z)
    (states_color : gmap Z color) (p_min p_range : Q)
    (i j : nat) (cv : canvas) : result canvas :=
  let x := nth i (x_grids grid_probabilities) 0 in
  let y := nth j (y_grids grid_probabilities) 0 in
  if contains_point region (x, y) then
    c ← getitem states_color (item grid_states i j);
    let a := background_alpha o (item grid_probabilities i j) p_min p_range in
    mret (cv ++ [Marker ax_map x y "s" (background_markersize o) c (Some a) (Some 1%Z)])
  else mret cv.

Definition plot_background (o : options) (region : list point)
    (grid_probabilities : ndarray Q) (grid_states : ndarray Z)
    (states_color : gmap Z color) (cv : canvas) : result canvas :=
  if Qlt_le_dec 0 (background_markersize o) then
    grid_probabilities_min ← amin grid_probabilities;
    grid_probabilities_max ← amax grid_probabilities;
    let grid_probabilities_range := grid_probabilities_max - grid_probabilities_min in
    for_each (Py.range (shape0 grid_probabilities))
      (fun i =>
         for_each (Py.range (shape1 grid_probabilities))
           (background_cell o region grid_probabilities grid_states states_color
              grid_probabilities_min grid_probabilities_range i))
      cv
  else mret cv.

Definition mask_cell (o : options) (region : list point)
    (grid_probabilities : ndarray Q) (i j : nat) (cv : canvas) : result canvas :=
  let x := nth i (x_grids grid_probabilities) 0 in
  let y := nth j (y_grids grid_probabilities) 0 in
  if negb (contains_point region (x, y)) then
    mret (cv ++ [Marker ax_map x y "s" (background_mask_markersize o) (Named "w")
                   None (Some 3%Z)])
  else mret cv.

Definition plot_background_mask (o : options) (region : list point)
    (grid_probabilities : ndarray Q) (cv : canvas) : result canvas :=
  if Qlt_le_dec 0 (background_mask_markersize o) then
    for_each (Py.range (shape0 grid_probabilities))
      (fun i =>
         for_each (Py.range (shape1 grid_probabilities))
           (mask_cell o region grid_probabilities i))
      cv
  else mret cv.

(** *** Samples coloured by annotation, and the annotation legends *)

(** The annotation column written into [samples], the three legend ticks
    and the colormap. *)
Record annotation_setup : Type := mk_annotation_setup {
  annotation_column : list cell;
  annotation_min : Q;
  annotation_mean : cell;
  annotation_max : Q;
  cmap : Colormap
}.

Definition set_up_annotations (o : options) (annotations : list pyval)
    (samples : list sample) : result annotation_setup :=
  let a := map to_cell annotations in
  if negb (length a =? length samples)%nat then
    Raised (ValueError "Length mismatch")
  else if String.eqb (annotation_type o) "continuous" then
    let column := map (clip (- std_max o) (std_max o)) (normalize_pandas_object a) in
    mret {| annotation_column := column;
            annotation_min := max_cell (- std_max o) (series_min column);
            annotation_mean := series_mean column;
            annotation_max := min_cell (std_max o) (series_max column);
            cmap := CMAP_CONTINUOUS |}
  else
    let column := a in
    mean ← int_of_cell (series_mean column);
    maxi ← int_of_cell (series_max column);
    cm ← (if String.eqb (annotation_type o) "categorical" then Ok CMAP_CATEGORICAL
          else if String.eqb (annotation_type o) "binary" then Ok CMAP_BINARY
          else Raised (ValueError ("Unknown annotation_type " ++ annotation_type o ++ ".")));
    mret {| annotation_column := column;
            annotation_min := 0;
            annotation_mean := Some (inject_Z mean);
            annotation_max := inject_Z maxi;
            cmap := cm |}.

(** [cmap((v - annotation_min) / annotation_range)]: a zero range makes the
    quotient infinite or NaN, which the colormap sends to its over, under or
    bad colour. *)
Definition scaled_color (cm : Colormap) (annotation : cell)
    (annotation_min annotation_range : Q) : color :=
  match annotation with
  | None => color_bad cm
  | Some v =>
      if Qeq_bool annotation_range 0 then
        if Qeq_bool (v - annotation_min) 0 then color_bad cm
        else if Qle_bool 0 (v - annotation_min) then color_over cm
        else color_under cm
      else call_float cm (Some ((v - annotation_min) / annotation_range))
  end.

Definition annotated_sample_color (o : options) (su : annotation_setup)
    (annotation : cell) : result color :=
  if isnull annotation then Ok (sample_without_annotation_markerfacecolor o)
  else if String.eqb (annotation_type o) "continuous" then
    Ok (call_float (cmap su) annotation)
  else if String.eqb (annotation_type o) "categorical"
          || String.eqb (annotation_type o) "binary" then
    Ok (scaled_color (cmap su) annotation (annotation_min su)
          (annotation_max su - annotation_min su))
  else Raised (ValueError ("Unknown annotation_type " ++ annotation_type o ++ ".")).

Definition plot_annotated_sample (o : options) (su : annotation_setup)
    (row : sample * cell) (cv : canvas) : result canvas :=
  c ← annotated_sample_color o su (snd row);
  mret (cv ++ [Marker ax_map (sample_x (fst row)) (sample_y (fst row)) "o"
                 (sample_markersize o) c None (Some 5%Z)]).

Definition state_ticklabel (states : list Z) (s : Z) : string :=
  "State " ++ pretty s ++ " (n=" ++ pretty (count_state states s) ++ ")".

(** The effect plot of the legend: two recognised kinds, and nothing for
    any other string.  The call for the kind "box" passes the keyword
    [medianpops], which the box plot of the library does not have: the call
    raises TypeError. *)
Definition plot_effect (o : options) (cv : canvas) : result canvas :=
  if String.eqb (effectplot_type o) "violine" then
    Ok (cv ++ [Violinplot; Boxplot ["showbox"; "showmeans"; "medianprops"; "meanprops"]])
  else if String.eqb (effectplot_type o) "box" then
    Raised (TypeError "boxplot() got an unexpected keyword argument 'medianpops'")
  else Ok cv.

Definition plot_annotation_legends (o : options) (su : annotation_setup)
    (states unique_states : list Z) (cv : canvas) : result canvas :=
  let cv := cv ++ [LegendTitle (annotation_name o ++ newline ++ "IC=XXX (p-val=XXX)")] in
  cv ← plot_effect o cv;
  let cv := cv ++ [Axvline (Some (annotation_min su));
                   Axvline (annotation_mean su);
                   Axvline (Some (annotation_max su));
                   Xticks [Some (annotation_min su); annotation_mean su;
                           Some (annotation_max su)];
                   Yticklabels (map (state_ticklabel states) unique_states)] in
  if String.eqb (annotation_type o) "continuous" then
    mret (cv ++ [Colorbar (annotation_min su) (annotation_max su)])
  else mret cv.

Definition plot_annotations (o : options) (annotations : list pyval)
    (samples : list sample) (unique_states : list Z) (cv : canvas) : result canvas :=
  su ← set_up_annotations o annotations samples;
  cv ← for_each (zip samples (annotation_column su)) (plot_annotated_sample o su) cv;
  plot_annotation_legends o su (map sample_state samples) unique_states cv.

(** *** Samples coloured by state, and the state legend *)

Definition plot_state_sample (o : options) (states_color : gmap Z color)
    (s : sample) (cv : canvas) : result canvas :=
  c ← getitem states_color (sample_state s);
  mret (cv ++ [Marker ax_map (sample_x s) (sample_y s) "o" (sample_markersize o) c
                 None (Some 5%Z)]).

Definition plot_state_legend (o : options) (states_color : gmap Z color)
    (states unique_states : list Z) (row : nat * Z) (cv : canvas) : result canvas :=
  let '(i, s) := row in
  let y := 1 - 1 / inject_Z (Z.of_nat (length unique_states + 1))
               * inject_Z (Z.of_nat (i + 1)) in
  c ← getitem states_color s;
  mret (cv ++ [Marker ax_legend (16 # 100) y "o" (legend_markersize o) c None None;
               Text ax_legend (26 # 100) y (state_ticklabel states s)]).

Definition plot_states (o : options) (states_color : gmap Z color)
    (samples : list sample) (unique_states : list Z) (cv : canvas) : result canvas :=
  cv ← for_each samples (plot_state_sample o states_color) cv;
  for_each (zip (seq 0 (length unique_states)) unique_states)
    (plot_state_legend o states_color (map sample_state samples) unique_states) cv.

(** *** The renderer *)

Definition plot_title (o : options) (n_samples n_components n_states : nat) : canvas :=
  [Text ax_title 0 (9 # 10) (title o);
   Text ax_title 0 (39 # 100)
     (pretty n_samples ++ " samples, " ++ pretty n_components ++ " components, and "
      ++ pretty n_states ++ " states")].

(** Everything drawn on the map before the samples: title, components and
    labels, triangulation, contours, background and mask. *)
Definition plot_map (o : options) (component_coordinates : list component)
    (samples : list sample) (grid_probabilities : ndarray Q) (grid_states : ndarray Z)
    : result canvas :=
  let states := map sample_state samples in
  let unique_states := Py.sorted_set Z.compare states in
  let cv := plot_title o (length samples) (length component_coordinates)
              (length unique_states) in
  let cv := plot_components o component_coordinates cv in
  convexhull_region ← ConvexHull (component_points component_coordinates);
  cv ← plot_component_labels o convexhull_region component_coordinates cv;
  simplices ← Delaunay (component_points component_coordinates);
  let cv := cv ++ [Triplot (component_points component_coordinates) simplices 4] in
  cv ← (if (0 <? n_contours o)%Z
        then contour (x_grids grid_probabilities) (y_grids grid_probabilities)
               grid_probabilities (n_contours o) cv
        else Ok cv);
  let states_color := assign_states_color unique_states in
  cv ← plot_background o convexhull_region grid_probabilities grid_states states_color cv;
  plot_background_mask o convexhull_region grid_probabilities cv.

Definition plot_onco_gps (o : options) (component_coordinates : list component)
    (samples : list sample) (grid_probabilities : ndarray Q) (grid_states : ndarray Z)
    (annotations : list pyval) : result canvas :=
  let states := map sample_state samples in
  let unique_states := Py.sorted_set Z.compare states in
  let states_color := assign_states_color unique_states in
  cv ← plot_map o component_coordinates samples grid_probabilities grid_states;
  if any annotations
  then plot_annotations o annotations samples unique_states cv
  else plot_states o states_color samples unique_states cv.

End Renderer.

End Visualize.

(** ** kraft/dataframe.py *)

Module Dataframe.

Import Numpy Pandas.

Inductive Axis : Type := axis_0 | axis_1.

Definition shape_at (shape : nat * nat) (axis : Axis) : nat :=
  match axis with
  | axis_0 => fst shape
  | axis_1 => snd shape
  end.

Definition shape_eqb (a b : nat * nat) : bool :=
  (fst a =? fst b)%nat && (snd a =? snd b)%nat.

(** The vectors [apply_along_axis(function, axis, matrix)] hands to the
    function: the rows for axis 1, the columns for axis 0. *)
Definition vectors (dataframe : DataFrame) (axis_apply : Axis) : list (list cell) :=
  match axis_apply with
  | axis_1 => to_numpy dataframe
  | axis_0 =>
      map (fun j => map (fun row => nth j row None) (to_numpy dataframe))
          (seq 0 (length (columns dataframe)))
  end.

(** [numpy.apply_along_axis]: it calls the function on the first vector
    before anything else and raises when there is none. *)
Definition apply_along_axis {B} (function : list cell -> B) (axis_apply : Axis)
    (dataframe : DataFrame) : result (list B) :=
  match vectors dataframe axis_apply with
  | [] => Raised (ValueError "Cannot apply_along_axis when any iteration dimensions are 0")
  | vs => Ok (map function vs)
  end.

(** [(~isna(vector)).sum()] *)
Definition count_good (vector : list cell) : nat :=
  length (filter (fun c => negb (isna c)) vector).

(** [unique(vector[~isna(vector)]).size] *)
Fixpoint unique_values (xs : list Q) : list Q :=
  match xs with
  | [] => []
  | x :: rest =>
      if existsb (Qeq_bool x) rest then unique_values rest
      else x :: unique_values rest
  end.

Definition count_good_unique (vector : list cell) : nat :=
  length (unique_values (omap id vector)).

(** A threshold below 1 is a fraction of the length of the other axis;
    the product is a product of doubles. *)
Definition resolve `{Float64} (threshold : Q) (n : nat) : Q :=
  if negb (Qle_bool 1 threshold) then round (threshold * inject_Z (Z.of_nat n))
  else threshold.

Definition at_least (threshold : Q) (count : nat) : bool :=
  Qle_bool threshold (inject_Z (Z.of_nat count)).

(** [x[mask]] *)
Definition select {A} (mask : list bool) (xs : list A) : list A :=
  map snd (filter (fun bx => fst bx = true) (zip mask xs)).

(** [is_kept &= other] *)
Definition and_mask (is_kept other : list bool) : list bool := zip_with andb is_kept other.

Definition other_axis (axis : Axis) : Axis :=
  match axis with
  | axis_0 => axis_1
  | axis_1 => axis_0
  end.

Definition loc (dataframe : DataFrame) (axis : Axis) (is_kept : list bool) : DataFrame :=
  match axis with
  | axis_0 =>
      {| index := select is_kept (index dataframe);
         columns := columns dataframe;
         to_numpy := select is_kept (to_numpy dataframe) |}
  | axis_1 =>
      {| index := index dataframe;
         columns := select is_kept (columns dataframe);
         to_numpy := map (select is_kept) (to_numpy dataframe) |}
  end.

Definition drop_axis_label `{Float64} (dataframe : DataFrame) (axis : Axis)
    (min_good_value min_good_unique_value : option Q) : result DataFrame :=
  if negb (is_not_None min_good_value || is_not_None min_good_unique_value)
  then Raised AssertionError
  else
    let shape_before := shape dataframe in
    let is_kept := replicate (shape_at shape_before axis) true in
    let axis_apply := other_axis axis in
    is_kept ←
      match min_good_value with
      | Some min_good_value =>
          let min_good_value := resolve min_good_value (shape_at shape_before axis_apply) in
          kept ← apply_along_axis
                   (fun vector => at_least min_good_value (count_good vector))
                   axis_apply dataframe;
          mret (and_mask is_kept kept)
      | None => mret is_kept
      end;
    is_kept ←
      match min_good_unique_value with
      | Some min_good_unique_value =>
          let min_good_unique_value :=
            resolve min_good_unique_value (shape_at (shape dataframe) axis_apply) in
          kept ← apply_along_axis
                   (fun vector => at_least min_good_unique_value (count_good_unique vector))
                   axis_apply dataframe;
          mret (and_mask is_kept kept)
      | None => mret is_kept
      end;
    mret (loc dataframe axis is_kept).

(** The [while True] loop of [drop_axes_label]; [None] when the fuel runs
    out before the loop returns or raises. *)
Fixpoint drop_axes_label_loop `{Float64} (fuel : nat) (dataframe : DataFrame) (axis : Axis)
    (min_good_value min_good_unique_value : option Q)
    (shape_before : nat * nat) (can_return : bool) : option (result DataFrame) :=
  match fuel with
  | O => None
  | S fuel =>
      match drop_axis_label dataframe axis min_good_value min_good_unique_value with
      | Raised e => Some (Raised e)
      | Ok dataframe =>
          let shape_after := shape dataframe in
          if can_return && shape_eqb shape_before shape_after then Some (Ok dataframe)
          else
            drop_axes_label_loop fuel dataframe (other_axis axis)
              min_good_value min_good_unique_value shape_after true
      end
  end.

(** The loop drops at least one label in every pass but the first and the
    last, so this many passes are enough. *)
Definition passes (dataframe : DataFrame) : nat :=
  S (S (fst (shape dataframe) + snd (shape dataframe))).

Definition drop_axes_label `{Float64} (dataframe : DataFrame) (axis : option Axis)
    (min_good_value min_good_unique_value : option Q) : option (result DataFrame) :=
  let shape_before := shape dataframe in
  let axis :=
    match axis with
    | None => if (fst shape_before <? snd shape_before)%nat then axis_1 else axis_0
    | Some axis => axis
    end in
  drop_axes_label_loop (passes dataframe) dataframe axis
    min_good_value min_good_unique_value shape_before false.

(** *** pivot *)

(** One line of the three columns [axis_0], [axis_1], [value]. *)
Record entry : Type := mk_entry {
  axis_0_label : string;
  axis_1_label : string;
  value : cell
}.

(** [numpy.unique]: the distinct labels in increasing order. *)
Definition unique (labels : list string) : list string :=
  Py.sorted_set String.compare labels.

(** Modelled from the spec: [kraft.array.map_int] is missing from the
    sources.  The pivot table has one row per unique row key and one column
    per unique column key, so [map_int(labels)[0]] is the dictionary from
    each label to its position. *)
Definition map_int (labels : list string) : gmap string nat :=
  list_to_map (zip labels (seq 0 (length labels))).

Definition full {A} (n0 n1 : nat) (x : A) : list (list A) := replicate n0 (replicate n1 x).

Definition label_index (label_to_i : gmap string nat) (label : string) : result nat :=
  match label_to_i !! label with
  | Some i => Ok i
  | None => Raised KeyError
  end.

Definition matrix_get (matrix : list (list cell)) (i j : nat) : result cell :=
  match matrix !! i ≫= (.!! j) with
  | Some c => Ok c
  | None => Raised IndexError
  end.

Definition matrix_set (matrix : list (list cell)) (i j : nat) (v : cell) : list (list cell) :=
  alter (<[j := v]>) i matrix.

(** Calling [function]: the default [None] is not callable. *)
Definition call (function : option (cell -> cell -> cell)) (a b : cell) : result cell :=
  match function with
  | Some f => Ok (f a b)
  | None => Raised (TypeError "'NoneType' object is not callable")
  end.

Definition pivot_entry (axis_0_label_to_i axis_1_label_to_i : gmap string nat)
    (function : option (cell -> cell -> cell))
    (e : entry) (matrix : list (list cell)) : result (list (list cell)) :=
  axis_0_i ← label_index axis_0_label_to_i (axis_0_label e);
  axis_1_i ← label_index axis_1_label_to_i (axis_1_label e);
  value_now ← matrix_get matrix axis_0_i axis_1_i;
  if isna value_now then mret (matrix_set matrix axis_0_i axis_1_i (value e))
  else
    v ← call function value_now (value e);
    mret (matrix_set matrix axis_0_i axis_1_i v).

Definition pivot (dataframe : list entry) (function : option (cell -> cell -> cell))
    : result DataFrame :=
  let axis_0_labels := unique (map axis_0_label dataframe) in
  let axis_1_labels := unique (map axis_1_label dataframe) in
  let axis_0_label_to_i := map_int axis_0_labels in
  let axis_1_label_to_i := map_int axis_1_labels in
  let matrix := full (length axis_0_labels) (length axis_1_labels) (None : cell) in
  matrix ← for_each dataframe
             (pivot_entry axis_0_label_to_i axis_1_label_to_i function) matrix;
  mret {| index := axis_0_labels; columns := axis_1_labels; to_numpy := matrix |}.

End Dataframe.

(** ** kwat/vcf/make_variant_dict_consistent.py *)

Module Vcf.

(** Dictionaries are objects: a value can be a reference to one, and an
    assignment into a dictionary changes the object every holder of the
    reference sees. *)
Abbreviation loc := nat.

Inductive value : Type :=
| VNone
| VStr (s : string)
| VInt (z : Z)
| VRef (l : loc).

Abbreviation key := (Z + string)%type.
Definition KInt (z : Z) : key := inl z.
Definition KStr (s : string) : key := inr s.

(** The store of dictionary objects; a new object takes the next location. *)
Abbreviation heap := (list (gmap key value)).

Definition alloc (h : heap) (d : gmap key value) : loc * heap := (length h, h ++ [d]).

(** [d.get(k)]: [None] for an absent key. *)
Definition get (d : gmap key value) (k : string) : value := default VNone (d !! KStr k).

(** [{k: d.get(k) for k in ks}] *)
Definition comprehension (d : gmap key value) (ks : list string) : gmap key value :=
  fold_left (fun acc k => <[KStr k := get d k]> acc) ks ∅.

(** [vd[k] = {0: {f: vd.get(f) for f in fields}}]: the inner dictionary reads
    [vd] as it is when the statement runs, then the outer one is stored. *)
Definition assign_nested (vd : loc) (k : string) (fields : list string) (h : heap)
    : result heap :=
  match h !! vd with
  | None => Raised (TypeError "object is not subscriptable")
  | Some d =>
      let '(inner, h) := alloc h (comprehension d fields) in
      let '(outer, h) := alloc h {[KInt 0 := VRef inner]} in
      mret (alter (<[KStr k := VRef outer]>) vd h)
  end.

Definition make_variant_dict_consistent (vd : loc) (an_ fo_ : list string) (h : heap)
    : result (value * heap) :=
  h ← assign_nested vd "ANN" an_ h;
  h ← assign_nested vd "sample" fo_ h;
  mret (VNone, h).

(** The default arguments. *)
Definition an_default : list string := ["effect"; "impact"; "gene_name"].
Definition fo_default : list string := ["GT"].

End Vcf.

(** ** Concrete collaborators and inputs for the examples *)

Module Examples.

Import Numpy Pandas Matplotlib Geometry Visualize.

(** A region test for component sets given in convex position, in order:
    a point is inside when it is on the same side of every edge.  Here a
    point on the boundary counts as inside; the library decides such a point
    edge by edge, so this test stands for it only off the boundary. *)
Definition cross (a b p : point) : Q :=
  (fst b - fst a) * (snd p - snd a) - (snd b - snd a) * (fst p - fst a).

Definition edges (vs : list point) : list (point * point) :=
  zip vs (rotate 1 vs).

Definition polygon_contains (vs : list point) (p : point) : bool :=
  forallb (fun e => Qle_bool 0 (cross (fst e) (snd e) p)) (edges vs)
  || forallb (fun e => Qle_bool (cross (fst e) (snd e) p) 0) (edges vs).

Definition fan (n : nat) : list (nat * nat * nat) :=
  map (fun i => (0, S i, S (S i))%nat) (seq 0 (n - 2)).

Definition convex_position : Provider :=
  {| ConvexHull := fun pts => if (3 <=? length pts)%nat then Ok pts else Raised QhullError;
     contains_point := polygon_contains;
     Delaunay := fun pts => Ok (fan (length pts)) |}.

(** An arithmetic that rounds: to the nearest multiple of [2^-53], halves
    upwards. *)
Definition fixed_point : Float64 :=
  {| round := fun x => inject_Z (Qfloor (x * 9007199254740992 + (1 # 2)))
                       * (1 # 9007199254740992) |}.

(** A grey ramp with [n] entries and no special colours. *)
Definition ramp (n : Z) : Colormap :=
  {| N := n;
     lut := fun i => RGBA (i # 255) (i # 255) (i # 255) 1;
     rgba_bad := None; rgba_under := None; rgba_over := None |}.

(** Standardisation with a known mean and deviation. *)
Definition standardize (mean deviation : Q) (column : list cell) : list cell :=
  map (fmap (fun x => (x - mean) / deviation)) column.

(** The default keyword arguments, but for the three mode strings. *)
Definition options_with (annotation_type component_text_position effectplot_type : string)
    : options :=
  {| annotation_name := "";
     annotation_type := annotation_type;
     std_max := 3;
     title := "Onco-GPS Map";
     component_markersize := 13;
     component_markerfacecolor := Named "#000726";
     component_text_position := component_text_position;
     n_contours := 26;
     background_markersize := 555 # 100;
     background_mask_markersize := 7;
     background_max_alpha := 7 # 10;
     sample_markersize := 12;
     sample_without_annotation_markerfacecolor := Named "#999999";
     legend_markersize := 10;
     effectplot_type := effectplot_type |}.

Definition default_options : options := options_with "continuous" "auto" "violine".

Definition top_options : options := options_with "continuous" "top" "violine".



Definition unit_square : list component :=
  [mk_component "C1" 0 0; mk_component "C2" 1 0;
   mk_component "C3" 1 1; mk_component "C4" 0 1].

Definition three_annotations : list pyval := [PNum 1; PNum 2; PNum 3].

Definition three_samples : list sample :=
  [mk_sample (1 # 4) (1 # 4) 0; mk_sample (1 # 2) (1 # 2) 0; mk_sample (3 # 4) (3 # 4) 0].

(** A 3 x 3 grid whose probabilities run from 0 to 1, every cell in state 0. *)
Definition ramp_rows : list (list Q) :=
  [[0; 1 # 4; 1 # 2];
   [1 # 4; 1 # 2; 3 # 4];
   [1 # 2; 3 # 4; 1]].

Definition ramp_grid : ndarray Q :=
  mk_ndarray 3 3 (fun i j => nth j (nth i ramp_rows []) 0).

Definition zero_states : ndarray Z := mk_ndarray 3 3 (fun _ _ => 0%Z).

(** Four components well inside the unit square, and a 5 x 5 grid none of
    whose points lies on the boundary of their hull: the nine middle points
    are inside it, the sixteen outer points outside. *)
Definition inner_square : list component :=
  [mk_component "C1" (1 # 8) (1 # 8); mk_component "C2" (7 # 8) (1 # 8);
   mk_component "C3" (7 # 8) (7 # 8); mk_component "C4" (1 # 8) (7 # 8)].

Definition wide_grid : ndarray Q :=
  mk_ndarray 5 5 (fun i j => inject_Z (Z.of_nat (i + j)) / 8).

(** Every cell of the 5 x 5 grid in the state [s]. *)
Definition wide_states (s : Z) : ndarray Z := mk_ndarray 5 5 (fun _ _ => s).

(** Addition as the reducer of [pivot]; a NaN operand gives NaN. *)
Definition sum_reducer (a b : cell) : cell :=
  match a, b with
  | Some x, Some y => Some (x + y)
  | _, _ => None
  end.

Definition sum_table : list Dataframe.entry :=
  [Dataframe.mk_entry "A" "X" (Some 1);
   Dataframe.mk_entry "A" "X" (Some 2);
   Dataframe.mk_entry "B" "Y" (Some 5)].

(** A pair whose first value is missing. *)
Definition nan_table : list Dataframe.entry :=
  [Dataframe.mk_entry "A" "X" None;
   Dataframe.mk_entry "A" "X" (Some 2)].

(** A table whose middle row is empty, and what pruning with
    [min_good_value = 1] leaves of it. *)
Definition sparse_table : DataFrame :=
  {| index := ["r1"; "r2"; "r3"];
     columns := ["a"; "b"];
     to_numpy := [[Some 1; Some 2]; [None; None]; [Some 3; None]] |}.

Definition sparse_pruned : DataFrame :=
  {| index := ["r1"; "r3"];
     columns := ["a"; "b"];
     to_numpy := [[Some 1; Some 2]; [Some 3; None]] |}.

(** One row of two missing values. *)
Definition nan_row_table : DataFrame :=
  {| index := ["r"]; columns := ["a"; "b"]; to_numpy := [[None; None]] |}.

(** A variant record as a dictionary object, alone in the store. *)
Definition variant : gmap Vcf.key Vcf.value :=
  {[Vcf.KStr "effect" := Vcf.VStr "missense_variant";
    Vcf.KStr "GT" := Vcf.VStr "0/1";
    Vcf.KStr "ANN" := Vcf.VStr "A|missense_variant|MODERATE"]}.

Definition variant_store : Vcf.heap := [variant].

End Examples.

(** ** The properties the theorems speak about *)

Module Properties.

Import Numpy Pandas Matplotlib Geometry Visualize.

(** The layer holds a square marker drawn on the map at [(x, y)]. *)
Definition square_at (layer : list artist) (x y : Q) : Prop :=
  ∃ markersize c a z, Marker ax_map x y "s" markersize c a z ∈ layer.

(** The artists hold no square marker on the map. *)
Definition no_squares (artists : list artist) : Prop :=
  ∀ x y, ¬ square_at artists x y.

(** A drawing step that, when it returns, has put artists behind those of
    the canvas it was given, none of them a square on the map. *)
Definition adds_no_squares (step : canvas -> result canvas) : Prop :=
  ∀ cv cv', step cv = Ok cv' → ∃ extra, cv' = cv ++ extra ∧ no_squares extra.

(** The contour call is not made, or its argument checks pass: the grid
    has as many rows as columns, and at least two. *)
Definition contour_fits (o : options) (grid_probabilities : ndarray Q) : Prop :=
  (n_contours o ≤ 0)%Z
  ∨ ((2 ≤ shape0 grid_probabilities)%nat
     ∧ shape0 grid_probabilities = shape1 grid_probabilities).

(** The array of states has the shape of the array of probabilities. *)
Definition same_shape (grid_probabilities : ndarray Q) (grid_states : ndarray Z) : Prop :=
  shape0 grid_states = shape0 grid_probabilities
  ∧ shape1 grid_states = shape1 grid_probabilities.

(** An axis of [n] points: [n] long, from 0 to 1, strictly increasing, with
    the same step between neighbours. *)
Definition unit_axis (xs : list Q) (n : nat) : Prop :=
  length xs = n
  ∧ (∃ a, head xs = Some a ∧ a == 0)
  ∧ (∃ b, last xs = Some b ∧ b == 1)
  ∧ (∀ i j a b, (i < j)%nat → xs !! i = Some a → xs !! j = Some b → a < b)
  ∧ (∀ i a b, xs !! i = Some a → xs !! S i = Some b →
       b - a == 1 / inject_Z (Z.of_nat (n - 1))).

(** What the axes need of the rounding of the doubles: it is monotone,
    it leaves 0 and 1 alone, and between 0 and 2 it moves a number by at most
    [eps].  Rounding to the nearest double does all this with
    [eps = 2^-53]. *)
Definition rounds_within `{Float64} (eps : Q) : Prop :=
  (∀ x y, x <= y → round x <= round y)
  ∧ round 0 == 0
  ∧ round 1 == 1
  ∧ ∀ x, 0 <= x → x <= 2 → - eps <= round x - x ∧ round x - x <= eps.

(** The axis is short enough for the rounding [eps] to keep its points
    apart. *)
Definition short_for (eps : Q) (n : nat) : Prop :=
  4 * inject_Z (Z.of_nat n) * inject_Z (Z.of_nat n) * eps < 1.

(** An axis of [n] points as doubles give it: [n] long, from 0 to 1,
    strictly increasing, with every step between neighbours within
    [(2 n + 1) eps] of [1 / (n - 1)]. *)
Definition rounded_unit_axis (eps : Q) (xs : list Q) (n : nat) : Prop :=
  length xs = n
  ∧ (∃ a, head xs = Some a ∧ a == 0)
  ∧ (∃ b, last xs = Some b ∧ b == 1)
  ∧ (∀ i j a b, (i < j)%nat → xs !! i = Some a → xs !! j = Some b → a < b)
  ∧ (∀ i a b, xs !! i = Some a → xs !! S i = Some b →
       - (inject_Z (Z.of_nat (2 * n + 1)) * eps)
       <= b - a - 1 / inject_Z (Z.of_nat (n - 1))
       ∧ b - a - 1 / inject_Z (Z.of_nat (n - 1))
         <= inject_Z (Z.of_nat (2 * n + 1)) * eps).

(** The palette index the specification gives for a state label:
    [floor(state / n_unique_states * palette_size)]. *)
Definition palette_index (n_unique_states : nat) (palette_size : Z) (s : Z) : Z :=
  Qfloor (inject_Z s / inject_Z (Z.of_nat n_unique_states) * inject_Z palette_size).

(** The coordinates [x_grids[i]] and [y_grids[j]] of a grid cell. *)
Definition grid_x `{Float64} (grid_probabilities : ndarray Q) (i : nat) : Q :=
  nth i (x_grids grid_probabilities) 0.

Definition grid_y `{Float64} (grid_probabilities : ndarray Q) (j : nat) : Q :=
  nth j (y_grids grid_probabilities) 0.

Section Layers.

Context {geometry : Provider} {float : Float64}.

Variables (o : options) (region : list point).
Variables (grid_probabilities : ndarray Q) (grid_states : ndarray Z).
Variable states_color : gmap Z color.

Local Abbreviation x := (grid_x grid_probabilities).
Local Abbreviation y := (grid_y grid_probabilities).

(** What one cell contributes to the background layer and to the mask
    layer. *)
Definition background_square (p_min p_range : Q) (i j : nat) : list artist :=
  if contains_point region (x i, y j) then
    match states_color !! item grid_states i j with
    | Some c =>
        [Marker ax_map (x i) (y j) "s" (background_markersize o) c
           (Some (background_alpha o (item grid_probabilities i j) p_min p_range))
           (Some 1%Z)]
    | None => []
    end
  else [].

Definition mask_square (i j : nat) : list artist :=
  if contains_point region (x i, y j) then []
  else [Marker ax_map (x i) (y j) "s" (background_mask_markersize o) (Named "w")
          None (Some 3%Z)].

(** The squares of all cells, row by row. *)
Definition layer (square : nat -> nat -> list artist) : list artist :=
  Py.range (shape0 grid_probabilities) ≫= fun i =>
  Py.range (shape1 grid_probabilities) ≫= square i.

(** Every inside cell finds the colour of its state. *)
Definition colours_known : Prop :=
  ∀ i j, (i < shape0 grid_probabilities)%nat → (j < shape1 grid_probabilities)%nat →
         contains_point region (x i, y j) = true →
         is_Some (states_color !! item grid_states i j).

End Layers.

(** The matrix of [pivot] after its loop has consumed the entries [seen]
    of the table. *)
Definition pivot_after (function : option (cell -> cell -> cell))
    (table seen : list Dataframe.entry) : result (list (list cell)) :=
  let axis_0_labels := Dataframe.unique (map Dataframe.axis_0_label table) in
  let axis_1_labels := Dataframe.unique (map Dataframe.axis_1_label table) in
  for_each seen
    (Dataframe.pivot_entry (Dataframe.map_int axis_0_labels)
       (Dataframe.map_int axis_1_labels) function)
    (Dataframe.full (length axis_0_labels) (length axis_1_labels) None).

Definition same_key (e e' : Dataframe.entry) : Prop :=
  Dataframe.axis_0_label e = Dataframe.axis_0_label e'
  ∧ Dataframe.axis_1_label e = Dataframe.axis_1_label e'.

(** The matrix of a table has a row per row label and a cell per column
    label in each row. *)
Definition well_formed (dataframe : DataFrame) : Prop :=
  length (index dataframe) = length (to_numpy dataframe)
  ∧ Forall (fun row => length row = length (columns dataframe)) (to_numpy dataframe).

(** The test one pass of [drop_axis_label] applies to a vector, with
    fractions resolved against [n]. *)
Definition keeps `{Float64} (min_good_value min_good_unique_value : option Q) (n : nat)
    (vector : list cell) : bool :=
  from_option
    (fun t => Dataframe.at_least (Dataframe.resolve t n) (Dataframe.count_good vector))
    true min_good_value
  && from_option
       (fun t => Dataframe.at_least (Dataframe.resolve t n)
                   (Dataframe.count_good_unique vector))
       true min_good_unique_value.

(** The matrix has [n0] rows of [n1] cells. *)
Definition has_shape (n0 n1 : nat) (matrix : list (list cell)) : Prop :=
  length matrix = n0 ∧ Forall (fun row => length row = n1) matrix.

End Properties.

(** ** Further properties: the state branch of the renderer *)

Module RendererProperties.

Import Numpy Pandas Matplotlib Geometry Visualize.

Section StateBranch.

Variables (Paired : Colormap) (o : options) (samples : list sample).

Local Abbreviation states := (map sample_state samples).
Local Abbreviation unique_states := (Py.sorted_set Z.compare (map sample_state samples)).

(** The marker of a sample coloured by its state. *)
Definition state_marker (s : sample) : artist :=
  Marker ax_map (sample_x s) (sample_y s) "o" (sample_markersize o)
    (call_int (CMAP_CATEGORICAL Paired)
       (state_index Paired (length unique_states) (sample_state s)))
    None (Some 5%Z).

(** The height of the [i]-th legend line. *)
Definition legend_y (i : nat) : Q :=
  1 - 1 / inject_Z (Z.of_nat (length unique_states + 1)) * inject_Z (Z.of_nat (i + 1)).

(** The swatch and the text of the [i]-th unique state. *)
Definition legend_entry (row : nat * Z) : list artist :=
  [Marker ax_legend (16 # 100) (legend_y (fst row)) "o" (legend_markersize o)
     (call_int (CMAP_CATEGORICAL Paired)
        (state_index Paired (length unique_states) (snd row)))
     None None;
   Text ax_legend (26 # 100) (legend_y (fst row)) (state_ticklabel states (snd row))].

Definition state_layer : list artist :=
  map state_marker samples
  ++ (zip (seq 0 (length unique_states)) unique_states ≫= legend_entry).

End StateBranch.

(** A list is strictly increasing for the comparison [cmp]. *)
Fixpoint increasing {A} (cmp : A -> A -> comparison) (l : list A) : Prop :=
  match l with
  | [] => True
  | x :: rest => Forall (fun y => cmp x y = Lt) rest ∧ increasing cmp rest
  end.

(** Some inside cell of the grid carries the state [s]. *)
Definition inside_state {geometry : Provider} {float : Float64} (region : list point)
    (grid_probabilities : ndarray Q) (grid_states : ndarray Z) (s : Z) : Prop :=
  ∃ i j, (i < shape0 grid_probabilities)%nat ∧ (j < shape1 grid_probabilities)%nat
         ∧ contains_point region
             (Properties.grid_x grid_probabilities i, Properties.grid_y grid_probabilities j)
           = true
         ∧ item grid_states i j = s.

End RendererProperties.

(** ** Further definitions: the labels of a table *)

Module DataframeAxes.

Import Pandas Dataframe.

(** The labels of one axis: [dataframe.index] or [dataframe.columns]. *)
Definition labels_of (axis : Axis) (dataframe : DataFrame) : list string :=
  match axis with
  | axis_0 => index dataframe
  | axis_1 => columns dataframe
  end.

(** [(labels == label).sum()] *)
Definition count (labels : list string) (label : string) : nat :=
  length (filter (fun l => l = label) labels).

(** [numpy.unique(labels, return_counts=True)] *)
Definition unique_counts (labels : list string) : list string * list nat :=
  let unique_labels := unique labels in
  (unique_labels, map (count labels) unique_labels).

(** One pass of the loop of [error_axes]; labels are strings, so [isna]
    holds for none of them. *)
Definition error_axis (labels : list string) (_ : unit) : result unit :=
  let '(labels, counts) := unique_counts labels in
  let is_na := map (fun _ : string => false) labels in
  if existsb id is_na then Raised AssertionError
  else if negb (forallb (fun c => (c =? 1)%nat) counts) then Raised AssertionError
  else Ok tt.

Definition error_axes (dataframe : DataFrame) : result unit :=
  for_each [index dataframe; columns dataframe] error_axis tt.

(** The labelled vectors of an axis: each label with its row (axis 0) or
    its column (axis 1). *)
Definition labelled (axis : Axis) (dataframe : DataFrame) : list (string * list cell) :=
  zip (labels_of axis dataframe) (vectors dataframe (other_axis axis)).

(** The key pair of a line of the long table of [pivot]. *)
Definition key_pair (e : entry) : string * string := (axis_0_label e, axis_1_label e).

End DataframeAxes.

(** ** Further definitions: tables brought to common labels *)

Module DataframeSync.

Import Pandas Dataframe DataframeAxes.

(** What [sync_axis] can raise: an exception of a builtin or of the
    library, or the error of reading a local variable that no branch has
    bound. *)
Inductive failure : Type :=
| Builtin (e : exn)
| UnboundLocalError.

Inductive outcome (A : Type) : Type :=
| Returned (a : A)
| Failed (e : failure).

Arguments Returned {A} a.
Arguments Failed {A} e.

(** The value of [labels] when the [if]/[elif] is left. *)
Definition sync_axis_labels (dataframes : list DataFrame) (axis : Axis) (method : string)
    : outcome (list string) :=
  if String.eqb method "union" then
    match dataframes with
    | [] => Failed (Builtin IndexError)
    | dataframe_0 :: rest =>
        let labels : gset string := list_to_set (labels_of axis dataframe_0) in
        let labels :=
          fold_left (fun labels dataframe => labels ∪ list_to_set (labels_of axis dataframe))
            rest labels in
        Returned (Py.sorted_set String.compare (elements labels))
    end
  else if String.eqb method "intersection" then
    match dataframes with
    | [] => Failed (Builtin IndexError)
    | dataframe_0 :: rest =>
        let labels := labels_of axis dataframe_0 in
        let labels :=
          fold_left (fun labels dataframe => labels ++ labels_of axis dataframe)
            rest labels in
        let '(labels, counts) := unique_counts labels in
        Returned (select (map (fun c => (c =? length dataframes)%nat) counts) labels)
    end
  else Failed UnboundLocalError.

Section Reindex.

(** [dataframe.reindex(labels, axis=axis)], a method of the pandas
    library: a parameter. *)
Variable reindex : DataFrame -> list string -> Axis -> result DataFrame.

(** [tuple(dataframe.reindex(labels, axis=axis) for dataframe in dataframes)] *)
Definition reindex_all (labels : list string) (axis : Axis) (dataframes : list DataFrame)
    : outcome (list DataFrame) :=
  match mapM (fun dataframe => reindex dataframe labels axis) dataframes with
  | Ok synced => Returned synced
  | Raised e => Failed (Builtin e)
  end.

Definition sync_axis (dataframes : list DataFrame) (axis : Axis) (method : string)
    : outcome (list DataFrame) :=
  match sync_axis_labels dataframes axis method with
  | Returned labels => reindex_all labels axis dataframes
  | Failed e => Failed e
  end.

End Reindex.

(** The number of times a label stands on the axis of all tables
    together. *)
Definition count_all (dataframes : list DataFrame) (axis : Axis) (label : string) : nat :=
  sum_list (map (fun dataframe => count (labels_of axis dataframe) label) dataframes).

(** A reindexing for tables with unique labels: the row (or column) of a
    label the table has, a missing row (or column) for any other label. *)
Definition find_label {A} (labels : list string) (xs : list A) (d : A) (label : string) : A :=
  from_option (fun found => snd (snd found)) d
    (list_find (fun lx => fst lx = label) (zip labels xs)).

Definition reindex_unique (dataframe : DataFrame) (labels : list string) (axis : Axis)
    : result DataFrame :=
  match axis with
  | axis_0 =>
      Ok {| index := labels;
            columns := columns dataframe;
            to_numpy :=
              map (find_label (index dataframe) (to_numpy dataframe)
                     (replicate (length (columns dataframe)) None))
                labels |}
  | axis_1 =>
      Ok {| index := index dataframe;
            columns := labels;
            to_numpy :=
              map (fun row => map (find_label (columns dataframe) row None) labels)
                (to_numpy dataframe) |}
  end.

End DataframeSync.

(** ** Further definitions: the ANN field of a VCF INFO column *)

Module VcfInfo.

Import Stdlib.Strings.Ascii.

(** [s.split(sep=c)] for a separator of one character: the pieces between
    the separators, of which there is always at least one. *)
Fixpoint split (sep : Ascii.ascii) (s : string) : list string :=
  match s with
  | EmptyString => [EmptyString]
  | String c rest =>
      if Ascii.eqb c sep then EmptyString :: split sep rest
      else
        match split sep rest with
        | [] => [String c EmptyString]
        | piece :: pieces => String c piece :: pieces
        end
  end.

(** [keys.index(x)]: the first position of [x], or ValueError. *)
Fixpoint index (x : string) (keys : list string) : result nat :=
  match keys with
  | [] => Raised (ValueError "tuple.index(x): x not in tuple")
  | key :: rest =>
      if String.eqb key x then Ok 0%nat
      else i ← index x rest; mret (S i)
  end.

(** [l[:n]]: everything for [None], the first [n] for [n >= 0], all but
    the last [-n] for [n < 0]. *)
Definition slice_to {A} (n : option Z) (l : list A) : list A :=
  match n with
  | None => l
  | Some n =>
      if (0 <=? n)%Z then take (Z.to_nat n) l
      else take (length l - Z.to_nat (- n)) l
  end.

(** [l[i]] for [i >= 0] *)
Definition subscript (l : list string) (i : nat) : result string :=
  match l !! i with
  | Some x => Ok x
  | None => Raised IndexError
  end.

Section Info.

(** [_get_vcf_info(io, key)], the value of a key of the INFO column or
    [None], and the tuple [ANN_KEYS] live in modules of their own: parameters. *)
Variable _get_vcf_info : string -> string -> option string.
Variable ANN_KEYS : list string.

Definition _get_vcf_info_ann (io ke : string) (n_an : option Z)
    : result (option (list string)) :=
  let an := _get_vcf_info io "ANN" in
  match an with
  | Some an =>
      ie ← index ke ANN_KEYS;
      fields ← mapM (fun ans => subscript (split "|"%char ans) ie)
                 (slice_to n_an (split ","%char an));
      mret (Some fields)
  | None => mret None
  end.

End Info.

(** [sep.join(fields)] *)
Fixpoint join (sep : Ascii.ascii) (fields : list string) : string :=
  match fields with
  | [] => EmptyString
  | [field] => field
  | field :: rest => field ++ String sep (join sep rest)
  end.

(** The string holds the character. *)
Fixpoint mentions (c : Ascii.ascii) (s : string) : bool :=
  match s with
  | EmptyString => false
  | String c' rest => Ascii.eqb c' c || mentions c rest
  end.

(** An annotation record whose fields hold neither separator. *)
Definition plain (record : list string) : Prop :=
  Forall (fun field => mentions "|"%char field = false ∧ mentions ","%char field = false) record.

End VcfInfo.

(** ** Further definitions: the reference labels of the heat-map panel *)

Module FeaturesPanel.

Import Pandas.

(** [prev_v != v] on values that may be NaN: NaN differs from everything. *)
Definition differs (a b : cell) : bool :=
  match a, b with
  | Some x, Some y => negb (Qeq_bool x y)
  | _, _ => true
  end.

(** One pass of the loop over [enumerate(ref.iloc[1:])]. *)
Definition boundary_step (st : list nat * cell) (iv : nat * cell) : list nat * cell :=
  let '(boundaries, prev_v) := st in
  let '(i, v) := iv in
  (if differs prev_v v then boundaries ++ [(i + 1)%nat] else boundaries, v).

(** The list [boundaries] once [features.shape[1]] is appended;
    [ref.iloc[0]] raises IndexError on an empty reference. *)
Definition boundaries (ref : list cell) (shape1 : nat) : result (list nat) :=
  match ref with
  | [] => Raised IndexError
  | prev_v :: rest =>
      let st := fold_left boundary_step (zip (seq 0 (length rest)) rest) ([0%nat], prev_v) in
      Ok (fst st ++ [shape1])
  end.

(** One pass of the loop over [boundaries[1:]]. *)
Definition position_step (st : list Q * nat) (b : nat) : list Q * nat :=
  let '(label_horizontal_positions, prev_b) := st in
  (label_horizontal_positions
   ++ [inject_Z (Z.of_nat b)
       - (inject_Z (Z.of_nat b) - inject_Z (Z.of_nat prev_b)) / 2],
   b).

Definition label_horizontal_positions (boundaries : list nat) : list Q :=
  fst (fold_left position_step (tail boundaries) ([], 0%nat)).

Section Labels.

(** [ccal.support.get_unique_in_order], a function of the package's
    support module: a parameter. *)
Variable get_unique_in_order : list cell -> list cell.

(** One pass of the loop that writes the labels: the text put at
    [(pos, 1)]. *)
Definition ref_label (unique_ref_labels : list cell) (ipos : nat * Q)
    (texts : list (Q * cell)) : result (list (Q * cell)) :=
  match unique_ref_labels !! fst ipos with
  | Some label => Ok (texts ++ [(snd ipos, label)])
  | None => Raised IndexError
  end.

(** The block of [plot_features_against_reference] that labels a binary
    or categorical reference: the texts written above the reference row. *)
Definition plot_ref_labels (ref_type : string) (ref : list cell) (shape1 : nat)
    : result (list (Q * cell)) :=
  if String.eqb ref_type "binary" || String.eqb ref_type "categorical" then
    boundaries ← boundaries ref shape1;
    let label_horizontal_positions := label_horizontal_positions boundaries in
    let unique_ref_labels := get_unique_in_order ref in
    for_each (zip (seq 0 (length label_horizontal_positions)) label_horizontal_positions)
      (ref_label unique_ref_labels) []
  else Ok [].

End Labels.

(** The positions at which the value differs from the one before it,
    counted from [k] for the head of [rest]. *)
Fixpoint changes (prev_v : cell) (rest : list cell) (k : nat) : list nat :=
  match rest with
  | [] => []
  | v :: rest => (if differs prev_v v then [k] else []) ++ changes v rest (S k)
  end.

(** The middles between neighbours, starting from [prev_b]. *)
Fixpoint middles (prev_b : nat) (boundaries : list nat) : list Q :=
  match boundaries with
  | [] => []
  | b :: rest =>
      (inject_Z (Z.of_nat b) - (inject_Z (Z.of_nat b) - inject_Z (Z.of_nat prev_b)) / 2)
      :: middles b rest
  end.

(** A [get_unique_in_order] for the examples: the values in the order of
    their first appearance, NaN being kept every time. *)
Fixpoint first_appearances (seen : list Q) (values : list cell) : list cell :=
  match values with
  | [] => []
  | None :: rest => None :: first_appearances seen rest
  | Some x :: rest =>
      if existsb (Qeq_bool x) seen then first_appearances seen rest
      else Some x :: first_appearances (x :: seen) rest
  end.

(** A binary reference whose value 0 comes back after a run of 1: three
    runs and two unique values. *)
Definition returning_reference : list cell := [Some 0; Some 0; Some 1; Some 0].

End FeaturesPanel.

(** ** Further definitions: shell commands *)

Module Shell.

Import Stdlib.Strings.Ascii.

(** What the functions of the module can raise: an exception of a
    builtin, or the one [subprocess.run(..., check=True)] raises when the
    command exits with a status that is not zero. *)
Inductive failure : Type :=
| Builtin (e : exn)
| CalledProcessError (returncode : Z).

Inductive outcome (A : Type) : Type :=
| Returned (a : A)
| Failed (e : failure).

Arguments Returned {A} a.
Arguments Failed {A} e.

Definition of_result {A} (r : result A) : outcome A :=
  match r with
  | Ok a => Returned a
  | Raised e => Failed (Builtin e)
  end.

(** [line.split(sep=c, maxsplit=1)]: one piece, or the two pieces around
    the first separator. *)
Fixpoint split_once (sep : ascii) (s : string) : list string :=
  match s with
  | EmptyString => [EmptyString]
  | String c rest =>
      if Ascii.eqb c sep then [EmptyString; rest]
      else
        match split_once sep rest with
        | [] => [String c EmptyString]
        | piece :: pieces => String c piece :: pieces
        end
  end.

(** [key, value = pieces] *)
Definition unpack (pieces : list string) : result (string * string) :=
  match pieces with
  | [key; value] => Ok (key, value)
  | _ :: _ :: _ :: _ => Raised (ValueError "too many values to unpack (expected 2)")
  | _ => Raised (ValueError "not enough values to unpack (expected 2, got 1)")
  end.

(** [s.startswith(c)] for a prefix of one character *)
Definition startswith (c : ascii) (s : string) : bool :=
  match s with
  | EmptyString => false
  | String c' _ => Ascii.eqb c' c
  end.

Section Process.

(** The builtins [str.strip], [str.split] without a separator and
    [str.lower], which follow the Unicode tables: parameters. *)
Variables (strip lower : string -> string) (split_whitespace : string -> list string).

(** The operating system: what a command prints on its standard output,
    or its exit status when that is not zero, given the commands that were
    run before. *)
Variable run : list string -> string -> outcome string.

(** [command(c).stdout], with the commands run so far (the command is
    also printed, which is left out). *)
Definition command (history : list string) (c : string) : list string * outcome string :=
  (history ++ [c], run history c).

(** The test of the loop of [get_environment]. *)
Definition is_assignment (line : string) : bool :=
  negb (String.eqb line "") && negb (startswith ":" (strip line)).

(** One pass of the loop of [get_environment]. *)
Definition environment_line (line : string) (environemnt : gmap string string)
    : result (gmap string string) :=
  if is_assignment line then
    '(key, value) ← unpack (split_once "=" line);
    mret (<[strip key := strip value]> environemnt)
  else mret environemnt.

Definition get_environment (history : list string)
    : list string * outcome (gmap string string) :=
  let '(history, env) := command history "env" in
  match env with
  | Failed e => (history, Failed e)
  | Returned stdout =>
      (history, of_result (for_each (VcfInfo.split "010" stdout) environment_line ∅))
  end.

(** [line.split()[0].lower()] *)
Definition library_of_line (line : string) : result string :=
  match split_whitespace line with
  | [] => Raised IndexError
  | name :: _ => Ok (lower name)
  end.

(** The loop of [install_python_libraries]. *)
Fixpoint install_missing (libraries_now libraries : list string) (history : list string)
    : list string * outcome unit :=
  match libraries with
  | [] => (history, Returned tt)
  | library :: libraries =>
      let library := lower library in
      if decide (library ∈ libraries_now) then
        install_missing libraries_now libraries history
      else
        let '(history, installed) := command history ("pip install " ++ library)%string in
        match installed with
        | Failed e => (history, Failed e)
        | Returned _ => install_missing libraries_now libraries history
        end
  end.

Definition install_python_libraries (libraries : list string) (history : list string)
    : list string * outcome unit :=
  let '(history, listed) := command history "pip list" in
  match listed with
  | Failed e => (history, Failed e)
  | Returned stdout =>
      match mapM library_of_line (drop 2 (VcfInfo.split "010" (strip stdout))) with
      | Raised e => (history, Failed (Builtin e))
      | Ok libraries_now => install_missing libraries_now libraries history
      end
  end.

(** The installation commands of the libraries that are not listed. *)
Definition installations (libraries_now libraries : list string) : list string :=
  map (fun library => ("pip install " ++ library)%string)
    (filter (fun library => library ∉ libraries_now) (map lower libraries)).

End Process.

(** Example builtins for text without blanks and capitals apart from the
    space: [strip] removes the spaces at both ends, [split_whitespace]
    splits at spaces, [lower] changes nothing. *)
Fixpoint lstrip (s : string) : string :=
  match s with
  | String " " rest => lstrip rest
  | _ => s
  end.

Definition rstrip (s : string) : string :=
  String.rev (lstrip (String.rev s)).

Definition strip_spaces (s : string) : string := rstrip (lstrip s).

Definition split_spaces (s : string) : list string :=
  filter (fun piece => piece ≠ EmptyString) (VcfInfo.split " " s).

(** A system on which every command prints the same text. *)
Definition prints (stdout : string) : list string -> string -> outcome string :=
  fun _ _ => Returned stdout.

(** The output of [env] with a variable set twice, and the same output
    followed by a line that holds one space. *)
Definition env_output : string :=
  ("HOME=/root" ++ newline ++ "EDITOR = vi" ++ newline ++ "HOME=/home/me")%string.

Definition env_output_blank : string := (env_output ++ newline ++ " ")%string.

(** The output of [pip list]: two lines of header and two libraries. *)
Definition pip_output : string :=
  ("Package Version" ++ newline ++ "------- -------" ++ newline
   ++ "numpy 1.26" ++ newline ++ "pandas 2.1")%string.

End Shell.

(** ** Further definitions: component labels and the cells of [pivot] *)

Module LabelProperties.

Import Pandas Matplotlib Visualize Dataframe DataframeAxes.

(** The label of a component, written [shift] above it. *)
Definition label_text (c : component) (shift : Q) : artist :=
  Text ax_map (component_x c) (component_y c + shift) (component_label c).

(** [n] shifts that start above and change side every time. *)
Definition alternating (n : nat) : list Q :=
  map (fun i => if Nat.even i then 3 # 100 else - (3 # 100)) (seq 0 n).

(** What a cell of [pivot] holds once the value [v] has come in. *)
Definition reduce (f : cell -> cell -> cell) (value_now v : cell) : cell :=
  if isna value_now then v else f value_now v.

(** The values of the lines of a long table with the key pair [(a, b)],
    in the order of the table. *)
Definition values_of (table : list entry) (a b : string) : list cell :=
  map value (filter (fun e => key_pair e = (a, b)) table).

End LabelProperties.

(* ====================================================================== *)
(** * Theorems *)
(* ====================================================================== *)

Import Numpy Pandas Matplotlib Geometry.

(** ** The monad and the loops *)

Section Loops.

Context {X S : Type}.

Lemma for_each_app (xs ys : list X) (body : X -> S -> result S) (s : S) :
  for_each (xs ++ ys) body s = Py.bind (for_each xs body s) (for_each ys body).
Proof.
  revert s. induction xs as [|x xs IH]; intros s; simpl; [done|].
  destruct (body x s); simpl; auto.
Qed.

End Loops.

(** A loop whose body only appends artists. *)
Lemma for_each_pure {X} (f : X -> list artist) (xs : list X)
    (body : X -> canvas -> result canvas) (cv : canvas) :
  (∀ x c, x ∈ xs → body x c = Ok (c ++ f x)) →
  for_each xs body cv = Ok (cv ++ (xs ≫= f)).
Proof.
  revert cv. induction xs as [|x xs IH]; intros cv Hbody; simpl.
  - by rewrite app_nil_r.
  - rewrite Hbody by left. simpl. rewrite IH.
    + by rewrite app_assoc.
    + intros y c Hy. apply Hbody. by right.
Qed.

Lemma elem_of_range (i n : nat) : i ∈ Py.range n ↔ (i < n)%nat.
Proof. unfold Py.range. rewrite elem_of_seq. lia. Qed.

(** ** Grid axes *)

Section GridAxes.

Import Properties.

Lemma inject_nat_pos (n : nat) : (0 < n)%nat → 0 < inject_Z (Z.of_nat n).
Proof.
  intros Hn. change 0 with (inject_Z 0). rewrite <- Zlt_Qlt. lia.
Qed.

Lemma inject_nat_le (m n : nat) : (m ≤ n)%nat → inject_Z (Z.of_nat m) <= inject_Z (Z.of_nat n).
Proof. intros H. rewrite <- Zle_Qle. lia. Qed.

Context {float : Float64}.

Lemma linspace_length (start stop : Q) (num : nat) :
  length (linspace start stop num) = num.
Proof.
  unfold linspace. destruct (1 <? num)%nat.
  - rewrite length_insert. destruct (Qeq_bool _ _); by rewrite !length_map, length_seq.
  - by rewrite !length_map, length_seq.
Qed.

(** A grid with a single row has an axis of one point; an empty grid has
    the empty axis. *)
Lemma linspace_single (start stop : Q) :
  linspace start stop 1 = [round (round (0 * round (stop - start)) + start)].
Proof. reflexivity. Qed.

Lemma linspace_empty (start stop : Q) : linspace start stop 0 = [].
Proof. reflexivity. Qed.

Variable eps : Q.
Hypothesis rounding : rounds_within eps.

Lemma round_monotone (x y : Q) : x <= y → round x <= round y.
Proof. apply rounding. Qed.

Lemma round_proper (x y : Q) : x == y → round x == round y.
Proof.
  intros E. apply Qle_antisym; apply round_monotone; rewrite E; apply Qle_refl.
Qed.

Lemma round_error (x : Q) :
  0 <= x → x <= 2 → 0 <= round x ∧ - eps <= round x - x ∧ round x - x <= eps.
Proof.
  intros H0 H2. destruct rounding as (Hmono & Hzero & _ & Herr).
  split; [|by apply Herr].
  pose proof (Hmono 0 x H0). lra.
Qed.

Lemma round_zero (x : Q) : x == 0 → round x == 0.
Proof.
  intros E. transitivity (round 0); [by apply round_proper|apply rounding].
Qed.

Lemma round_one (x : Q) : x == 1 → round x == 1.
Proof.
  intros E. transitivity (round 1); [by apply round_proper|apply rounding].
Qed.

Lemma eps_nonneg : 0 <= eps.
Proof.
  destruct rounding as (_ & Hzero & _ & Herr).
  destruct (Herr 0) as [H1 H2]; [lra..|]. lra.
Qed.

Section Axis.

Variable num : nat.
Hypothesis two_points : (2 ≤ num)%nat.
Hypothesis short : short_for eps num.

Local Abbreviation n := (inject_Z (Z.of_nat num)).
Local Abbreviation d := (inject_Z (Z.of_nat (num - 1))).
Local Abbreviation step := (round (round (1 - 0) / d)).

Lemma inject_nat_plus (k m : nat) :
  inject_Z (Z.of_nat (k + m)) == inject_Z (Z.of_nat k) + inject_Z (Z.of_nat m).
Proof. rewrite <- inject_Z_plus. apply inject_Z_injective. lia. Qed.

Lemma axis_facts :
  1 <= d ∧ n == d + 1 ∧ 0 <= eps ∧ n * eps <= 1 # 8
  ∧ 0 < 1 / d ∧ 1 / d * d == 1 ∧ eps < 1 / d ∧ (2 * n + 1) * eps < 1 / d.
Proof.
  pose proof eps_nonneg as He.
  assert (Hd : 1 <= d).
  { change 1 with (inject_Z (Z.of_nat 1)). apply inject_nat_le. lia. }
  assert (Hn : n == d + 1).
  { change 1 with (inject_Z (Z.of_nat 1)). rewrite <- inject_nat_plus.
    apply inject_Z_injective. lia. }
  assert (Hs : 4 * n * n * eps < 1) by exact short.
  assert (H1 : 0 <= (n - 2) * (n * eps)).
  { apply Qmult_le_0_compat; [lra|]. apply Qmult_le_0_compat; lra. }
  assert (H3 : 0 <= n * eps) by (apply Qmult_le_0_compat; lra).
  assert (E1 : (2 * n + 1) * eps * d == 2 * n * n * eps - n * eps - eps).
  { assert (d == n - 1) as -> by lra. ring. }
  assert (E2 : eps * d == n * eps - eps).
  { assert (d == n - 1) as -> by lra. ring. }
  repeat split; try lra.
  - apply Qlt_shift_div_l; lra.
  - field. lra.
  - apply Qlt_shift_div_l; [lra|]. rewrite E2. lra.
  - apply Qlt_shift_div_l; [lra|]. rewrite E1. lra.
Qed.

Lemma step_error :
  0 < step ∧ - eps <= step - 1 / d ∧ step - 1 / d <= eps.
Proof.
  destruct axis_facts as (Hd & Hn & He & Hne & Hr0 & Hrd & Her & _).
  assert (Hone : round (1 - 0) == 1) by (apply round_one; lra).
  assert (Hr1 : 1 / d <= 2).
  { apply Qle_shift_div_r; lra. }
  assert (Hstep : step == round (1 / d)).
  { apply round_proper. by rewrite Hone. }
  destruct (round_error (1 / d)) as (_ & Hlo & Hhi); [lra..|].
  rewrite Hstep. set (r := 1 / d) in *. split; [|split]; lra.
Qed.

(** Every point of the axis is within [(i + 2) eps] of [i / (num - 1)],
    and the last is 1. *)
Lemma axis_point (i : nat) :
  (i < num)%nat →
  ∃ a, linspace 0 1 num !! i = Some a
       ∧ - ((inject_Z (Z.of_nat i) + 2) * eps) <= a - inject_Z (Z.of_nat i) * (1 / d)
       ∧ a - inject_Z (Z.of_nat i) * (1 / d) <= (inject_Z (Z.of_nat i) + 2) * eps
       ∧ (i = num - 1 → a == 1)%nat.
Proof.
  intros Hi. destruct axis_facts as (Hd & Hn & He & Hne & Hr0 & Hrd & Her & _).
  destruct step_error as (Hs0 & Hslo & Hshi).
  unfold linspace.
  destruct (Nat.ltb_spec 1 num) as [_|?]; [|lia].
  destruct (Qeq_bool step 0) eqn:Hzero; [apply Qeq_bool_iff in Hzero; lra|].
  destruct (decide (i = num - 1)%nat) as [->|Hne'].
  - exists 1. split; [|split; [|split; [|done]]].
    + apply list_lookup_insert_eq. rewrite !length_map, length_seq. lia.
    + assert (0 <= (d + 2) * eps) by (apply Qmult_le_0_compat; lra).
      rewrite (Qmult_comm d). lra.
    + assert (0 <= (d + 2) * eps) by (apply Qmult_le_0_compat; lra).
      rewrite (Qmult_comm d). lra.
  - set (I := inject_Z (Z.of_nat i)) in *.
    assert (HI0 : 0 <= I).
    { change 0 with (inject_Z (Z.of_nat 0)). apply inject_nat_le. lia. }
    assert (HI1 : I + 1 <= d).
    { change 1 with (inject_Z (Z.of_nat 1)). unfold I. rewrite <- inject_nat_plus.
      apply inject_nat_le. lia. }
    set (r := 1 / d) in *. set (s := step) in *.
    assert (P1 : 0 <= I * s) by (apply Qmult_le_0_compat; lra).
    assert (P2 : 0 <= I * (eps - (s - r))) by (apply Qmult_le_0_compat; lra).
    assert (P3 : 0 <= I * (s - r + eps)) by (apply Qmult_le_0_compat; lra).
    assert (P4 : 0 <= (d - I) * r) by (apply Qmult_le_0_compat; lra).
    assert (P5 : 0 <= (n - I) * eps) by (apply Qmult_le_0_compat; lra).
    assert (P6 : 0 <= (n - 1) * eps) by (apply Qmult_le_0_compat; lra).
    destruct (round_error (I * s)) as (Hz0 & Hzlo & Hzhi); [lra..|].
    destruct (round_error (round (I * s) + 0)) as (_ & Hylo & Hyhi); [lra..|].
    exists (round (round (I * s) + 0)). split; [|split; [|split; [|done]]].
    + rewrite list_lookup_insert_ne by done.
      rewrite !list_lookup_fmap, lookup_seq_lt by done. done.
    + lra.
    + lra.
Qed.

Lemma rounded_unit_axis_linspace : rounded_unit_axis eps (linspace 0 1 num) num.
Proof.
  destruct axis_facts as (Hd & Hn & He & Hne & Hr0 & Hrd & Her & Hgap).
  assert (Hbound : ∀ k, (k < num)%nat → inject_Z (Z.of_nat k) + 1 <= n).
  { intros k Hk. change 1 with (inject_Z (Z.of_nat 1)). rewrite <- inject_nat_plus.
    apply inject_nat_le. lia. }
  assert (Hnonneg : ∀ k, 0 <= inject_Z (Z.of_nat k)).
  { intros k. change 0 with (inject_Z (Z.of_nat 0)). apply inject_nat_le. lia. }
  assert (Htol : inject_Z (Z.of_nat (2 * num + 1)) == 2 * n + 1).
  { rewrite inject_nat_plus. change (inject_Z (Z.of_nat 1)) with 1.
    replace (2 * num)%nat with (num + num)%nat by lia. rewrite inject_nat_plus. lra. }
  split; [apply linspace_length|]. split; [|split; [|split]].
  - exists (match linspace 0 1 num with a :: _ => a | [] => 0 end).
    unfold linspace.
    destruct (Nat.ltb_spec 1 num) as [_|?]; [|lia].
    destruct num as [|[|k]]; [lia..|]. cbn [seq map].
    destruct (Qeq_bool _ _); cbn [map].
    + split; [done|]. cbn [Nat.sub list_insert insert].
      assert (E1 : round (inject_Z (Z.of_nat 0) / inject_Z (Z.of_nat (S (S k) - 1))) == 0).
      { apply round_zero. unfold Qdiv. apply Qmult_0_l. }
      apply round_zero.
      assert (E2 : round (round (inject_Z (Z.of_nat 0)
                                 / inject_Z (Z.of_nat (S (S k) - 1)))
                          * round (1 - 0)) == 0).
      { apply round_zero. rewrite E1. apply Qmult_0_l. }
      rewrite E2. lra.
    + split; [done|]. cbn [Nat.sub list_insert insert].
      assert (E1 : round (inject_Z (Z.of_nat 0)
                          * round (round (1 - 0) / inject_Z (Z.of_nat (S (S k) - 1))))
                   == 0).
      { apply round_zero. apply Qmult_0_l. }
      apply round_zero. rewrite E1. lra.
  - destruct (axis_point (num - 1)) as (b & Hb & _ & _ & Hlast); [lia|].
    exists b. split; [|by apply Hlast].
    rewrite last_lookup, linspace_length.
    by replace (Nat.pred num) with (num - 1)%nat by lia.
  - intros i j a b Hij Ha Hb.
    assert (Hj : (j < num)%nat).
    { apply lookup_lt_Some in Hb. by rewrite linspace_length in Hb. }
    destruct (axis_point i) as (a' & Ha' & Halo & Hahi & _); [lia|].
    destruct (axis_point j) as (b' & Hb' & Hblo & Hbhi & _); [done|].
    rewrite Ha in Ha'. rewrite Hb in Hb'. injection Ha' as <-. injection Hb' as <-.
    pose proof (Hbound j Hj) as Hjn. pose proof (Hnonneg i) as HI0.
    assert (HIJ : inject_Z (Z.of_nat i) + 1 <= inject_Z (Z.of_nat j)).
    { change 1 with (inject_Z (Z.of_nat 1)). rewrite <- inject_nat_plus.
      apply inject_nat_le. lia. }
    set (I := inject_Z (Z.of_nat i)) in *. set (J := inject_Z (Z.of_nat j)) in *.
    set (r := 1 / d) in *.
    assert (P1 : 0 <= (J - I - 1) * r) by (apply Qmult_le_0_compat; lra).
    assert (P2 : 0 <= (2 * n + 1 - (I + 2) - (J + 2)) * eps)
      by (apply Qmult_le_0_compat; lra).
    lra.
  - intros i a b Ha Hb.
    assert (Hi : (S i < num)%nat).
    { apply lookup_lt_Some in Hb. by rewrite linspace_length in Hb. }
    destruct (axis_point i) as (a' & Ha' & Halo & Hahi & _); [lia|].
    destruct (axis_point (S i)) as (b' & Hb' & Hblo & Hbhi & _); [done|].
    rewrite Ha in Ha'. rewrite Hb in Hb'. injection Ha' as <-. injection Hb' as <-.
    rewrite Htol.
    pose proof (Hbound (S i) Hi) as Hjn. pose proof (Hnonneg i) as HI0.
    assert (HS : inject_Z (Z.of_nat (S i)) == inject_Z (Z.of_nat i) + 1).
    { replace (S i) with (i + 1)%nat by lia. by rewrite inject_nat_plus. }
    rewrite HS in Hblo, Hbhi, Hjn.
    set (I := inject_Z (Z.of_nat i)) in *.
    set (r := 1 / d) in *.
    assert (P2 : 0 <= (2 * n + 1 - (I + 2) - (I + 1 + 2)) * eps)
      by (apply Qmult_le_0_compat; lra).
    split; lra.
Qed.

End Axis.

(** C2, as amended: for every probability grid with at least two rows and
    at least two columns (and not so many that the rounding of the doubles
    could merge two points), the two axes derived from its shape have exactly
    as many points as the grid has rows and columns, start at 0, end at 1
    and increase strictly; they are evenly spaced up to the rounding: every
    step is within [(2 n + 1) eps] of [1 / (n - 1)]. *)
Theorem grid_axes_span_unit_interval (grid_probabilities : ndarray Q) :
  (2 ≤ shape0 grid_probabilities)%nat →
  (2 ≤ shape1 grid_probabilities)%nat →
  short_for eps (shape0 grid_probabilities) →
  short_for eps (shape1 grid_probabilities) →
  rounded_unit_axis eps (Visualize.x_grids grid_probabilities) (shape0 grid_probabilities)
  ∧ rounded_unit_axis eps (Visualize.y_grids grid_probabilities)
      (shape1 grid_probabilities).
Proof.
  intros H0 H1 S0 S1. split; by apply rounded_unit_axis_linspace.
Qed.

End GridAxes.

Lemma fixed_point_rounds :
  Properties.rounds_within (H := Examples.fixed_point) (1 # 9007199254740992).
Proof.
  unfold Properties.rounds_within. cbn [round Examples.fixed_point].
  split; [|split; [|split]].
  - intros x y Hxy.
    assert (Hf : (Qfloor (x * 9007199254740992 + (1 # 2))
                  ≤ Qfloor (y * 9007199254740992 + (1 # 2)))%Z)
      by (apply Qfloor_resp_le; lra).
    rewrite Zle_Qle in Hf. lra.
  - reflexivity.
  - reflexivity.
  - intros x H0 H2.
    pose proof (Qfloor_le (x * 9007199254740992 + (1 # 2))) as Hle.
    pose proof (Qlt_floor (x * 9007199254740992 + (1 # 2))) as Hlt.
    rewrite inject_Z_plus in Hlt. change (inject_Z 1) with 1 in Hlt.
    split; lra.
Qed.

Lemma grid_axes_span_unit_interval_witness :
  Properties.rounded_unit_axis (1 # 9007199254740992)
    (Visualize.x_grids (float := Examples.fixed_point) Examples.ramp_grid) 3
  ∧ Properties.rounded_unit_axis (1 # 9007199254740992)
      (Visualize.y_grids (float := Examples.fixed_point) Examples.ramp_grid) 3.
Proof.
  apply (grid_axes_span_unit_interval (float := Examples.fixed_point)
           (1 # 9007199254740992) fixed_point_rounds Examples.ramp_grid).
  - simpl; lia.
  - simpl; lia.
  - reflexivity.
  - reflexivity.
Defined.

(** Once the arithmetic rounds, the spacing is no longer the same between
    all neighbours: the axis of four points is not a [unit_axis]. *)
Lemma rounded_steps_differ :
  ¬ Properties.unit_axis
      (Visualize.x_grids (float := Examples.fixed_point) (mk_ndarray 4 4 (fun _ _ => 0))) 4.
Proof.
  intros (_ & _ & _ & _ & Hstep).
  pose proof (Hstep 0%nat _ _ eq_refl eq_refl) as E.
  by vm_compute in E.
Qed.

(** C2, as stated, fails on a grid with one row: its axis is the single
    point 0, which does not end at 1. *)
Lemma grid_axes_single_row_counterexample :
  ¬ (∀ grid_probabilities : ndarray Q,
       Properties.unit_axis (Visualize.x_grids grid_probabilities)
         (shape0 grid_probabilities)
       ∧ Properties.unit_axis (Visualize.y_grids grid_probabilities)
           (shape1 grid_probabilities)).
Proof.
  intros H.
  destruct (H (mk_ndarray 1 1 (fun _ _ => 0))) as [(_ & _ & (b & Hb & Eb) & _) _].
  vm_compute in Hb. inversion Hb; subst b. by vm_compute in Eb.
Qed.

(** ** Background and mask of the Onco-GPS map *)

Section Background.

Import Visualize Properties.

Context {geometry : Provider} {float : Float64}.

Variables (o : options) (region : list point).
Variables (grid_probabilities : ndarray Q) (grid_states : ndarray Z).
Variable states_color : gmap Z color.

Local Abbreviation x := (grid_x grid_probabilities).
Local Abbreviation y := (grid_y grid_probabilities).

Local Abbreviation background_square :=
  (Properties.background_square o region grid_probabilities grid_states states_color).
Local Abbreviation mask_square := (Properties.mask_square o region grid_probabilities).
Local Abbreviation layer := (Properties.layer grid_probabilities).
Local Abbreviation colours_known :=
  (Properties.colours_known region grid_probabilities grid_states states_color).

Lemma elem_of_layer (square : nat -> nat -> list artist) (a : artist) :
  a ∈ layer square ↔
  ∃ i j, (i < shape0 grid_probabilities)%nat ∧ (j < shape1 grid_probabilities)%nat
         ∧ a ∈ square i j.
Proof.
  unfold Properties.layer. rewrite list_elem_of_bind. split.
  - intros (i & Ha & Hi). apply list_elem_of_bind in Ha as (j & Ha & Hj).
    exists i, j. by rewrite <- !elem_of_range.
  - intros (i & j & Hi & Hj & Ha). exists i. rewrite elem_of_range. split; [|done].
    apply list_elem_of_bind. exists j. by rewrite elem_of_range.
Qed.

Lemma amin_nonempty :
  (0 < shape0 grid_probabilities)%nat → (0 < shape1 grid_probabilities)%nat →
  ∃ p_min, amin grid_probabilities = Ok p_min.
Proof.
  unfold amin, ravel. destruct grid_probabilities as [[|r] [|c] it]; simpl; try lia.
  eauto.
Qed.

Lemma amax_nonempty :
  (0 < shape0 grid_probabilities)%nat → (0 < shape1 grid_probabilities)%nat →
  ∃ p_max, amax grid_probabilities = Ok p_max.
Proof.
  unfold amax, ravel. destruct grid_probabilities as [[|r] [|c] it]; simpl; try lia.
  eauto.
Qed.

Lemma plot_background_layer (cv : canvas) (p_min p_max : Q) :
  0 < background_markersize o →
  amin grid_probabilities = Ok p_min →
  amax grid_probabilities = Ok p_max →
  colours_known →
  plot_background o region grid_probabilities grid_states states_color cv
  = Ok (cv ++ layer (background_square p_min (p_max - p_min))).
Proof.
  intros Hsize Hmin Hmax Hknown. unfold plot_background.
  destruct (Qlt_le_dec 0 (background_markersize o)) as [_|Hle]; [|lra].
  rewrite Hmin, Hmax. simpl.
  apply for_each_pure. intros i c Hi%elem_of_range.
  apply for_each_pure. intros j c' Hj%elem_of_range.
  unfold background_cell, Properties.background_square.
  change (nth i (x_grids grid_probabilities) 0) with (x i).
  change (nth j (y_grids grid_probabilities) 0) with (y j).
  destruct (contains_point region (x i, y j)) eqn:Hin.
  - destruct (Hknown i j Hi Hj Hin) as [col Hcol].
    unfold getitem. by rewrite Hcol.
  - simpl. by rewrite app_nil_r.
Qed.

Lemma plot_background_mask_layer (cv : canvas) :
  0 < background_mask_markersize o →
  plot_background_mask o region grid_probabilities cv = Ok (cv ++ layer mask_square).
Proof.
  intros Hsize. unfold plot_background_mask.
  destruct (Qlt_le_dec 0 (background_mask_markersize o)) as [_|Hle]; [|lra].
  apply for_each_pure. intros i c Hi%elem_of_range.
  apply for_each_pure. intros j c' Hj%elem_of_range.
  unfold mask_cell, Properties.mask_square.
  change (nth i (x_grids grid_probabilities) 0) with (x i).
  change (nth j (y_grids grid_probabilities) 0) with (y j).
  destruct (contains_point region (x i, y j)); simpl; [by rewrite app_nil_r|done].
Qed.

Lemma background_square_at (p_min p_range : Q) (i j : nat) :
  (i < shape0 grid_probabilities)%nat → (j < shape1 grid_probabilities)%nat →
  colours_known →
  square_at (layer (background_square p_min p_range)) (x i) (y j)
  ↔ contains_point region (x i, y j) = true.
Proof.
  intros Hi Hj Hknown. split.
  - intros (ms & c & a & z & Hm). apply elem_of_layer in Hm as (i' & j' & _ & _ & Hm).
    unfold Properties.background_square in Hm.
    destruct (contains_point region (x i', y j')) eqn:Hin; [|by apply elem_of_nil in Hm].
    destruct (states_color !! item grid_states i' j'); [|by apply elem_of_nil in Hm].
    apply list_elem_of_singleton in Hm. inversion Hm; subst. congruence.
  - intros Hin. destruct (Hknown i j Hi Hj Hin) as [c Hc].
    eexists _, c, _, _. apply elem_of_layer. exists i, j. repeat split; [done..|].
    unfold Properties.background_square. rewrite Hin, Hc. apply list_elem_of_singleton. reflexivity.
Qed.

Lemma mask_square_at (i j : nat) :
  (i < shape0 grid_probabilities)%nat → (j < shape1 grid_probabilities)%nat →
  square_at (layer mask_square) (x i) (y j)
  ↔ contains_point region (x i, y j) = false.
Proof.
  intros Hi Hj. split.
  - intros (ms & c & a & z & Hm). apply elem_of_layer in Hm as (i' & j' & _ & _ & Hm).
    unfold Properties.mask_square in Hm.
    destruct (contains_point region (x i', y j')) eqn:Hin; [by apply elem_of_nil in Hm|].
    apply list_elem_of_singleton in Hm. inversion Hm; subst. congruence.
  - intros Hout. eexists _, _, _, _. apply elem_of_layer. exists i, j.
    repeat split; [done..|].
    unfold Properties.mask_square. rewrite Hout. apply list_elem_of_singleton. reflexivity.
Qed.


End Background.

Section GlobalExtremes.

Lemma fold_Qmin_le (xs : list Q) (x0 : Q) :
  fold_left Qmin xs x0 <= x0 ∧ ∀ x, x ∈ xs → fold_left Qmin xs x0 <= x.
Proof.
  revert x0. induction xs as [|x xs IH]; intros x0; simpl.
  - split; [lra|]. by intros ? ?%elem_of_nil.
  - destruct (IH (Qmin x0 x)) as [H0 Hall].
    pose proof (Q.le_min_l x0 x). pose proof (Q.le_min_r x0 x).
    split; [lra|]. intros z [->|Hz]%elem_of_cons; [lra|auto].
Qed.

Lemma fold_Qmax_ge (xs : list Q) (x0 : Q) :
  x0 <= fold_left Qmax xs x0 ∧ ∀ x, x ∈ xs → x <= fold_left Qmax xs x0.
Proof.
  revert x0. induction xs as [|x xs IH]; intros x0; simpl.
  - split; [lra|]. by intros ? ?%elem_of_nil.
  - destruct (IH (Qmax x0 x)) as [H0 Hall].
    pose proof (Q.le_max_l x0 x). pose proof (Q.le_max_r x0 x).
    split; [lra|]. intros z [->|Hz]%elem_of_cons; [lra|auto].
Qed.

Lemma elem_of_ravel {A} (a : ndarray A) (i j : nat) :
  (i < shape0 a)%nat → (j < shape1 a)%nat → item a i j ∈ ravel a.
Proof.
  intros Hi Hj. unfold ravel. apply list_elem_of_In, in_flat_map.
  exists i. split; [apply in_seq; lia|].
  apply in_map_iff. exists j. split; [done|apply in_seq; lia].
Qed.

(** [amin] and [amax] are the global bounds the rescaling uses. *)
Lemma amin_amax_bound (grid_probabilities : ndarray Q) (p_min p_max : Q) (i j : nat) :
  amin grid_probabilities = Ok p_min →
  amax grid_probabilities = Ok p_max →
  (i < shape0 grid_probabilities)%nat → (j < shape1 grid_probabilities)%nat →
  p_min <= item grid_probabilities i j <= p_max.
Proof.
  unfold amin, amax. intros Hmin Hmax Hi Hj.
  pose proof (elem_of_ravel grid_probabilities i j Hi Hj) as Hin.
  destruct (ravel grid_probabilities) as [|x0 xs]; [done|].
  inversion Hmin; inversion Hmax; subst.
  destruct (fold_Qmin_le xs x0) as [? ?]. destruct (fold_Qmax_ge xs x0) as [? ?].
  apply elem_of_cons in Hin as [->|Hin]; split; auto.
Qed.

End GlobalExtremes.

(** ** The map layers of the renderer *)

Section MapLayers.

Import Visualize Properties.

Context {geometry : Provider} {float : Float64}.
Variables (bwr Paired light_palette : Colormap).
Variable normalize_pandas_object : list cell -> list cell.

Lemma no_squares_nil : no_squares [].
Proof. intros x y (ms & c & a & z & Hin). by apply elem_of_nil in Hin. Qed.

Lemma no_squares_app (l1 l2 : list artist) :
  no_squares l1 → no_squares l2 → no_squares (l1 ++ l2).
Proof.
  intros H1 H2 x y (ms & c & a & z & Hin).
  apply elem_of_app in Hin as [Hin|Hin]; [apply (H1 x y)|apply (H2 x y)];
    by exists ms, c, a, z.
Qed.

Lemma no_squares_cons (a : artist) (l : list artist) :
  (∀ x y ms c al z, a ≠ Marker ax_map x y "s" ms c al z) →
  no_squares l → no_squares (a :: l).
Proof.
  intros Ha Hl x y (ms & c & al & z & Hin).
  apply elem_of_cons in Hin as [Heq|Hin].
  - by apply (Ha x y ms c al z).
  - apply (Hl x y). by exists ms, c, al, z.
Qed.

Local Ltac no_squares :=
  repeat (apply no_squares_cons; [intros; congruence|]); apply no_squares_nil.

Lemma adds_pure (extra : list artist) :
  no_squares extra → adds_no_squares (fun cv => Ok (cv ++ extra)).
Proof. intros Hextra cv cv' [= <-]. eauto. Qed.

Lemma adds_bind (f g : canvas -> result canvas) :
  adds_no_squares f → adds_no_squares g → adds_no_squares (fun cv => f cv ≫= g).
Proof.
  intros Hf Hg cv cv' H. destruct (f cv) as [cv1|e] eqn:E; [|done]. simpl in H.
  destruct (Hf _ _ E) as (e1 & -> & H1). destruct (Hg _ _ H) as (e2 & -> & H2).
  exists (e1 ++ e2). split; [by rewrite app_assoc|by apply no_squares_app].
Qed.

Lemma for_each_adds {X} (xs : list X) (body : X -> canvas -> result canvas) :
  (∀ x, adds_no_squares (body x)) → adds_no_squares (for_each xs body).
Proof.
  intros Hbody. induction xs as [|x xs IH]; intros cv cv' H.
  - injection H as <-. exists []. split; [by rewrite app_nil_r|apply no_squares_nil].
  - by apply (adds_bind (body x) (for_each xs body) (Hbody x) IH).
Qed.

Lemma label_loop_adds (o : options) (region : list point) (cs : list component)
    (shift : Q) (cv : canvas) :
  ∃ shift' labels,
    for_each cs (label_component o region) (shift, cv) = Ok (shift', cv ++ labels)
    ∧ no_squares labels.
Proof.
  revert shift cv. induction cs as [|c cs IH]; intros shift cv.
  - exists shift, []. split; [by rewrite app_nil_r|apply no_squares_nil].
  - assert (Hstep : ∃ shift' x y,
              label_component o region c (shift, cv)
              = Ok (shift', cv ++ [Text ax_map x y (component_label c)])).
    { unfold label_component. eexists _, _, _. reflexivity. }
    destruct Hstep as (s1 & x & y & Hstep).
    destruct (IH s1 (cv ++ [Text ax_map x y (component_label c)]))
      as (s2 & labels & Hloop & Hlabels).
    exists s2, (Text ax_map x y (component_label c) :: labels).
    split.
    + cbn [for_each]. rewrite Hstep. cbn [Py.bind]. rewrite Hloop.
      by rewrite <- app_assoc.
    + apply no_squares_cons; [intros; congruence|done].
Qed.

Lemma plot_component_labels_layer (o : options) (region : list point)
    (cs : list component) (cv : canvas) :
  ∃ labels, plot_component_labels o region cs cv = Ok (cv ++ labels)
            ∧ no_squares labels.
Proof.
  destruct (label_loop_adds o region cs (- (3 # 100)) cv) as (s & labels & Hloop & H).
  exists labels. split; [|done]. unfold plot_component_labels. by rewrite Hloop.
Qed.

(** The contour stage, when its argument checks pass, adds the contour
    lines and nothing else. *)
Lemma contour_stage_total (o : options) (grid_probabilities : ndarray Q) (cv : canvas) :
  contour_fits o grid_probabilities →
  ∃ lines,
    (if (0 <? n_contours o)%Z
     then contour (x_grids grid_probabilities) (y_grids grid_probabilities)
            grid_probabilities (n_contours o) cv
     else Ok cv)
    = Ok (cv ++ lines)
    ∧ no_squares lines.
Proof.
  intros Hfits. destruct (0 <? n_contours o)%Z eqn:Hn.
  - apply Z.ltb_lt in Hn. destruct Hfits as [Hle|[H2 Hsq]]; [lia|].
    exists [Contour (x_grids grid_probabilities) (y_grids grid_probabilities)
              (n_contours o) 2].
    split; [|no_squares].
    unfold contour, x_grids, y_grids. rewrite !linspace_length.
    rewrite Hsq in H2 |- *.
    replace (shape1 grid_probabilities <? 2)%nat with false
      by (symmetry; apply Nat.ltb_ge; lia).
    by rewrite Nat.eqb_refl.
  - exists []. split; [by rewrite app_nil_r|apply no_squares_nil].
Qed.

Lemma plot_states_adds (o : options) (states_color : gmap Z color)
    (samples : list sample) (unique_states : list Z) :
  adds_no_squares (plot_states o states_color samples unique_states).
Proof.
  unfold plot_states. apply adds_bind; apply for_each_adds.
  - intros s cv cv'. unfold plot_state_sample.
    destruct (getitem states_color (sample_state s)); [|done].
    intros [= <-]. eexists. split; [done|no_squares].
  - intros [i s] cv cv'. unfold plot_state_legend.
    destruct (getitem states_color s); [|done].
    intros [= <-]. eexists. split; [done|no_squares].
Qed.

Lemma plot_annotations_adds (o : options) (annotations : list pyval)
    (samples : list sample) (unique_states : list Z) :
  adds_no_squares
    (plot_annotations bwr Paired light_palette normalize_pandas_object o annotations
       samples unique_states).
Proof.
  intros cv cv'. unfold plot_annotations.
  destruct (set_up_annotations _ _ _ _ _ _ _) as [su|e]; [|done].
  revert cv cv'.
  apply (adds_bind
           (for_each (zip samples (annotation_column su)) (plot_annotated_sample o su))
           (plot_annotation_legends o su (map sample_state samples) unique_states)).
  - apply for_each_adds. intros row cv cv'. unfold plot_annotated_sample.
    destruct (annotated_sample_color o su (snd row)); [|done].
    intros [= <-]. eexists. split; [done|no_squares].
  - intros cv cv'. unfold plot_annotation_legends, plot_effect.
    destruct (String.eqb (effectplot_type o) "violine");
      [|destruct (String.eqb (effectplot_type o) "box"); [done|]];
      (destruct (String.eqb (annotation_type o) "continuous"); intros [= <-];
       rewrite <- !app_assoc; eexists; (split; [done|no_squares])).
Qed.

(** C1: when the map is drawn with both layers (the hull and the
    triangulation of the components exist, the contour call is not made or
    its argument checks pass, both marker sizes are positive, the grids have
    cells and the same shape, every inside cell has a colour for its state),
    [plot_map] returns what came before, then the background layer, then the
    mask layer.  The background layer is made of squares of the background
    size, the mask layer of white squares of the mask size.  The background
    layer has a square at a grid cell exactly when the hull of the components
    contains the cell's point and the mask layer has one exactly when it does
    not; no cell is in both layers and every cell is in one.  Nothing drawn
    before the two layers is a square, and whatever [plot_onco_gps] returns
    is these layers followed by artists none of which is a square. *)
Theorem background_and_mask_partition_the_grid (o : options)
    (component_coordinates : list component) (samples : list sample)
    (grid_probabilities : ndarray Q) (grid_states : ndarray Z)
    (annotations : list pyval) (region : list point)
    (simplices : list (nat * nat * nat)) :
  ConvexHull (component_points component_coordinates) = Ok region →
  Delaunay (component_points component_coordinates) = Ok simplices →
  contour_fits o grid_probabilities →
  same_shape grid_probabilities grid_states →
  0 < background_markersize o →
  0 < background_mask_markersize o →
  (0 < shape0 grid_probabilities)%nat →
  (0 < shape1 grid_probabilities)%nat →
  colours_known region grid_probabilities grid_states
    (assign_states_color Paired (Py.sorted_set Z.compare (map sample_state samples))) →
  ∃ before background mask,
    plot_map Paired o component_coordinates samples grid_probabilities grid_states
    = Ok (before ++ background ++ mask)
    ∧ no_squares before
    ∧ (∀ a, a ∈ background →
         ∃ x y c alpha,
           a = Marker ax_map x y "s" (background_markersize o) c (Some alpha) (Some 1%Z))
    ∧ (∀ a, a ∈ mask →
         ∃ x y,
           a = Marker ax_map x y "s" (background_mask_markersize o) (Named "w") None
                 (Some 3%Z))
    ∧ (∀ i j, (i < shape0 grid_probabilities)%nat → (j < shape1 grid_probabilities)%nat →
         (square_at background (grid_x grid_probabilities i) (grid_y grid_probabilities j)
          ↔ contains_point region
              (grid_x grid_probabilities i, grid_y grid_probabilities j) = true)
         ∧ (square_at mask (grid_x grid_probabilities i) (grid_y grid_probabilities j)
            ↔ contains_point region
                (grid_x grid_probabilities i, grid_y grid_probabilities j) = false)
         ∧ ¬ (square_at background (grid_x grid_probabilities i)
                (grid_y grid_probabilities j)
              ∧ square_at mask (grid_x grid_probabilities i)
                  (grid_y grid_probabilities j))
         ∧ (square_at background (grid_x grid_probabilities i)
              (grid_y grid_probabilities j)
            ∨ square_at mask (grid_x grid_probabilities i)
                (grid_y grid_probabilities j)))
    ∧ (∀ figure,
         plot_onco_gps bwr Paired light_palette normalize_pandas_object o
           component_coordinates samples grid_probabilities grid_states annotations
         = Ok figure →
         ∃ after, figure = before ++ background ++ mask ++ after ∧ no_squares after).
Proof.
  intros Hhull Hdel Hfits _ Hb Hm H0 H1 Hknown.
  set (states_color :=
         assign_states_color Paired (Py.sorted_set Z.compare (map sample_state samples)))
    in *.
  destruct (amin_nonempty grid_probabilities H0 H1) as [p_min Hmin].
  destruct (amax_nonempty grid_probabilities H0 H1) as [p_max Hmax].
  set (cv0 := plot_components o component_coordinates
                (plot_title o (length samples) (length component_coordinates)
                   (length (Py.sorted_set Z.compare (map sample_state samples))))).
  destruct (plot_component_labels_layer o region component_coordinates cv0)
    as (labels & Hlabels & Hnolabels).
  destruct (contour_stage_total o grid_probabilities
              ((cv0 ++ labels)
               ++ [Triplot (component_points component_coordinates) simplices 4]) Hfits)
    as (lines & Hlines & Hnolines).
  set (before := ((cv0 ++ labels)
                  ++ [Triplot (component_points component_coordinates) simplices 4])
                 ++ lines) in *.
  set (background := layer grid_probabilities
                       (background_square o region grid_probabilities grid_states
                          states_color p_min (p_max - p_min))).
  set (mask := layer grid_probabilities (mask_square o region grid_probabilities)).
  assert (Hmap : plot_map Paired o component_coordinates samples grid_probabilities
                   grid_states
                 = Ok (before ++ background ++ mask)).
  { unfold plot_map, mbind, result_bind. rewrite Hhull. cbn [Py.bind].
    fold cv0. rewrite Hlabels. cbn [Py.bind]. rewrite Hdel. cbn [Py.bind].
    rewrite Hlines. cbn [Py.bind]. fold states_color.
    rewrite (plot_background_layer o region grid_probabilities grid_states states_color
               before p_min p_max Hb Hmin Hmax Hknown).
    cbn [Py.bind]. fold background.
    rewrite (plot_background_mask_layer o region grid_probabilities
               (before ++ background) Hm).
    fold mask. by rewrite <- app_assoc. }
  exists before, background, mask.
  split; [exact Hmap|]. split; [|split; [|split; [|split]]].
  - unfold before, cv0, plot_components, plot_title.
    repeat apply no_squares_app; try done; no_squares.
  - intros a (i & j & _ & _ & Ha)%elem_of_layer.
    unfold background_square in Ha.
    destruct (contains_point region _); [|by apply elem_of_nil in Ha].
    destruct (states_color !! _); [|by apply elem_of_nil in Ha].
    apply list_elem_of_singleton in Ha. eauto.
  - intros a (i & j & _ & _ & Ha)%elem_of_layer.
    unfold mask_square in Ha.
    destruct (contains_point region _); [by apply elem_of_nil in Ha|].
    apply list_elem_of_singleton in Ha. eauto.
  - intros i j Hi Hj.
    pose proof (background_square_at o region grid_probabilities grid_states states_color
                  p_min (p_max - p_min) i j Hi Hj Hknown) as Hbg.
    pose proof (mask_square_at o region grid_probabilities i j Hi Hj) as Hmk.
    fold background in Hbg. fold mask in Hmk.
    split; [done|]. split; [done|]. rewrite Hbg, Hmk.
    destruct (contains_point region _); split; auto; intros [? ?]; congruence.
  - intros figure. unfold plot_onco_gps, mbind, result_bind. rewrite Hmap. cbn [Py.bind].
    intros Hfigure.
    assert (Hafter : ∃ after, figure = (before ++ background ++ mask) ++ after
                              ∧ no_squares after).
    { destruct (any annotations).
      - by apply (plot_annotations_adds o annotations samples
                    (Py.sorted_set Z.compare (map sample_state samples))).
      - by apply (plot_states_adds o states_color samples
                    (Py.sorted_set Z.compare (map sample_state samples))). }
    destruct Hafter as (after & -> & Hafter). exists after.
    split; [by rewrite <- !app_assoc|done].
Qed.

End MapLayers.

Section BackgroundExamples.

Import Visualize Properties Examples.

Local Abbreviation square_region := (component_points unit_square).
Local Abbreviation one_colour := ({[0%Z := Named "#1f78b4"]} : gmap Z color).


Lemma wide_grid_colours_known :
  colours_known (geometry := convex_position) (component_points inner_square) wide_grid
    (wide_states 0)
    (assign_states_color (ramp 12)
       (Py.sorted_set Z.compare (map sample_state three_samples))).
Proof. intros i j _ _ _. cbn [item wide_states]. vm_compute. eauto. Qed.

Lemma background_and_mask_partition_the_grid_witness :
  ∃ before background mask,
    plot_map (geometry := convex_position) (ramp 12) default_options inner_square
      three_samples wide_grid (wide_states 0)
    = Ok (before ++ background ++ mask)
    ∧ no_squares before
    ∧ (∀ a, a ∈ background →
         ∃ x y c alpha,
           a = Marker ax_map x y "s" (background_markersize default_options) c
                 (Some alpha) (Some 1%Z))
    ∧ (∀ a, a ∈ mask →
         ∃ x y,
           a = Marker ax_map x y "s" (background_mask_markersize default_options)
                 (Named "w") None (Some 3%Z))
    ∧ (∀ i j, (i < shape0 wide_grid)%nat → (j < shape1 wide_grid)%nat →
         (square_at background (grid_x wide_grid i) (grid_y wide_grid j)
          ↔ contains_point (Provider := convex_position) (component_points inner_square)
              (grid_x wide_grid i, grid_y wide_grid j) = true)
         ∧ (square_at mask (grid_x wide_grid i) (grid_y wide_grid j)
            ↔ contains_point (Provider := convex_position)
                (component_points inner_square)
                (grid_x wide_grid i, grid_y wide_grid j) = false)
         ∧ ¬ (square_at background (grid_x wide_grid i) (grid_y wide_grid j)
              ∧ square_at mask (grid_x wide_grid i) (grid_y wide_grid j))
         ∧ (square_at background (grid_x wide_grid i) (grid_y wide_grid j)
            ∨ square_at mask (grid_x wide_grid i) (grid_y wide_grid j)))
    ∧ (∀ figure,
         plot_onco_gps (geometry := convex_position) (ramp 256) (ramp 12) (ramp 2)
           (standardize 2 1) default_options inner_square three_samples wide_grid
           (wide_states 0) three_annotations
         = Ok figure →
         ∃ after, figure = before ++ background ++ mask ++ after ∧ no_squares after).
Proof.
  apply (background_and_mask_partition_the_grid (geometry := convex_position)
           (ramp 256) (ramp 12) (ramp 2) (standardize 2 1) default_options inner_square
           three_samples wide_grid (wide_states 0) three_annotations
           (component_points inner_square) (fan 4)).
  - reflexivity.
  - reflexivity.
  - right. simpl. lia.
  - split; reflexivity.
  - reflexivity.
  - reflexivity.
  - simpl; lia.
  - simpl; lia.
  - exact wide_grid_colours_known.
Defined.

(** On that grid the hull holds the nine middle points and none of the
    sixteen outer ones. *)
Lemma wide_grid_cells :
  map (fun i =>
         map (fun j =>
                contains_point (Provider := convex_position)
                  (component_points inner_square)
                  (grid_x wide_grid i, grid_y wide_grid j))
           (Py.range 5))
    (Py.range 5)
  = [[false; false; false; false; false];
     [false; true; true; true; false];
     [false; true; true; true; false];
     [false; true; true; true; false];
     [false; false; false; false; false]].
Proof. reflexivity. Qed.



End BackgroundExamples.

(** ** Sorted sets *)

Section SortedSet.

Context {A : Type} (cmp : A -> A -> comparison).
Hypothesis cmp_eq : ∀ x y, cmp x y = Eq → x = y.

Lemma elem_of_insert_sorted (x y : A) (l : list A) :
  y ∈ Py.insert_sorted cmp x l ↔ y = x ∨ y ∈ l.
Proof.
  induction l as [|z l IH]; simpl.
  - rewrite list_elem_of_singleton, elem_of_nil. tauto.
  - destruct (cmp x z) eqn:E.
    + apply cmp_eq in E as ->. rewrite elem_of_cons. tauto.
    + rewrite elem_of_cons. tauto.
    + rewrite !elem_of_cons, IH. tauto.
Qed.

Lemma elem_of_sorted_set (x : A) (xs : list A) :
  x ∈ Py.sorted_set cmp xs ↔ x ∈ xs.
Proof.
  unfold Py.sorted_set. induction xs as [|y xs IH]; simpl; [done|].
  rewrite elem_of_insert_sorted, elem_of_cons, IH. tauto.
Qed.

End SortedSet.

(** ** State colours *)

Section StateColours.

Import Visualize Properties.

Variable Paired : Colormap.

(** The dictionary built by the loop [for s in unique_states: d[s] = f(s)]. *)
Lemma lookup_fold_insert (f : Z -> color) (l : list Z) (d : gmap Z color) (s : Z) :
  fold_left (fun acc t => <[t := f t]> acc) l d !! s
  = if decide (s ∈ l) then Some (f s) else d !! s.
Proof.
  revert d. induction l as [|t l IH]; intros d; cbn [fold_left].
  - by rewrite decide_False by apply not_elem_of_nil.
  - rewrite IH. destruct (decide (s ∈ l)) as [Hin|Hout].
    + by rewrite decide_True by (by right).
    + destruct (decide (s = t)) as [->|Hne].
      * rewrite lookup_insert_eq. by rewrite decide_True by left.
      * rewrite lookup_insert_ne by done.
        rewrite decide_False; [done|]. by intros [?|?]%elem_of_cons.
Qed.

Lemma assign_states_color_lookup (unique_states : list Z) (s : Z) :
  s ∈ unique_states →
  assign_states_color Paired unique_states !! s
  = Some (call_int (CMAP_CATEGORICAL Paired)
            (state_index Paired (length unique_states) s)).
Proof.
  intros Hs. unfold assign_states_color.
  rewrite (lookup_fold_insert
             (fun s => call_int (CMAP_CATEGORICAL Paired)
                         (state_index Paired (length unique_states) s))).
  by rewrite decide_True.
Qed.

(** Truncation and floor agree on the non-negative rationals and both are
    at most zero on the negative ones. *)
Lemma int_floor_nonneg (q : Q) : 0 <= q → Py.int q = Qfloor q.
Proof.
  destruct q as [a b]. unfold Qle, Py.int, Qfloor. simpl. intros Ha.
  apply Z.quot_div_nonneg; lia.
Qed.

Lemma int_floor_neg (q : Q) : q < 0 → (Py.int q ≤ 0)%Z ∧ (Qfloor q < 0)%Z.
Proof.
  destruct q as [a b]. unfold Qlt, Py.int, Qfloor. simpl. intros Ha. split.
  - replace a with (- - a)%Z by lia. rewrite Z.quot_opp_l by lia.
    assert (0 ≤ (- a) ÷ Z.pos b)%Z by (apply Z.quot_pos; lia). lia.
  - apply Z.div_lt_upper_bound; lia.
Qed.

Lemma take_nonpositive (cm : Colormap) (i : Z) :
  rgba_under cm = None → (0 < N cm)%Z → (i ≤ 0)%Z → lut_take cm i = lut cm 0%Z.
Proof.
  intros Hunder HN Hi. unfold lut_take, color_under. rewrite Hunder. simpl.
  destruct (Z.ltb_spec (N cm - 1) i); [lia|].
  destruct (Z.ltb_spec i 0); [done|]. by replace i with 0%Z by lia.
Qed.

(** The colormap answers the truncated and the floored index alike. *)
Lemma call_int_floor (cm : Colormap) (q : Q) :
  rgba_under cm = None → (0 < N cm)%Z →
  call_int cm (Py.int q) = call_int cm (Qfloor q).
Proof.
  intros Hunder HN. unfold call_int.
  destruct (Qlt_le_dec q 0) as [Hneg|Hpos].
  - destruct (int_floor_neg q Hneg).
    rewrite !take_nonpositive by (done || lia). done.
  - by rewrite int_floor_nonneg.
Qed.

(** C3: every state label among the unique states is coloured by the
    categorical palette entry at index [floor(s / n_unique_states * N)],
    a function of the label's own value (its rank among the states does not
    enter); two labels with the same floor index get the same colour. *)
Theorem state_colour_by_value (states : list Z) (s : Z) :
  rgba_under Paired = None →
  (0 < N Paired)%Z →
  s ∈ states →
  assign_states_color Paired (Py.sorted_set Z.compare states) !! s
  = Some (call_int (CMAP_CATEGORICAL Paired)
            (palette_index (length (Py.sorted_set Z.compare states))
               (N (CMAP_CATEGORICAL Paired)) s))
  ∧ ∀ t, t ∈ states →
      palette_index (length (Py.sorted_set Z.compare states))
        (N (CMAP_CATEGORICAL Paired)) t
      = palette_index (length (Py.sorted_set Z.compare states))
          (N (CMAP_CATEGORICAL Paired)) s →
      assign_states_color Paired (Py.sorted_set Z.compare states) !! t
      = assign_states_color Paired (Py.sorted_set Z.compare states) !! s.
Proof.
  intros Hunder HN Hs.
  assert (Hcol : ∀ t, t ∈ states →
            assign_states_color Paired (Py.sorted_set Z.compare states) !! t
            = Some (call_int (CMAP_CATEGORICAL Paired)
                      (palette_index (length (Py.sorted_set Z.compare states))
                         (N (CMAP_CATEGORICAL Paired)) t))).
  { intros t Ht.
    rewrite assign_states_color_lookup by (by apply elem_of_sorted_set; [apply Z.compare_eq|]).
    unfold state_index, palette_index. by rewrite call_int_floor. }
  split; [by apply Hcol|].
  intros t Ht Heq. rewrite !Hcol by done. by rewrite Heq.
Qed.

End StateColours.

Lemma state_colour_by_value_witness :
  Visualize.assign_states_color (Examples.ramp 12)
    (Py.sorted_set Z.compare [3; 1; 4; 1; 5]%Z) !! 4%Z
  = Some (call_int (Visualize.CMAP_CATEGORICAL (Examples.ramp 12))
            (Properties.palette_index
               (length (Py.sorted_set Z.compare [3; 1; 4; 1; 5]%Z))
               (N (Visualize.CMAP_CATEGORICAL (Examples.ramp 12))) 4))
  ∧ ∀ t, t ∈ [3; 1; 4; 1; 5]%Z →
      Properties.palette_index (length (Py.sorted_set Z.compare [3; 1; 4; 1; 5]%Z))
        (N (Visualize.CMAP_CATEGORICAL (Examples.ramp 12))) t
      = Properties.palette_index (length (Py.sorted_set Z.compare [3; 1; 4; 1; 5]%Z))
          (N (Visualize.CMAP_CATEGORICAL (Examples.ramp 12))) 4 →
      Visualize.assign_states_color (Examples.ramp 12)
        (Py.sorted_set Z.compare [3; 1; 4; 1; 5]%Z) !! t
      = Visualize.assign_states_color (Examples.ramp 12)
          (Py.sorted_set Z.compare [3; 1; 4; 1; 5]%Z) !! 4%Z.
Proof.
  apply (state_colour_by_value (Examples.ramp 12) [3; 1; 4; 1; 5]%Z 4%Z).
  - reflexivity.
  - reflexivity.
  - apply list_elem_of_In. simpl. tauto.
Defined.

(** Labels 4 and 5 of the four states 1, 3, 4, 5 both land beyond the
    twelve palette entries and share the last colour, whatever their rank. *)
Example state_colours_collide :
  Visualize.assign_states_color (Examples.ramp 12) [1; 3; 4; 5]%Z !! 4%Z
  = Visualize.assign_states_color (Examples.ramp 12) [1; 3; 4; 5]%Z !! 5%Z.
Proof. reflexivity. Qed.

(** ** Component labels *)

Section ComponentLabels.

Import Visualize Examples.

Context {geometry : Provider} {float : Numpy.Float64}.

(** In "auto" mode the shift carried over from the previous component is
    probed at the candidate position and flipped exactly when the region
    contains it. *)
Lemma label_component_auto (o : options) (region : list point) (c : component)
    (shift : Q) (cv : canvas) :
  component_text_position o = "auto" →
  label_component o region c (shift, cv)
  = Ok (if contains_point region (component_x c, component_y c + shift)
        then (shift * -1,
              cv ++ [Text ax_map (component_x c) (component_y c + shift * -1)
                       (component_label c)])
        else (shift,
              cv ++ [Text ax_map (component_x c) (component_y c + shift)
                       (component_label c)])).
Proof.
  intros Hauto. unfold label_component. rewrite Hauto. simpl.
  by destruct (contains_point region _).
Qed.

Lemma label_component_bottom (o : options) (region : list point) (c : component)
    (shift : Q) (cv : canvas) :
  component_text_position o = "bottom" →
  label_component o region c (shift, cv)
  = Ok (shift, cv ++ [Text ax_map (component_x c) (component_y c + shift)
                        (component_label c)]).
Proof. intros Hbottom. unfold label_component. by rewrite Hbottom. Qed.

(** In "bottom" mode every label sits 0.03 below its marker. *)
Lemma bottom_labels_stay_below (o : options) (region : list point)
    (cs : list component) (cv : canvas) :
  component_text_position o = "bottom" →
  plot_component_labels o region cs cv
  = Ok (cv ++ map (fun c => Text ax_map (component_x c)
                              (component_y c + - (3 # 100)) (component_label c)) cs).
Proof.
  intros Hbottom. unfold plot_component_labels.
  assert (Hloop : ∀ cv, for_each cs (label_component o region) (- (3 # 100), cv)
            = Ok (- (3 # 100),
                  cv ++ map (fun c => Text ax_map (component_x c)
                                        (component_y c + - (3 # 100))
                                        (component_label c)) cs)).
  { induction cs as [|c cs' IH]; intros cv'; cbn [for_each map].
    - by rewrite app_nil_r.
    - rewrite label_component_bottom by done. cbn [Py.bind].
      rewrite IH. by rewrite <- app_assoc. }
  by rewrite Hloop.
Qed.

(** C6 fails in "top" mode: the shift is flipped once per component, so
    the labels of the four corner components land above, below, above and
    below their markers in turn. *)
Theorem top_labels_alternate_sides (region : list point) (cv : canvas) :
  plot_component_labels top_options region unit_square cv
  = Ok (cv ++ [Text ax_map 0 (3 # 100) "C1";
               Text ax_map 1 (-3 # 100) "C2";
               Text ax_map 1 (103 # 100) "C3";
               Text ax_map 0 (97 # 100) "C4"]).
Proof.
  unfold plot_component_labels, unit_square. simpl.
  rewrite <- !app_assoc. reflexivity.
Qed.

End ComponentLabels.

(** ** Samples coloured by a continuous annotation *)

Section ContinuousAnnotation.

Import Visualize Examples.

(** A float below zero is looked up at the "under" entry, a float from one
    upwards at the top end of the table. *)
Lemma call_float_negative (cm : Colormap) (v : Q) :
  (0 < N cm)%Z → v < 0 → call_float cm (Some v) = color_under cm.
Proof.
  intros HN Hv. unfold call_float.
  assert (HNq : 0 < inject_Z (N cm)).
  { change 0 with (inject_Z 0). by rewrite <- Zlt_Qlt. }
  assert (Hxa : v * inject_Z (N cm) < 0) by nra.
  destruct (Qle_bool 0 (v * inject_Z (N cm))) eqn:E.
  - apply Qle_bool_iff in E. lra.
  - unfold lut_take. destruct (Z.ltb_spec (N cm - 1) (-1)); [lia|]. done.
Qed.

Lemma call_float_one (cm : Colormap) :
  (0 < N cm)%Z → call_float cm (Some 1) = lut cm (N cm - 1)%Z.
Proof.
  intros HN. unfold call_float.
  assert (HNq : 0 < inject_Z (N cm)).
  { change 0 with (inject_Z 0). by rewrite <- Zlt_Qlt. }
  destruct (Qle_bool 0 (1 * inject_Z (N cm))) eqn:E.
  - destruct (Qeq_bool (1 * inject_Z (N cm)) (inject_Z (N cm))) eqn:E'.
    + unfold lut_take. destruct (Z.ltb_spec (N cm - 1) (N cm - 1)); [lia|].
      destruct (Z.ltb_spec (N cm - 1) 0); [lia|done].
    + apply Qeq_bool_neq in E'. exfalso. apply E'. ring.
  - assert (0 <= 1 * inject_Z (N cm)) as ?%Qle_bool_iff by lra. congruence.
Qed.

(** The colour of a continuous annotation is the colormap called on the
    clipped z-score itself: every sample below the mean gets the one
    "under" colour, whatever [std_max] is. *)
Lemma continuous_below_mean_is_under (o : options) (su : annotation_setup) (v : Q) :
  annotation_type o = "continuous" →
  (0 < N (cmap su))%Z →
  v < 0 →
  annotated_sample_color o su (Some v) = Ok (color_under (cmap su)).
Proof.
  intros Hcont HN Hv. unfold annotated_sample_color, isnull, isna. rewrite Hcont.
  change ("continuous" =? "continuous")%string with true. cbv iota.
  by rewrite call_float_negative.
Qed.

(** C4 fails on the annotations 1, 2, 3 (z-scores -1, 0, 1) with
    [std_max = 3]: the code colours the samples with entries 0, 0 and 255
    of a 256-entry map, where the map normalised over [-3, 3] gives
    entries 85, 128 and 170. *)
Theorem continuous_colours_are_not_normalized :
  ∃ su,
    set_up_annotations (ramp 256) (ramp 12) (ramp 2) (standardize 2 1)
      default_options three_annotations three_samples = Ok su
    ∧ annotation_column su = [Some (-1); Some 0; Some 1]
    ∧ map (annotated_sample_color default_options su) (annotation_column su)
      = [Ok (lut (ramp 256) 0%Z); Ok (lut (ramp 256) 0%Z); Ok (lut (ramp 256) 255%Z)]
    ∧ map (fun z => call_float (cmap su) (Some (Normalize (- std_max default_options)
                                                  (std_max default_options) z)))
          [-1; 0; 1]
      = [lut (ramp 256) 85%Z; lut (ramp 256) 128%Z; lut (ramp 256) 170%Z].
Proof.
  eexists. split; [reflexivity|]. repeat split.
Qed.

End ContinuousAnnotation.

(** ** Unrecognised type strings *)

Section UnknownTypes.

Import Visualize Examples.

Context {geometry : Provider} {float : Float64}.
Variables (bwr Paired light_palette : Colormap).
Variable normalize_pandas_object : list cell -> list cell.

Local Abbreviation set_up := (set_up_annotations bwr Paired light_palette normalize_pandas_object).
Local Abbreviation annotate := (plot_annotations bwr Paired light_palette normalize_pandas_object).
Local Abbreviation render := (plot_onco_gps bwr Paired light_palette normalize_pandas_object).




(** An effect plot kind other than the two known ones draws nothing and
    raises nothing. *)
Lemma plot_effect_unknown_type (o : options) (cv : canvas) :
  effectplot_type o ≠ "violine" →
  effectplot_type o ≠ "box" →
  plot_effect o cv = Ok cv.
Proof.
  intros H1%String.eqb_neq H2%String.eqb_neq. unfold plot_effect. by rewrite H1, H2.
Qed.


End UnknownTypes.

Section UnknownTypesExamples.

Import Visualize Examples.



End UnknownTypesExamples.

(** ** make_variant_dict_consistent *)

Section VariantDict.

Import Vcf.

Lemma comprehension_lookup (d acc : gmap key value) (ks : list string) (k : string) :
  fold_left (fun acc k => <[KStr k := get d k]> acc) ks acc !! KStr k
  = if decide (k ∈ ks) then Some (get d k) else acc !! KStr k.
Proof.
  revert acc. induction ks as [|k' ks IH]; intros acc; cbn [fold_left].
  - by rewrite decide_False by apply not_elem_of_nil.
  - rewrite IH. destruct (decide (k ∈ ks)) as [Hin|Hout].
    + by rewrite decide_True by (by right).
    + destruct (decide (k = k')) as [->|Hne].
      * rewrite lookup_insert_eq. by rewrite decide_True by left.
      * rewrite lookup_insert_ne by (intros [= ?]; done).
        rewrite decide_False; [done|]. by intros [?|?]%elem_of_cons.
Qed.

Lemma comprehension_lookup_int (d acc : gmap key value) (ks : list string) (z : Z) :
  fold_left (fun acc k => <[KStr k := get d k]> acc) ks acc !! KInt z = acc !! KInt z.
Proof.
  revert acc. induction ks as [|k' ks IH]; intros acc; cbn [fold_left]; [done|].
  rewrite IH. by rewrite lookup_insert_ne.
Qed.

(** One nested assignment: two new objects, one changed key of [vd]. *)
Lemma assign_nested_ok (h : heap) (vd : loc) (d : gmap key value) (k : string)
    (fields : list string) :
  h !! vd = Some d →
  assign_nested vd k fields h
  = Ok (<[vd := <[KStr k := VRef (S (length h))]> d]> h
        ++ [comprehension d fields; {[KInt 0 := VRef (length h)]}]).
Proof.
  intros Hvd. unfold assign_nested, alloc. rewrite Hvd. simpl. f_equal.
  assert (Hlt : (vd < length h)%nat) by by eapply lookup_lt_Some.
  rewrite length_app. simpl. replace (length h + 1)%nat with (S (length h)) by lia.
  rewrite <- app_assoc. simpl.
  apply list_eq. intros i.
  destruct (decide (i = vd)) as [->|Hne].
  - rewrite list_lookup_alter_eq.
    rewrite !lookup_app_l by (rewrite ?length_insert; done).
    rewrite Hvd. by rewrite list_lookup_insert_eq.
  - rewrite list_lookup_alter_ne by done.
    destruct (decide (i < length h)%nat).
    + rewrite !lookup_app_l by (rewrite ?length_insert; done).
      by rewrite list_lookup_insert_ne.
    + rewrite !lookup_app_r by (rewrite ?length_insert; lia).
      by rewrite length_insert.
Qed.

(** C10, as amended: the call changes the dictionary object [vd] in place
    and returns [None].  Afterwards ["ANN"] refers to a new dictionary
    [{0: inner}] whose [inner] maps each requested annotation key to the
    value [vd] had for it, or to [None]; ["sample"] refers to a new
    dictionary [{0: inner}] whose [inner] maps each requested format field
    to the value [vd] had for it, or to [None], except that the field
    ["ANN"] maps to the new ["ANN"] entry just stored; every other key of
    [vd] and every other object is unchanged, and no key lookup raises. *)
Theorem make_variant_dict_consistent_effect (h : heap) (vd : loc)
    (d : gmap key value) (an_ fo_ : list string) :
  h !! vd = Some d →
  ∃ h' d' ann sample,
    make_variant_dict_consistent vd an_ fo_ h = Ok (VNone, h')
    ∧ h' !! vd = Some d'
    ∧ d' !! KStr "ANN" = Some (VRef (1 + length h))
    ∧ d' !! KStr "sample" = Some (VRef (3 + length h))
    ∧ (∀ k, k ≠ KStr "ANN" → k ≠ KStr "sample" → d' !! k = d !! k)
    ∧ h' !! (1 + length h)%nat = Some {[KInt 0 := VRef (length h)]}
    ∧ h' !! length h = Some ann
    ∧ (∀ k, ann !! KStr k = if decide (k ∈ an_) then Some (default VNone (d !! KStr k))
                            else None)
    ∧ (∀ z, ann !! KInt z = None)
    ∧ h' !! (3 + length h)%nat = Some {[KInt 0 := VRef (2 + length h)]}
    ∧ h' !! (2 + length h)%nat = Some sample
    ∧ (∀ k, sample !! KStr k
            = if decide (k ∈ fo_)
              then Some (if decide (k = "ANN") then VRef (1 + length h)
                         else default VNone (d !! KStr k))
              else None)
    ∧ (∀ z, sample !! KInt z = None)
    ∧ (∀ l, (l < length h)%nat → l ≠ vd → h' !! l = h !! l)
    ∧ length h' = (4 + length h)%nat.
Proof.
  intros Hvd.
  assert (Hlt : (vd < length h)%nat) by by eapply lookup_lt_Some.
  set (d1 := <[KStr "ANN" := VRef (S (length h))]> d).
  set (h1 := <[vd := d1]> h ++ [comprehension d an_; {[KInt 0 := VRef (length h)]}]).
  assert (Hlen1 : length h1 = (2 + length h)%nat).
  { unfold h1. rewrite length_app, length_insert. simpl. lia. }
  assert (Hvd1 : h1 !! vd = Some d1).
  { unfold h1. rewrite lookup_app_l by (by rewrite length_insert).
    by apply list_lookup_insert_eq. }
  set (d2 := <[KStr "sample" := VRef (S (length h1))]> d1).
  set (h2 := <[vd := d2]> h1 ++ [comprehension d1 fo_; {[KInt 0 := VRef (length h1)]}]).
  assert (Hrun : make_variant_dict_consistent vd an_ fo_ h = Ok (VNone, h2)).
  { unfold make_variant_dict_consistent.
    rewrite (assign_nested_ok h vd d "ANN" an_ Hvd). simpl.
    fold d1 h1. by rewrite (assign_nested_ok h1 vd d1 "sample" fo_ Hvd1). }
  assert (Hnew : ∀ i x, ([comprehension d an_; {[KInt 0 := VRef (length h)]}] : heap) !! i
                        = Some x →
                        h2 !! (length h + i)%nat = Some x).
  { intros i x Hi. assert (i < 2)%nat by (apply lookup_lt_Some in Hi; simpl in Hi; lia).
    unfold h2. rewrite lookup_app_l by (rewrite length_insert; lia).
    rewrite list_lookup_insert_ne by lia.
    unfold h1. rewrite lookup_app_r by (rewrite length_insert; lia).
    rewrite length_insert. by replace (length h + i - length h)%nat with i by lia. }
  assert (Hnew2 : ∀ i x, ([comprehension d1 fo_; {[KInt 0 := VRef (length h1)]}] : heap) !! i
                         = Some x →
                         h2 !! (2 + length h + i)%nat = Some x).
  { intros i x Hi. unfold h2. rewrite lookup_app_r by (rewrite length_insert; lia).
    rewrite length_insert. rewrite Hlen1 in Hi |- *.
    by replace (2 + length h + i - (2 + length h))%nat with i by lia. }
  exists h2, d2, (comprehension d an_), (comprehension d1 fo_).
  split; [done|]. split.
  { unfold h2. rewrite lookup_app_l by (rewrite length_insert; lia).
    apply list_lookup_insert_eq. lia. }
  split. { unfold d2, d1. rewrite lookup_insert_ne by done. by rewrite lookup_insert_eq. }
  split. { unfold d2. rewrite lookup_insert_eq. by rewrite Hlen1. }
  split.
  { intros k Hann Hsample. unfold d2, d1. by rewrite !lookup_insert_ne. }
  split. { replace (1 + length h)%nat with (length h + 1)%nat by lia. by apply Hnew. }
  split. { replace (length h) with (length h + 0)%nat at 1 by lia. by apply Hnew. }
  split. { intros k. unfold comprehension. by rewrite comprehension_lookup. }
  split. { intros z. unfold comprehension. by rewrite comprehension_lookup_int. }
  split.
  { replace (3 + length h)%nat with (2 + length h + 1)%nat by lia.
    apply Hnew2. simpl. by rewrite Hlen1. }
  split. { replace (2 + length h)%nat with (2 + length h + 0)%nat at 1 by lia. by apply Hnew2. }
  split.
  { intros k. unfold comprehension. rewrite comprehension_lookup, lookup_empty.
    destruct (decide (k ∈ fo_)); [|done]. f_equal. unfold get, d1.
    destruct (decide (k = "ANN")) as [->|Hne].
    - by rewrite lookup_insert_eq.
    - by rewrite lookup_insert_ne by (intros [= ?]; done). }
  split. { intros z. unfold comprehension. by rewrite comprehension_lookup_int. }
  split.
  { intros l Hl Hne. unfold h2. rewrite lookup_app_l by (rewrite length_insert; lia).
    rewrite list_lookup_insert_ne by done.
    unfold h1. rewrite lookup_app_l by (by rewrite length_insert).
    by rewrite list_lookup_insert_ne. }
  unfold h2. rewrite length_app, length_insert, Hlen1. simpl. lia.
Qed.

End VariantDict.

Section VariantDictExamples.

Import Vcf Examples.

Lemma make_variant_dict_consistent_effect_witness :
  ∃ h' d' ann sample,
    make_variant_dict_consistent 0 an_default fo_default variant_store = Ok (VNone, h')
    ∧ h' !! 0%nat = Some d'
    ∧ d' !! KStr "ANN" = Some (VRef (1 + length variant_store))
    ∧ d' !! KStr "sample" = Some (VRef (3 + length variant_store))
    ∧ (∀ k, k ≠ KStr "ANN" → k ≠ KStr "sample" → d' !! k = variant !! k)
    ∧ h' !! (1 + length variant_store)%nat
      = Some {[KInt 0 := VRef (length variant_store)]}
    ∧ h' !! length variant_store = Some ann
    ∧ (∀ k, ann !! KStr k
            = if decide (k ∈ an_default) then Some (default VNone (variant !! KStr k))
              else None)
    ∧ (∀ z, ann !! KInt z = None)
    ∧ h' !! (3 + length variant_store)%nat
      = Some {[KInt 0 := VRef (2 + length variant_store)]}
    ∧ h' !! (2 + length variant_store)%nat = Some sample
    ∧ (∀ k, sample !! KStr k
            = if decide (k ∈ fo_default)
              then Some (if decide (k = "ANN") then VRef (1 + length variant_store)
                         else default VNone (variant !! KStr k))
              else None)
    ∧ (∀ z, sample !! KInt z = None)
    ∧ (∀ l, (l < length variant_store)%nat → l ≠ 0%nat → h' !! l = variant_store !! l)
    ∧ length h' = (4 + length variant_store)%nat.
Proof.
  apply (make_variant_dict_consistent_effect variant_store 0%nat variant
           an_default fo_default).
  reflexivity.
Defined.

(** C10, as stated, fails when ["ANN"] is among the format fields: the
    ["sample"] entry then holds the dictionary just stored under ["ANN"],
    not the value the key had before the call. *)
Lemma sample_reads_new_ann_counterexample :
  ¬ (∀ (h : heap) (vd : loc) (d : gmap key value) (an_ fo_ : list string) (h' : heap),
       h !! vd = Some d →
       make_variant_dict_consistent vd an_ fo_ h = Ok (VNone, h') →
       ∃ d' outer inner sample,
         h' !! vd = Some d'
         ∧ d' !! KStr "sample" = Some (VRef outer)
         ∧ h' !! outer = Some {[KInt 0 := VRef inner]}
         ∧ h' !! inner = Some sample
         ∧ ∀ fo, fo ∈ fo_ → sample !! KStr fo = Some (default VNone (d !! KStr fo))).
Proof.
  intros H.
  edestruct (H variant_store 0%nat variant an_default ["ANN"] _ eq_refl eq_refl)
    as (d' & outer & inner & sample & Hvd & Hsample & Houter & Hinner & Hall).
  vm_compute in Hvd. injection Hvd as <-.
  vm_compute in Hsample. injection Hsample as <-.
  vm_compute in Houter. injection Houter as Houter.
  specialize (Hall "ANN" ltac:(by left)).
  destruct inner as [|[|[|[|[|inner]]]]]; vm_compute in Hinner; try discriminate;
    vm_compute in Houter; try discriminate.
  injection Hinner as <-. vm_compute in Hall. discriminate.
Qed.

End VariantDictExamples.

(** ** pivot *)

Section Pivot.

Import Dataframe Properties.

Lemma elem_of_unique (a : string) (labels : list string) :
  a ∈ unique labels ↔ a ∈ labels.
Proof. apply elem_of_sorted_set. intros x y. apply String.compare_eq_iff. Qed.

(** [map_int] sends a label to a position that holds this label. *)
Lemma map_int_lookup_Some (labels : list string) (a : string) (i : nat) :
  map_int labels !! a = Some i → labels !! i = Some a.
Proof.
  unfold map_int. intros H%elem_of_list_to_map_2.
  apply list_elem_of_lookup in H as [k Hk].
  apply lookup_zip_with_Some in Hk as (x & y & [= -> ->] & Hx & Hy).
  apply lookup_seq in Hy as [-> _]. done.
Qed.

Lemma map_int_lookup_is_Some (labels : list string) (a : string) :
  a ∈ labels → is_Some (map_int labels !! a).
Proof.
  intros Ha. unfold map_int.
  destruct (list_to_map (zip labels (seq 0 (length labels))) !! a) eqn:E; [eauto|].
  apply not_elem_of_list_to_map in E. rewrite fst_zip in E; [done|].
  by rewrite length_seq.
Qed.

Lemma has_shape_full (n0 n1 : nat) : has_shape n0 n1 (full n0 n1 None).
Proof.
  unfold has_shape, full. rewrite length_replicate. split; [done|].
  apply Forall_replicate. by rewrite length_replicate.
Qed.

Lemma has_shape_lookup (n0 n1 : nat) (matrix : list (list cell)) (i j : nat) :
  has_shape n0 n1 matrix → (i < n0)%nat → (j < n1)%nat →
  ∃ c, matrix !! i ≫= (.!! j) = Some c.
Proof.
  intros [Hlen Hrows] Hi Hj.
  destruct (lookup_lt_is_Some_2 matrix i) as [row Hrow]; [lia|].
  rewrite Hrow. simpl.
  assert (length row = n1) by (eapply Forall_lookup_1 in Hrows; eauto).
  apply lookup_lt_is_Some_2. lia.
Qed.

Lemma has_shape_set (n0 n1 : nat) (matrix : list (list cell)) (i j : nat) (v : cell) :
  has_shape n0 n1 matrix → has_shape n0 n1 (matrix_set matrix i j v).
Proof.
  intros [Hlen Hrows]. unfold has_shape, matrix_set. rewrite length_alter. split; [done|].
  apply Forall_alter; [done|]. intros row _ Hrow. by rewrite length_insert.
Qed.

Lemma matrix_set_get (matrix : list (list cell)) (i j : nat) (v c : cell) :
  matrix !! i ≫= (.!! j) = Some c →
  matrix_set matrix i j v !! i ≫= (.!! j) = Some v.
Proof.
  unfold matrix_set. intros H. rewrite list_lookup_alter_eq.
  destruct (matrix !! i) as [row|]; simpl in *; [|done].
  apply list_lookup_insert_eq. by eapply lookup_lt_Some.
Qed.

Lemma matrix_set_get_other (matrix : list (list cell)) (i j i' j' : nat) (v : cell) :
  (i', j') ≠ (i, j) →
  matrix_set matrix i j v !! i' ≫= (.!! j') = matrix !! i' ≫= (.!! j').
Proof.
  unfold matrix_set. intros Hne. destruct (decide (i = i')) as [->|Hi].
  - rewrite list_lookup_alter_eq. destruct (matrix !! i') as [row|]; simpl; [|done].
    apply list_lookup_insert_ne. congruence.
  - by rewrite list_lookup_alter_ne.
Qed.

Variable function : option (cell -> cell -> cell).
Variables axis_0_labels axis_1_labels : list string.

Local Abbreviation step :=
  (pivot_entry (map_int axis_0_labels) (map_int axis_1_labels) function).

(** One pass of the loop on an entry whose labels are known. *)
Lemma pivot_entry_run (e : entry) (matrix : list (list cell)) (i j : nat) (now : cell) :
  map_int axis_0_labels !! axis_0_label e = Some i →
  map_int axis_1_labels !! axis_1_label e = Some j →
  matrix !! i ≫= (.!! j) = Some now →
  step e matrix
  = match now with
    | None => Ok (matrix_set matrix i j (value e))
    | Some _ =>
        match function with
        | Some f => Ok (matrix_set matrix i j (f now (value e)))
        | None => Raised (TypeError "'NoneType' object is not callable")
        end
    end.
Proof.
  intros Hi Hj Hnow. unfold pivot_entry, label_index, matrix_get.
  rewrite Hi, Hj. simpl. rewrite Hnow. simpl.
  destruct now as [x|]; simpl; [|done]. by destruct function.
Qed.

(** A pass keeps the shape and touches only the cell of its entry. *)
Lemma pivot_entry_frame (e : entry) (matrix matrix' : list (list cell)) (n0 n1 : nat) :
  has_shape n0 n1 matrix →
  step e matrix = Ok matrix' →
  has_shape n0 n1 matrix'
  ∧ ∀ i j, ¬ (map_int axis_0_labels !! axis_0_label e = Some i
              ∧ map_int axis_1_labels !! axis_1_label e = Some j) →
           matrix' !! i ≫= (.!! j) = matrix !! i ≫= (.!! j).
Proof.
  intros Hshape. unfold pivot_entry, label_index, matrix_get.
  destruct (map_int axis_0_labels !! axis_0_label e) as [i0|]; simpl; [|done].
  destruct (map_int axis_1_labels !! axis_1_label e) as [j0|]; simpl; [|done].
  destruct (matrix !! i0 ≫= (.!! j0)) as [now|]; simpl; [|done].
  assert (Hother : ∀ v i j, ¬ (Some i0 = Some i ∧ Some j0 = Some j) →
            matrix_set matrix i0 j0 v !! i ≫= (.!! j) = matrix !! i ≫= (.!! j)).
  { intros v i j Hne. apply matrix_set_get_other. intros [= -> ->]. by apply Hne. }
  destruct (isna now).
  - intros [= <-]. split; [by apply has_shape_set|]. intros i j. apply Hother.
  - destruct function as [f|]; simpl; [|done].
    intros [= <-]. split; [by apply has_shape_set|]. intros i j. apply Hother.
Qed.

Lemma pivot_loop_frame (entries : list entry) (matrix matrix' : list (list cell))
    (n0 n1 : nat) :
  has_shape n0 n1 matrix →
  for_each entries step matrix = Ok matrix' →
  has_shape n0 n1 matrix'
  ∧ ∀ i j, (∀ e, e ∈ entries →
              ¬ (map_int axis_0_labels !! axis_0_label e = Some i
                 ∧ map_int axis_1_labels !! axis_1_label e = Some j)) →
           matrix' !! i ≫= (.!! j) = matrix !! i ≫= (.!! j).
Proof.
  revert matrix. induction entries as [|e entries IH]; intros matrix Hshape; simpl.
  - by intros [= <-].
  - destruct (step e matrix) as [m1|] eqn:Hstep; simpl; [|done].
    intros Hrun. destruct (pivot_entry_frame e matrix m1 n0 n1 Hshape Hstep) as [Hs1 Hf1].
    destruct (IH m1 Hs1 Hrun) as [Hs' Hf']. split; [done|].
    intros i j Hfree. rewrite Hf', Hf1; [done| |].
    + apply Hfree. by left.
    + intros e' He'. apply Hfree. by right.
Qed.

End Pivot.

Section PivotDuplicates.

Import Dataframe Properties Examples.

Lemma full_lookup {A} (n0 n1 i j : nat) (x : A) :
  (i < n0)%nat → (j < n1)%nat → full n0 n1 x !! i ≫= (.!! j) = Some x.
Proof.
  intros Hi Hj. unfold full. rewrite lookup_replicate_2 by done. simpl.
  by apply lookup_replicate_2.
Qed.

(** C9, as amended.  Let the loop of [pivot] have consumed the entries
    [pre] of a table and reach the entry [e].  If the cell of [e]'s key pair
    is missing at that point (it is when the pair was not seen before, and
    also when every value stored for it so far is NaN) the cell is filled
    with the value directly; if the cell holds a number the cell becomes
    [function(existing, new)], and with no function the whole call raises a
    TypeError; only that cell changes.  With addition as the function, the
    entries (A, X, 1), (A, X, 2), (B, Y, 5) give the 2 x 2 table with
    (A, X) = 3, (B, Y) = 5 and the other two cells missing. *)
Theorem pivot_fills_then_reduces (function : option (cell -> cell -> cell))
    (pre : list entry) (e : entry) (post : list entry) (m : list (list cell)) :
  pivot_after function (pre ++ e :: post) pre = Ok m →
  ∃ i j now,
    map_int (unique (map axis_0_label (pre ++ e :: post))) !! axis_0_label e = Some i
    ∧ map_int (unique (map axis_1_label (pre ++ e :: post))) !! axis_1_label e = Some j
    ∧ m !! i ≫= (.!! j) = Some now
    ∧ ((∀ e', e' ∈ pre → ¬ same_key e e') → now = None)
    ∧ pivot_after function (pre ++ e :: post) (pre ++ [e])
      = match now with
        | None => Ok (matrix_set m i j (value e))
        | Some _ =>
            match function with
            | Some f => Ok (matrix_set m i j (f now (value e)))
            | None => Raised (TypeError "'NoneType' object is not callable")
            end
        end
    ∧ (∀ v, matrix_set m i j v !! i ≫= (.!! j) = Some v)
    ∧ (∀ v i' j', (i', j') ≠ (i, j) →
         matrix_set m i j v !! i' ≫= (.!! j') = m !! i' ≫= (.!! j'))
    ∧ (is_Some now → function = None →
       pivot (pre ++ e :: post) function
       = Raised (TypeError "'NoneType' object is not callable"))
    ∧ pivot sum_table (Some sum_reducer)
      = Ok {| index := ["A"; "B"]; columns := ["X"; "Y"];
              to_numpy := [[Some 3; None]; [None; Some 5]] |}.
Proof.
  unfold pivot_after.
  set (table := pre ++ e :: post).
  set (l0 := unique (map axis_0_label table)).
  set (l1 := unique (map axis_1_label table)).
  intros Hpre.
  assert (He : e ∈ table) by (apply elem_of_app; right; left).
  destruct (map_int_lookup_is_Some l0 (axis_0_label e)) as [i Hi].
  { apply elem_of_unique, list_elem_of_fmap. eauto. }
  destruct (map_int_lookup_is_Some l1 (axis_1_label e)) as [j Hj].
  { apply elem_of_unique, list_elem_of_fmap. eauto. }
  pose proof (map_int_lookup_Some _ _ _ Hi) as Hi'.
  pose proof (map_int_lookup_Some _ _ _ Hj) as Hj'.
  assert (Hilt : (i < length l0)%nat) by by eapply lookup_lt_Some.
  assert (Hjlt : (j < length l1)%nat) by by eapply lookup_lt_Some.
  destruct (pivot_loop_frame function l0 l1 pre _ m (length l0) (length l1)
              (has_shape_full _ _) Hpre) as [Hshape Hframe].
  destruct (has_shape_lookup _ _ m i j Hshape Hilt Hjlt) as [now Hnow].
  pose proof (pivot_entry_run function l0 l1 e m i j now Hi Hj Hnow) as Hstep.
  exists i, j, now. repeat split; try done.
  - intros Hfresh. rewrite Hframe in Hnow.
    + rewrite full_lookup in Hnow by done. congruence.
    + intros e' He' [H0 H1]. apply (Hfresh e' He'). split.
      * apply map_int_lookup_Some in H0. congruence.
      * apply map_int_lookup_Some in H1. congruence.
  - rewrite for_each_app, Hpre. simpl. rewrite Hstep.
    destruct now; [destruct function|]; done.
  - intros v. by eapply matrix_set_get.
  - intros v i' j' Hne. by apply matrix_set_get_other.
  - intros [x ->] ->. subst l0 l1 table. unfold pivot.
    rewrite for_each_app, Hpre. simpl. by rewrite Hstep.
Qed.

End PivotDuplicates.

Section PivotExamples.

Import Dataframe Properties Examples.

Lemma pivot_fills_then_reduces_witness :
  ∃ i j now,
    map_int (unique (map axis_0_label sum_table)) !! "A" = Some i
    ∧ map_int (unique (map axis_1_label sum_table)) !! "X" = Some j
    ∧ [[Some 1; None]; [None; None]] !! i ≫= (.!! j) = Some now
    ∧ ((∀ e', e' ∈ [mk_entry "A" "X" (Some 1)] →
          ¬ same_key (mk_entry "A" "X" (Some 2)) e') → now = None)
    ∧ pivot_after (Some sum_reducer) sum_table
        ([mk_entry "A" "X" (Some 1)] ++ [mk_entry "A" "X" (Some 2)])
      = match now with
        | None => Ok (matrix_set [[Some 1; None]; [None; None]] i j (Some 2))
        | Some _ => Ok (matrix_set [[Some 1; None]; [None; None]] i j
                          (sum_reducer now (Some 2)))
        end
    ∧ (∀ v, matrix_set [[Some 1; None]; [None; None]] i j v !! i ≫= (.!! j) = Some v)
    ∧ (∀ v i' j', (i', j') ≠ (i, j) →
         matrix_set [[Some 1; None]; [None; None]] i j v !! i' ≫= (.!! j')
         = [[Some 1; None]; [None; None]] !! i' ≫= (.!! j'))
    ∧ (is_Some now → Some sum_reducer = None →
       pivot sum_table (Some sum_reducer)
       = Raised (TypeError "'NoneType' object is not callable"))
    ∧ pivot sum_table (Some sum_reducer)
      = Ok {| index := ["A"; "B"]; columns := ["X"; "Y"];
              to_numpy := [[Some 3; None]; [None; Some 5]] |}.
Proof.
  apply (pivot_fills_then_reduces (Some sum_reducer) [mk_entry "A" "X" (Some 1)]
           (mk_entry "A" "X" (Some 2)) [mk_entry "B" "Y" (Some 5)]
           [[Some 1; None]; [None; None]]).
  reflexivity.
Defined.

(** C9, as stated, fails when the first value of a pair is missing: the
    duplicate (A, X, 2) after (A, X, NaN) is stored directly, and with no
    function the call returns a table instead of raising. *)
Lemma pivot_duplicate_after_nan_counterexample :
  ¬ (∀ (table : list entry) (e e' : entry) (pre mid post : list entry),
       table = pre ++ e :: mid ++ e' :: post →
       same_key e e' →
       ∃ msg, pivot table None = Raised (TypeError msg)).
Proof.
  intros H.
  destruct (H nan_table (mk_entry "A" "X" None) (mk_entry "A" "X" (Some 2)) [] [] [])
    as [msg Hmsg]; [reflexivity|by split|].
  vm_compute in Hmsg. discriminate Hmsg.
Qed.

End PivotExamples.

(** ** Boolean-mask selection *)

Section Select.

Import Dataframe.

Lemma select_nil_l {A} (xs : list A) : select [] xs = [].
Proof. reflexivity. Qed.

Lemma select_nil_r {A} (mask : list bool) : select mask ([] : list A) = [].
Proof. by destruct mask. Qed.

Lemma select_cons {A} (b : bool) (mask : list bool) (x : A) (xs : list A) :
  select (b :: mask) (x :: xs) = if b then x :: select mask xs else select mask xs.
Proof.
  unfold select. simpl. rewrite filter_cons. simpl.
  destruct b; by repeat case_decide.
Qed.

Lemma length_select_le {A} (mask : list bool) (xs : list A) :
  (length (select mask xs) ≤ length xs)%nat.
Proof.
  revert xs. induction mask as [|b mask IH]; intros [|x xs];
    rewrite ?select_nil_l, ?select_nil_r; simpl; try lia.
  rewrite select_cons. specialize (IH xs). destruct b; simpl; lia.
Qed.

(** How many elements are selected depends on the mask and the length only. *)
Lemma length_select {A B} (mask : list bool) (xs : list A) (ys : list B) :
  length xs = length ys → length (select mask xs) = length (select mask ys).
Proof.
  revert xs ys. induction mask as [|b mask IH]; intros [|x xs] [|y ys] Hlen;
    simpl in Hlen; try done; rewrite ?select_nil_r; try done.
  rewrite !select_cons. injection Hlen as Hlen.
  destruct b; simpl; by rewrite (IH xs ys).
Qed.

Lemma select_all_true {A} (mask : list bool) (xs : list A) :
  Forall (fun b => b = true) mask → (length xs ≤ length mask)%nat →
  select mask xs = xs.
Proof.
  revert xs. induction mask as [|b mask IH]; intros [|x xs] Htrue Hlen;
    simpl in Hlen; rewrite ?select_nil_r; try done; try lia.
  apply Forall_cons in Htrue as [-> Htrue]. rewrite select_cons.
  f_equal. apply IH; [done|lia].
Qed.

(** A selection that keeps the length keeps the list, and any list that is
    no longer. *)
Lemma select_same_length {A} (mask : list bool) (xs : list A) :
  length (select mask xs) = length xs →
  Forall (fun b => b = true) (take (length xs) mask) ∧ (length xs ≤ length mask)%nat.
Proof.
  revert xs. induction mask as [|b mask IH]; intros [|x xs] Hlen.
  - split; [constructor|simpl; lia].
  - done.
  - split; [constructor|simpl; lia].
  - rewrite select_cons in Hlen. destruct b.
    + simpl in Hlen. injection Hlen as Hlen. destruct (IH xs Hlen) as [Htrue Hle].
      split; [by constructor|simpl; lia].
    + pose proof (length_select_le mask xs). simpl in Hlen. lia.
Qed.

Lemma select_take {A} (mask : list bool) (xs : list A) :
  select (take (length xs) mask) xs = select mask xs.
Proof.
  revert xs. induction mask as [|b mask IH]; intros [|x xs];
    cbn [length take]; rewrite ?select_nil_l, ?select_nil_r; try done.
  rewrite !select_cons. by rewrite IH.
Qed.

Lemma select_identity {A B} (mask : list bool) (xs : list A) (ys : list B) :
  length (select mask xs) = length xs → length ys = length xs →
  select mask ys = ys.
Proof.
  intros Hsame Hlen. destruct (select_same_length mask xs Hsame) as [Htrue Hle].
  rewrite <- Hlen in Htrue.
  rewrite <- (select_take mask ys). apply select_all_true; [done|].
  rewrite length_take. lia.
Qed.

Lemma select_map {A B} (f : A -> B) (mask : list bool) (xs : list A) :
  select mask (map f xs) = map f (select mask xs).
Proof.
  revert xs. induction mask as [|b mask IH]; intros [|x xs];
    cbn [map]; rewrite ?select_nil_l, ?select_nil_r; try done.
  rewrite !select_cons. destruct b; cbn [map]; by rewrite IH.
Qed.

(** Selecting with the mask computed from the list itself keeps exactly the
    elements that satisfy the test. *)
Lemma select_map_self {A} (f : A -> bool) (xs : list A) :
  Forall (fun x => f x = true) (select (map f xs) xs).
Proof.
  induction xs as [|x xs IH]; cbn [map]; [constructor|].
  rewrite select_cons. destruct (f x) eqn:E; [by constructor|done].
Qed.

Lemma Forall_select {A} (P : A -> Prop) (mask : list bool) (xs : list A) :
  Forall P xs → Forall P (select mask xs).
Proof.
  revert xs. induction mask as [|b mask IH]; intros [|x xs] H;
    rewrite ?select_nil_l, ?select_nil_r; try constructor.
  apply Forall_cons in H as [Hx H]. rewrite select_cons.
  destruct b; [constructor|]; auto.
Qed.

(** A selection is the list read at the selected positions. *)
Lemma select_positions {A} (d : A) (mask : list bool) (xs : list A) :
  select mask xs = map (fun k => nth k xs d) (select mask (seq 0 (length xs))).
Proof.
  revert xs. induction mask as [|b mask IH]; intros [|x xs];
    cbn [length seq]; rewrite ?select_nil_l, ?select_nil_r; try done.
  rewrite !select_cons. rewrite <- fmap_S_seq.
  change (S <$> seq 0 (length xs)) with (map S (seq 0 (length xs))).
  rewrite select_map.
  destruct b; cbn [map nth]; rewrite map_map; cbn [nth]; by rewrite <- IH.
Qed.

End Select.

(** ** Dropping the labels of one axis *)

Section DropAxisLabel.

Import Dataframe Properties.

Context {float : Numpy.Float64}.
Variables min_good_value min_good_unique_value : option Q.

Local Abbreviation drop dataframe axis :=
  (drop_axis_label dataframe axis min_good_value min_good_unique_value).
Local Abbreviation keeps := (Properties.keeps min_good_value min_good_unique_value).

Lemma length_vectors (dataframe : DataFrame) (axis : Axis) :
  well_formed dataframe →
  length (vectors dataframe (other_axis axis)) = shape_at (shape dataframe) axis.
Proof.
  intros [Hrows _]. destruct axis; simpl.
  - done.
  - by rewrite length_map, length_seq.
Qed.

Lemma and_mask_replicate (l : list bool) :
  and_mask (replicate (length l) true) l = l.
Proof. unfold and_mask. induction l as [|b l IH]; simpl; [done|]. by rewrite IH. Qed.

Lemma and_mask_replicate_map {A} (f : A -> bool) (l : list A) :
  and_mask (replicate (length l) true) (map f l) = map f l.
Proof. rewrite <- (length_map f l). apply and_mask_replicate. Qed.

Lemma and_mask_map {A} (f g : A -> bool) (l : list A) :
  and_mask (map f l) (map g l) = map (fun v => f v && g v) l.
Proof. unfold and_mask. induction l as [|x l IH]; simpl; [done|]. by rewrite IH. Qed.

(** With a threshold given and a vector to look at, one pass keeps the
    labels whose vector passes every given threshold. *)
Lemma drop_axis_label_run (dataframe : DataFrame) (axis : Axis) :
  well_formed dataframe →
  is_not_None min_good_value || is_not_None min_good_unique_value = true →
  vectors dataframe (other_axis axis) ≠ [] →
  drop dataframe axis
  = Ok (loc dataframe axis
          (map (keeps (shape_at (shape dataframe) (other_axis axis)))
             (vectors dataframe (other_axis axis)))).
Proof.
  intros Hwf Hsome Hvs. unfold drop_axis_label. rewrite Hsome. simpl negb. cbv iota.
  rewrite <- (length_vectors dataframe axis Hwf).
  unfold apply_along_axis, Properties.keeps.
  destruct (vectors dataframe (other_axis axis)) as [|v vs] eqn:E; [done|].
  rewrite <- E. clear E Hvs.
  destruct min_good_value as [t|], min_good_unique_value as [u|]; simpl in *.
  - by rewrite and_mask_replicate_map, and_mask_map.
  - rewrite and_mask_replicate_map. f_equal. f_equal.
    apply map_ext. intros a. by rewrite andb_true_r.
  - by rewrite and_mask_replicate_map.
  - done.
Qed.

Lemma drop_axis_label_Ok (dataframe dataframe' : DataFrame) (axis : Axis) :
  well_formed dataframe →
  drop dataframe axis = Ok dataframe' →
  vectors dataframe (other_axis axis) ≠ []
  ∧ dataframe'
    = loc dataframe axis
        (map (keeps (shape_at (shape dataframe) (other_axis axis)))
           (vectors dataframe (other_axis axis))).
Proof.
  intros Hwf Hrun.
  destruct (is_not_None min_good_value || is_not_None min_good_unique_value) eqn:Hsome.
  - destruct (vectors dataframe (other_axis axis)) as [|v vs] eqn:E.
    + exfalso. revert Hrun. unfold drop_axis_label, apply_along_axis.
      rewrite Hsome, E. simpl.
      destruct min_good_value, min_good_unique_value; simpl in *; done.
    + split; [done|]. rewrite <- E.
      rewrite drop_axis_label_run in Hrun; [congruence|done..|by rewrite E].
  - revert Hrun. unfold drop_axis_label. by rewrite Hsome.
Qed.

(** Without any assumption on the table, a pass that returns has selected
    labels with some mask. *)
Lemma drop_axis_label_loc (dataframe dataframe' : DataFrame) (axis : Axis) :
  drop dataframe axis = Ok dataframe' →
  ∃ is_kept, dataframe' = loc dataframe axis is_kept.
Proof.
  unfold drop_axis_label.
  destruct (negb _); [done|].
  destruct min_good_value as [t|]; simpl.
  - destruct (apply_along_axis _ _ _) as [k1|]; simpl; [|done].
    destruct min_good_unique_value as [u|]; simpl.
    + destruct (apply_along_axis _ _ _) as [k2|]; simpl; [|done].
      intros [= <-]. eauto.
    + intros [= <-]. eauto.
  - destruct min_good_unique_value as [u|]; simpl.
    + destruct (apply_along_axis _ _ _) as [k2|]; simpl; [|done].
      intros [= <-]. eauto.
    + intros [= <-]. eauto.
Qed.

Lemma shape_loc_other (dataframe : DataFrame) (axis : Axis) (is_kept : list bool) :
  shape_at (shape (loc dataframe axis is_kept)) (other_axis axis)
  = shape_at (shape dataframe) (other_axis axis).
Proof. by destruct axis. Qed.

Lemma shape_loc_le (dataframe : DataFrame) (axis : Axis) (is_kept : list bool) :
  (shape_at (shape (loc dataframe axis is_kept)) axis
   ≤ shape_at (shape dataframe) axis)%nat.
Proof. destruct axis; simpl; apply length_select_le. Qed.

Lemma well_formed_loc (dataframe : DataFrame) (axis : Axis) (is_kept : list bool) :
  well_formed dataframe → well_formed (loc dataframe axis is_kept).
Proof.
  intros [Hrows Hcols]. destruct axis; split; simpl.
  - by apply length_select.
  - by apply Forall_select.
  - by rewrite length_map.
  - apply Forall_map. eapply Forall_impl; [exact Hcols|].
    intros row Hrow. simpl. by apply length_select.
Qed.

(** A pass that leaves the shape alone leaves the table alone. *)
Lemma loc_same_shape (dataframe : DataFrame) (axis : Axis) (is_kept : list bool) :
  well_formed dataframe →
  shape (loc dataframe axis is_kept) = shape dataframe →
  loc dataframe axis is_kept = dataframe.
Proof.
  intros [Hrows Hcols] Hshape. destruct dataframe as [idx cols rows].
  destruct axis; simpl in *; injection Hshape as Hlen.
  - f_equal; [by eapply select_identity|]. eapply select_identity; [done|]. done.
  - f_equal; [by eapply select_identity|].
    clear Hrows. induction Hcols as [|row rows Hrow _ IH]; simpl; [done|].
    f_equal; [by eapply select_identity|done].
Qed.

Lemma map_nth_seq {A} (d : A) (l : list A) :
  map (fun j => nth j l d) (seq 0 (length l)) = l.
Proof.
  induction l as [|x l IH]; simpl; [done|].
  f_equal. rewrite <- seq_shift, map_map. exact IH.
Qed.

(** The column of a table whose columns were selected is the selected
    column of the table. *)
Lemma vectors_loc (dataframe : DataFrame) (axis : Axis) (is_kept : list bool) :
  well_formed dataframe →
  vectors (loc dataframe axis is_kept) (other_axis axis)
  = select is_kept (vectors dataframe (other_axis axis)).
Proof.
  intros [Hrows Hcols]. destruct dataframe as [idx cols rows]. destruct axis; simpl in *.
  - done.
  - set (n := length cols) in *.
    set (P := select is_kept (seq 0 n)).
    assert (HlenP : length (select is_kept cols) = length P).
    { apply length_select. by rewrite length_seq. }
    rewrite HlenP, select_map. fold P.
    rewrite <- (map_nth_seq n P) at 2. rewrite !map_map.
    apply map_ext. intros j. rewrite map_map. apply map_ext_Forall.
    eapply Forall_impl; [exact Hcols|]. intros row Hrow. simpl.
    simpl in Hrow. rewrite (select_positions None is_kept row), Hrow. fold P.
    transitivity (nth j (map (fun k => nth k row None) P) (nth n row None)).
    + f_equal. symmetry. apply nth_overflow. lia.
    + apply (map_nth (fun k => nth k row None)).
Qed.

Lemma loc_all_true (dataframe : DataFrame) (axis : Axis) (is_kept : list bool) :
  well_formed dataframe →
  Forall (fun b => b = true) is_kept →
  length is_kept = shape_at (shape dataframe) axis →
  loc dataframe axis is_kept = dataframe.
Proof.
  intros [Hrows Hcols] Htrue Hlen. destruct dataframe as [idx cols rows].
  destruct axis; simpl in *.
  - f_equal; apply select_all_true; (done || lia).
  - f_equal; [apply select_all_true; (done || lia)|].
    clear Hrows. induction Hcols as [|row rows Hrow _ IH]; simpl; [done|].
    f_equal; [|done]. apply select_all_true; (done || lia).
Qed.

(** One axis pruned twice is pruned once, as long as a label is left. *)
Lemma drop_axis_label_twice (dataframe pruned : DataFrame) (axis : Axis) :
  well_formed dataframe →
  drop dataframe axis = Ok pruned →
  (0 < shape_at (shape pruned) axis)%nat →
  drop pruned axis = Ok pruned.
Proof.
  intros Hwf Hrun Hleft.
  destruct (drop_axis_label_Ok dataframe pruned axis Hwf Hrun) as [_ ->].
  set (n := shape_at (shape dataframe) (other_axis axis)) in *.
  set (vs := vectors dataframe (other_axis axis)) in *.
  set (pruned := loc dataframe axis (map (keeps n) vs)) in *.
  assert (Hwf' : well_formed pruned) by by apply well_formed_loc.
  assert (Hsome : is_not_None min_good_value || is_not_None min_good_unique_value = true).
  { destruct (_ || _) eqn:E; [done|]. revert Hrun. unfold drop_axis_label. by rewrite E. }
  assert (Hvs : vectors pruned (other_axis axis) = select (map (keeps n) vs) vs)
    by by apply vectors_loc.
  rewrite drop_axis_label_run; [|done..|].
  - f_equal. apply loc_all_true; [done| |].
    + unfold pruned at 1. rewrite shape_loc_other. fold n. rewrite Hvs.
      apply Forall_map, select_map_self.
    + rewrite length_map. by apply length_vectors.
  - intros E. pose proof (length_vectors pruned axis Hwf') as Hlen.
    rewrite E in Hlen. simpl in Hlen. lia.
Qed.

End DropAxisLabel.

(** ** The pruning loop *)

Section DropAxesLabel.

Import Dataframe Properties.

Context {float : Numpy.Float64}.
Variables min_good_value min_good_unique_value : option Q.

Local Abbreviation drop dataframe axis :=
  (drop_axis_label dataframe axis min_good_value min_good_unique_value).
Local Abbreviation loop fuel dataframe axis :=
  (drop_axes_label_loop fuel dataframe axis min_good_value min_good_unique_value).

Lemma shape_eqb_eq (a b : nat * nat) : shape_eqb a b = true ↔ a = b.
Proof.
  destruct a as [a0 a1], b as [b0 b1]. unfold shape_eqb. simpl.
  rewrite andb_true_iff, !Nat.eqb_eq. split; [intros [-> ->]|intros [= -> ->]]; done.
Qed.

Lemma other_axis_involutive (axis : Axis) : other_axis (other_axis axis) = axis.
Proof. by destruct axis. Qed.

(** A pass never adds labels, and it changes the shape only by dropping
    some. *)
Lemma drop_axis_label_size (dataframe dataframe' : DataFrame) (axis : Axis) :
  drop dataframe axis = Ok dataframe' →
  shape dataframe' = shape dataframe
  ∨ (fst (shape dataframe') + snd (shape dataframe')
     < fst (shape dataframe) + snd (shape dataframe))%nat.
Proof.
  intros [is_kept ->]%drop_axis_label_loc.
  pose proof (shape_loc_le dataframe axis is_kept) as Hle.
  pose proof (shape_loc_other dataframe axis is_kept) as Heq.
  destruct dataframe as [idx cols rows]. destruct axis; unfold shape in *; simpl in *.
  - destruct (decide (length (select is_kept idx) = length idx)) as [->|]; [by left|].
    right. lia.
  - destruct (decide (length (select is_kept cols) = length cols)) as [->|]; [by left|].
    right. lia.
Qed.

(** The loop returns or raises within the fuel it is given. *)
Lemma drop_axes_label_loop_total (fuel : nat) (dataframe : DataFrame) (axis : Axis)
    (shape_before : nat * nat) (can_return : bool) :
  (fst (shape dataframe) + snd (shape dataframe)
   + (if can_return && shape_eqb shape_before (shape dataframe) then 0 else 1)
   < fuel)%nat →
  is_Some (loop fuel dataframe axis shape_before can_return).
Proof.
  revert dataframe axis shape_before can_return.
  induction fuel as [|fuel IH]; intros dataframe axis shape_before can_return Hfuel;
    [lia|].
  simpl. destruct (drop dataframe axis) as [dataframe'|e] eqn:Hpass; [|eauto].
  destruct (can_return && shape_eqb shape_before (shape dataframe')) eqn:Hstop; [eauto|].
  apply IH.
  assert (Hrefl : shape_eqb (shape dataframe') (shape dataframe') = true)
    by by apply shape_eqb_eq.
  rewrite Hrefl. cbn [andb].
  destruct (drop_axis_label_size _ _ _ Hpass) as [Hsame|Hless].
  - rewrite Hsame in Hstop |- *. rewrite Hstop in Hfuel. lia.
  - destruct (can_return && shape_eqb shape_before (shape dataframe)) in Hfuel; lia.
Qed.

(** What the loop returns is a fixed point of its last pass and the
    result of a pass on the other axis. *)
Lemma drop_axes_label_loop_fixed (fuel : nat) (dataframe : DataFrame) (axis : Axis)
    (shape_before : nat * nat) (can_return : bool) (pruned : DataFrame) :
  well_formed dataframe →
  shape_before = shape dataframe →
  (can_return = true →
   ∃ previous, well_formed previous ∧ drop previous (other_axis axis) = Ok dataframe) →
  loop fuel dataframe axis shape_before can_return = Some (Ok pruned) →
  well_formed pruned
  ∧ ∃ last previous,
      well_formed previous
      ∧ drop previous (other_axis last) = Ok pruned
      ∧ drop pruned last = Ok pruned.
Proof.
  revert dataframe axis shape_before can_return.
  induction fuel as [|fuel IH]; intros dataframe axis shape_before can_return
    Hwf Hshape Hprev; simpl; [done|].
  destruct (drop dataframe axis) as [dataframe'|e] eqn:Hpass; [|done].
  destruct (drop_axis_label_Ok _ _ _ _ _ Hwf Hpass) as [_ Hloc].
  assert (Hwf' : well_formed dataframe') by (rewrite Hloc; by apply well_formed_loc).
  destruct (can_return && shape_eqb shape_before (shape dataframe')) eqn:Hstop.
  - intros [= <-]. apply andb_true_iff in Hstop as [-> Hsame%shape_eqb_eq].
    assert (dataframe' = dataframe) as ->.
    { rewrite Hloc. apply loc_same_shape; [done|]. rewrite <- Hloc. congruence. }
    split; [done|]. destruct (Hprev eq_refl) as (previous & Hwfp & Hp).
    by exists axis, previous.
  - apply IH; [done..|]. intros _. exists dataframe.
    by rewrite other_axis_involutive.
Qed.

(** C8, as amended: the loop always returns or raises, alternating the
    axis after every pass; a table it returns is unchanged by a pass on
    either axis that has a label left, and if it has at least one row and
    one column, running [drop_axes_label] on it again with the same
    thresholds (whatever the starting axis) returns the same table: same
    rows, columns and values. *)
Theorem drop_axes_label_idempotent (dataframe pruned : DataFrame)
    (axis axis' : option Axis) :
  well_formed dataframe →
  drop_axes_label dataframe axis min_good_value min_good_unique_value = Some (Ok pruned) →
  (∀ axis'', (0 < shape_at (shape pruned) axis'')%nat → drop pruned axis'' = Ok pruned)
  ∧ ((0 < fst (shape pruned))%nat → (0 < snd (shape pruned))%nat →
     drop_axes_label pruned axis' min_good_value min_good_unique_value
     = Some (Ok pruned))
  ∧ (∀ other axis'',
       is_Some (drop_axes_label other axis'' min_good_value min_good_unique_value)).
Proof.
  intros Hwf Hrun. unfold drop_axes_label in Hrun.
  apply drop_axes_label_loop_fixed in Hrun as (Hwf' & last & previous & Hwfp & Hprev & Hlast);
    [|done..].
  assert (Hfixed : ∀ a, (0 < shape_at (shape pruned) a)%nat → drop pruned a = Ok pruned).
  { intros a Ha.
    assert (a = last ∨ a = other_axis last) as [->| ->]
      by (destruct a, last; auto); [done|].
    by eapply drop_axis_label_twice. }
  split; [done|]. split.
  - intros H0 H1. unfold drop_axes_label, passes.
    assert (Hall : ∀ a, drop pruned a = Ok pruned).
    { intros a. apply Hfixed. destruct a; [exact H0|exact H1]. }
    assert (Hrefl : shape_eqb (shape pruned) (shape pruned) = true)
      by by apply shape_eqb_eq.
    cbn [drop_axes_label_loop]. rewrite !Hall. cbn [andb]. by rewrite Hrefl.
  - intros other a. unfold drop_axes_label, passes.
    apply drop_axes_label_loop_total. simpl. lia.
Qed.

End DropAxesLabel.

Section DropAxesLabelExamples.

Import Dataframe Properties Examples.

Lemma sparse_table_well_formed : well_formed sparse_table.
Proof. split; [reflexivity|]. repeat constructor. Qed.

Lemma drop_axes_label_idempotent_witness :
  (∀ axis'', (0 < shape_at (shape sparse_pruned) axis'')%nat →
             drop_axis_label sparse_pruned axis'' (Some 1) None = Ok sparse_pruned)
  ∧ ((0 < fst (shape sparse_pruned))%nat → (0 < snd (shape sparse_pruned))%nat →
     drop_axes_label sparse_pruned None (Some 1) None = Some (Ok sparse_pruned))
  ∧ (∀ other axis'', is_Some (drop_axes_label other axis'' (Some 1) None)).
Proof.
  apply (drop_axes_label_idempotent (Some 1) None sparse_table sparse_pruned None None).
  - exact sparse_table_well_formed.
  - reflexivity.
Defined.

(** C8, as stated, fails on a table pruned down to an empty axis: the
    one-row table of two missing values loses both columns, is returned
    with one row and no column, and a second run raises a ValueError when
    its second pass finds no column to look at. *)
Lemma drop_axes_label_empty_axis_counterexample :
  ¬ (∀ (dataframe pruned : DataFrame) (axis : option Axis)
       (min_good_value min_good_unique_value : option Q),
       well_formed dataframe →
       drop_axes_label dataframe axis min_good_value min_good_unique_value
       = Some (Ok pruned) →
       drop_axes_label pruned axis min_good_value min_good_unique_value
       = Some (Ok pruned)).
Proof.
  intros H.
  specialize (H nan_row_table
                {| index := ["r"]; columns := []; to_numpy := [[]] |}
                None (Some (1 # 2)) None).
  assert (Hwf : well_formed nan_row_table) by (split; [reflexivity|repeat constructor]).
  specialize (H Hwf eq_refl). vm_compute in H. discriminate H.
Qed.

End DropAxesLabelExamples.

(* ====================================================================== *)
(** * Further properties of the code *)
(* ====================================================================== *)

(** ** Sorted sets are strictly increasing *)

Section SortedSetOrder.

Import RendererProperties.

Context {A : Type} (cmp : A -> A -> comparison).
Hypothesis cmp_eq : ∀ x y, cmp x y = Eq → x = y.
Hypothesis cmp_antisym : ∀ x y, cmp x y = CompOpp (cmp y x).
Hypothesis cmp_trans : ∀ x y z, cmp x y = Lt → cmp y z = Lt → cmp x z = Lt.

Lemma increasing_insert_sorted (x : A) (l : list A) :
  increasing cmp l → increasing cmp (Py.insert_sorted cmp x l).
Proof.
  induction l as [|y l IH]; simpl.
  - intros _. split; [constructor|done].
  - intros [Hy Hl]. destruct (cmp x y) eqn:E; simpl.
    + done.
    + split; [|done]. constructor; [done|].
      eapply Forall_impl; [exact Hy|]. intros z Hz. by eapply cmp_trans.
    + split; [|by apply IH].
      assert (Hyx : cmp y x = Lt) by (rewrite cmp_antisym, E; done).
      apply list.Forall_forall. intros z Hz.
      apply (elem_of_insert_sorted cmp cmp_eq) in Hz as [->|Hz]; [done|].
      by eapply list.Forall_forall in Hy.
Qed.

Lemma increasing_sorted_set (xs : list A) : increasing cmp (Py.sorted_set cmp xs).
Proof.
  unfold Py.sorted_set. induction xs as [|x xs IH]; simpl; [done|].
  by apply increasing_insert_sorted.
Qed.

Lemma increasing_NoDup (l : list A) : increasing cmp l → NoDup l.
Proof.
  induction l as [|y l IH]; simpl; [constructor|].
  intros [Hy Hl]. constructor; [|by apply IH].
  intros Hin. eapply list.Forall_forall in Hy; [|exact Hin].
  assert (cmp y y = Eq) as Heq.
  { pose proof (cmp_antisym y y) as H. destruct (cmp y y); simpl in H; congruence. }
  congruence.
Qed.

End SortedSetOrder.

Lemma unique_states_NoDup (states : list Z) : NoDup (Py.sorted_set Z.compare states).
Proof.
  apply (increasing_NoDup Z.compare).
  - intros x y. apply Z.compare_antisym.
  - apply increasing_sorted_set.
    + apply Z.compare_eq.
    + intros x y. apply Z.compare_antisym.
    + intros x y z. rewrite !Z.compare_lt_iff. lia.
Qed.

(** ** Samples coloured by state *)

Section StateBranch.

Import Visualize RendererProperties.

Context {geometry : Provider} {float : Numpy.Float64}.
Variables (bwr Paired light_palette : Colormap).
Variable normalize_pandas_object : list cell -> list cell.

Lemma bind_singleton_map {A B} (f : A -> B) (l : list A) :
  l ≫= (fun x => [f x]) = map f l.
Proof. induction l as [|x l IH]; [done|]. simpl. by rewrite <- IH. Qed.

(** Every state of a sample has its colour in the table built from the
    samples. *)
Lemma getitem_sample_state (states : list Z) (s : Z) :
  s ∈ states →
  getitem (assign_states_color Paired (Py.sorted_set Z.compare states)) s
  = Ok (call_int (CMAP_CATEGORICAL Paired)
          (state_index Paired (length (Py.sorted_set Z.compare states)) s)).
Proof.
  intros Hs. unfold getitem.
  rewrite assign_states_color_lookup; [done|].
  apply elem_of_sorted_set; [apply Z.compare_eq|done].
Qed.

(** The table holds a colour for the states of the samples and for no
    other state. *)
Lemma states_color_lookup_None (states : list Z) (s : Z) :
  s ∉ states →
  assign_states_color Paired (Py.sorted_set Z.compare states) !! s = None.
Proof.
  intros Hs. unfold assign_states_color.
  rewrite (lookup_fold_insert
             (fun s => call_int (CMAP_CATEGORICAL Paired)
                         (state_index Paired
                            (length (Py.sorted_set Z.compare states)) s))).
  rewrite decide_False; [done|].
  intros Hin. apply Hs.
  exact (proj1 (elem_of_sorted_set Z.compare Z.compare_eq _ _) Hin).
Qed.

Lemma plot_states_layer (o : options) (samples : list sample) (cv : canvas) :
  plot_states o
    (assign_states_color Paired (Py.sorted_set Z.compare (map sample_state samples)))
    samples (Py.sorted_set Z.compare (map sample_state samples)) cv
  = Ok (cv ++ state_layer Paired o samples).
Proof.
  unfold plot_states, state_layer.
  rewrite (for_each_pure (fun s => [state_marker Paired o samples s])).
  - simpl. rewrite bind_singleton_map.
    rewrite (for_each_pure (legend_entry Paired o samples)); [by rewrite app_assoc|].
    intros [i s] c Hin. unfold plot_state_legend, legend_entry, legend_y.
    rewrite getitem_sample_state; [done|].
    apply elem_of_zip_r in Hin.
    exact (proj1 (elem_of_sorted_set Z.compare Z.compare_eq _ _) Hin).
  - intros s c Hs. unfold plot_state_sample, state_marker.
    rewrite getitem_sample_state; [done|]. by apply list_elem_of_fmap_2.
Qed.

(** X1: with no truthy annotation, once the map layers are drawn the
    renderer cannot fail: it returns the map followed by one marker per
    sample, in order, coloured with the colour of the sample's state, and by
    one swatch and one text per unique state. *)
Theorem states_branch_cannot_fail (o : options) (component_coordinates : list component)
    (samples : list sample) (grid_probabilities : ndarray Q) (grid_states : ndarray Z)
    (annotations : list pyval) (cv : canvas) :
  any annotations = false →
  plot_map Paired o component_coordinates samples grid_probabilities grid_states = Ok cv →
  plot_onco_gps bwr Paired light_palette normalize_pandas_object o component_coordinates
    samples grid_probabilities grid_states annotations
  = Ok (cv ++ state_layer Paired o samples).
Proof.
  intros Hany Hmap. unfold plot_onco_gps. rewrite Hmap. simpl. rewrite Hany.
  apply plot_states_layer.
Qed.

End StateBranch.

Section LegendCounts.

Import Visualize RendererProperties.

Lemma count_state_cons (t : Z) (states : list Z) (s : Z) :
  count_state (t :: states) s
  = ((if decide (t = s) then 1 else 0) + count_state states s)%nat.
Proof.
  unfold count_state. rewrite filter_cons. by destruct (decide (t = s)).
Qed.

Lemma sum_indicator (t : Z) (l : list Z) :
  NoDup l →
  sum_list (map (fun s => if decide (t = s) then 1%nat else 0%nat) l)
  = if decide (t ∈ l) then 1%nat else 0%nat.
Proof.
  induction 1 as [|x l Hx Hl IH]; cbn [map sum_list foldr].
  - by rewrite decide_False by apply not_elem_of_nil.
  - rewrite IH. destruct (decide (t = x)) as [->|Hne].
    + rewrite decide_False by done. by rewrite decide_True by left.
    + destruct (decide (t ∈ l)).
      * by rewrite decide_True by by right.
      * rewrite decide_False; [done|]. by intros [?|?]%elem_of_cons.
Qed.

Lemma sum_count_state_nil (l : list Z) : sum_list (map (count_state []) l) = 0%nat.
Proof. induction l as [|x l IH]; [done|]. cbn [map sum_list foldr]. by rewrite IH. Qed.

Lemma sum_count_state_cons (t : Z) (states l : list Z) :
  sum_list (map (count_state (t :: states)) l)
  = (sum_list (map (fun s => if decide (t = s) then 1%nat else 0%nat) l)
     + sum_list (map (count_state states) l))%nat.
Proof.
  induction l as [|x l IH]; [done|]. cbn [map sum_list foldr].
  rewrite count_state_cons, IH. unfold id. destruct (decide (t = x)); lia.
Qed.

Lemma sum_count_state (states l : list Z) :
  NoDup l → (∀ s, s ∈ states → s ∈ l) →
  sum_list (map (count_state states) l) = length states.
Proof.
  intros Hl. induction states as [|t states IH]; intros Hsub.
  - apply sum_count_state_nil.
  - rewrite sum_count_state_cons, sum_indicator by done.
    rewrite decide_True by (apply Hsub; by left).
    rewrite IH by (intros s Hs; apply Hsub; by right). done.
Qed.

(** X2: the unique states of the legend are strictly increasing, hold no
    state twice, and the sample counts shown beside them add up to the
    number of samples. *)
Theorem legend_counts_add_up (samples : list sample) :
  increasing Z.compare (Py.sorted_set Z.compare (map sample_state samples))
  ∧ NoDup (Py.sorted_set Z.compare (map sample_state samples))
  ∧ sum_list (map (count_state (map sample_state samples))
                (Py.sorted_set Z.compare (map sample_state samples)))
    = length samples.
Proof.
  split; [|split].
  - apply increasing_sorted_set.
    + apply Z.compare_eq.
    + intros x y. apply Z.compare_antisym.
    + intros x y z. rewrite !Z.compare_lt_iff. lia.
  - apply unique_states_NoDup.
  - rewrite sum_count_state; [by rewrite length_map|apply unique_states_NoDup|].
    intros s Hs. exact (proj2 (elem_of_sorted_set Z.compare Z.compare_eq _ _) Hs).
Qed.

(** X3: the legend lines of the state branch lie strictly inside the
    legend axes and go down from one state to the next. *)
Theorem legend_lines_inside (samples : list sample) (i : nat) :
  (i < length (Py.sorted_set Z.compare (map sample_state samples)))%nat →
  0 < legend_y samples i < 1
  ∧ legend_y samples (S i) < legend_y samples i.
Proof.
  intros Hi. unfold legend_y.
  set (n := length (Py.sorted_set Z.compare (map sample_state samples))) in *.
  assert (Hn : 0 < inject_Z (Z.of_nat (n + 1))) by (apply inject_nat_pos; lia).
  assert (Hi1 : inject_Z (Z.of_nat (i + 1)) < inject_Z (Z.of_nat (n + 1)))
    by (rewrite <- Zlt_Qlt; lia).
  assert (H1 : 0 < inject_Z (Z.of_nat (i + 1))) by (apply inject_nat_pos; lia).
  assert (HS : inject_Z (Z.of_nat (S i + 1)) == inject_Z (Z.of_nat (i + 1)) + 1).
  { replace (Z.of_nat (S i + 1)) with (Z.of_nat (i + 1) + 1)%Z by lia.
    by rewrite inject_Z_plus. }
  set (d := inject_Z (Z.of_nat (n + 1))) in *.
  set (k := inject_Z (Z.of_nat (i + 1))) in *.
  assert (Hinv : 0 < / d) by by apply Qinv_lt_0_compat.
  assert (Hfrac : 1 / d * k < 1).
  { assert (1 / d * k == k / d) as -> by (field; lra).
    apply Qlt_shift_div_r; lra. }
  assert (Hpos : 0 < 1 / d * k).
  { unfold Qdiv. rewrite Qmult_1_l. apply Qmult_lt_0_compat; done. }
  rewrite HS. split; [split; lra|].
  assert (1 / d * (k + 1) == 1 / d * k + / d) as -> by (field; lra). lra.
Qed.

End LegendCounts.

Section StateBranchExamples.

Import Visualize RendererProperties Examples.

Lemma states_branch_cannot_fail_witness :
  ∃ cv,
    plot_map (geometry := convex_position) (ramp 12) default_options unit_square
      three_samples ramp_grid zero_states
    = Ok cv
    ∧ plot_onco_gps (geometry := convex_position) (ramp 256) (ramp 12) (ramp 2)
        (standardize 2 1) default_options unit_square three_samples ramp_grid
        zero_states [PNone; PNum 0]
      = Ok (cv ++ state_layer (ramp 12) default_options three_samples).
Proof.
  eexists. split; [reflexivity|].
  apply (states_branch_cannot_fail (geometry := convex_position) (ramp 256) (ramp 12)
           (ramp 2) (standardize 2 1) default_options unit_square three_samples
           ramp_grid zero_states [PNone; PNum 0]).
  - reflexivity.
  - reflexivity.
Defined.

Lemma legend_lines_inside_witness :
  0 < legend_y three_samples 0 < 1
  ∧ legend_y three_samples 1 < legend_y three_samples 0.
Proof. apply (legend_lines_inside three_samples 0). simpl. lia. Defined.

End StateBranchExamples.

(** ** A grid state that no sample has *)

Section LoopFailures.

Context {X S : Type}.

(** A loop that raises was left by one of its passes. *)
Lemma for_each_Raised_inv (xs : list X) (body : X -> S -> result S) (s : S) (e : exn) :
  for_each xs body s = Raised e → ∃ x c, x ∈ xs ∧ body x c = Raised e.
Proof.
  revert s. induction xs as [|x xs IH]; intros s; simpl; [done|].
  destruct (body x s) as [s'|e'] eqn:E; simpl.
  - intros (y & c & Hy & Hc)%IH. exists y, c. split; [by right|done].
  - intros [= ->]. exists x, s. split; [by left|done].
Qed.

(** A pass that always raises [e], in a loop whose passes raise nothing
    else, makes the loop raise [e]. *)
Lemma for_each_raises (xs : list X) (body : X -> S -> result S) (s : S) (e : exn) (x : X) :
  x ∈ xs →
  (∀ c, body x c = Raised e) →
  (∀ y c e', body y c = Raised e' → e' = e) →
  for_each xs body s = Raised e.
Proof.
  intros Hx Hraise Honly. revert s.
  induction xs as [|y xs IH]; intros s; [by apply elem_of_nil in Hx|]. simpl.
  destruct (body y s) as [s'|e'] eqn:E; simpl.
  - apply elem_of_cons in Hx as [->|Hx]; [by rewrite Hraise in E|by apply IH].
  - f_equal. by eapply Honly.
Qed.

(** A loop whose passes all return runs to its end. *)
Lemma for_each_total (xs : list X) (body : X -> S -> result S) (s : S) :
  (∀ x c, ∃ c', body x c = Ok c') → ∃ s', for_each xs body s = Ok s'.
Proof.
  intros Hbody. revert s. induction xs as [|x xs IH]; intros s; simpl; [eauto|].
  destruct (Hbody x s) as [c' ->]. simpl. apply IH.
Qed.

End LoopFailures.

Section BackgroundStates.

Import Visualize Properties RendererProperties.

Context {geometry : Provider} {float : Float64}.
Variables (bwr Paired light_palette : Colormap).
Variable normalize_pandas_object : list cell -> list cell.
Variables (o : options) (region : list point).
Variables (grid_probabilities : ndarray Q) (grid_states : ndarray Z).

Lemma background_cell_raises_KeyError (states_color : gmap Z color)
    (p_min p_range : Q) (i j : nat) (cv : canvas) (e : exn) :
  background_cell o region grid_probabilities grid_states states_color p_min p_range
    i j cv = Raised e →
  e = KeyError.
Proof.
  unfold background_cell, getitem.
  destruct (contains_point _ _); [|done].
  destruct (states_color !! _); simpl; [done|congruence].
Qed.

Lemma plot_background_unknown_state (states_color : gmap Z color) (cv : canvas)
    (i j : nat) :
  0 < background_markersize o →
  (i < shape0 grid_probabilities)%nat →
  (j < shape1 grid_probabilities)%nat →
  contains_point region (grid_x grid_probabilities i, grid_y grid_probabilities j) = true →
  states_color !! item grid_states i j = None →
  plot_background o region grid_probabilities grid_states states_color cv
  = Raised KeyError.
Proof.
  intros Hsize Hi Hj Hin Hnone. unfold plot_background.
  destruct (Qlt_le_dec 0 (background_markersize o)) as [_|Hle]; [|lra].
  destruct (amin_nonempty grid_probabilities) as [p_min ->]; [lia..|].
  destruct (amax_nonempty grid_probabilities) as [p_max ->]; [lia..|].
  simpl.
  apply (for_each_raises _ _ _ _ i).
  - by apply elem_of_range.
  - intros c. apply (for_each_raises _ _ _ _ j).
    + by apply elem_of_range.
    + intros c'. unfold background_cell, getitem.
      unfold grid_x, grid_y in Hin. by rewrite Hin, Hnone.
    + intros ? ? ?. apply background_cell_raises_KeyError.
  - intros i' c e' (j' & c' & _ & Hraise)%for_each_Raised_inv.
    by eapply background_cell_raises_KeyError.
Qed.

Lemma plot_component_labels_total (cs : list component) (cv : canvas) :
  ∃ cv', plot_component_labels o region cs cv = Ok cv'.
Proof.
  unfold plot_component_labels.
  destruct (for_each_total cs (label_component o region) (- (3 # 100), cv)) as [st ->].
  - intros c [shift cv0]. unfold label_component. eauto.
  - simpl. eauto.
Qed.

(** X4: the colour table only knows the states of the samples.  When the
    contour call is not made or its argument checks pass, the two grids have
    the same shape, the background is drawn and some grid cell inside the
    hull of the components carries a state that no sample has, the renderer
    raises KeyError. *)
Theorem grid_state_without_sample_is_KeyError (component_coordinates : list component)
    (samples : list sample) (annotations : list pyval)
    (simplices : list (nat * nat * nat)) (s : Z) :
  ConvexHull (component_points component_coordinates) = Ok region →
  Delaunay (component_points component_coordinates) = Ok simplices →
  contour_fits o grid_probabilities →
  same_shape grid_probabilities grid_states →
  0 < background_markersize o →
  inside_state region grid_probabilities grid_states s →
  s ∉ map sample_state samples →
  plot_onco_gps bwr Paired light_palette normalize_pandas_object o component_coordinates
    samples grid_probabilities grid_states annotations
  = Raised KeyError.
Proof.
  intros Hhull Hdel Hfits _ Hsize (i & j & Hi & Hj & Hin & Hs) Hnot.
  unfold plot_onco_gps, plot_map, mbind, result_bind. rewrite Hhull. cbn [Py.bind].
  destruct (plot_component_labels_total component_coordinates
              (plot_components o component_coordinates
                 (plot_title o (length samples) (length component_coordinates)
                    (length (Py.sorted_set Z.compare (map sample_state samples))))))
    as [cv' ->].
  cbn [Py.bind]. rewrite Hdel. cbn [Py.bind].
  destruct (contour_stage_total o grid_probabilities
              (cv' ++ [Triplot (component_points component_coordinates) simplices 4]) Hfits)
    as (lines & -> & _).
  cbn [Py.bind].
  rewrite (plot_background_unknown_state _ _ i j); [done|done..|].
  rewrite Hs. by apply states_color_lookup_None.
Qed.

End BackgroundStates.

Section BackgroundStatesExamples.

Import Visualize Properties RendererProperties Examples.

Lemma grid_state_without_sample_is_KeyError_witness :
  plot_onco_gps (geometry := convex_position) (ramp 256) (ramp 12) (ramp 2)
    (standardize 2 1) default_options inner_square three_samples wide_grid
    (wide_states 1) []
  = Raised KeyError.
Proof.
  apply (grid_state_without_sample_is_KeyError (geometry := convex_position)
           (ramp 256) (ramp 12) (ramp 2) (standardize 2 1) default_options
           (component_points inner_square) wide_grid (wide_states 1)
           inner_square three_samples [] (fan 4) 1%Z).
  - reflexivity.
  - reflexivity.
  - right. simpl. lia.
  - split; reflexivity.
  - reflexivity.
  - exists 1%nat, 1%nat. repeat split; simpl; lia.
  - intros Hin. apply list_elem_of_In in Hin. simpl in Hin.
    destruct Hin as [H|[H|[H|[]]]]; discriminate H.
Defined.

End BackgroundStatesExamples.

(** ** The ticks of a continuous annotation *)

Section AnnotationTicks.

Import Visualize.

Variables (bwr Paired light_palette : Colormap).
Variable normalize_pandas_object : list cell -> list cell.

Lemma clip_between (lower upper : Q) (c : cell) (v : Q) :
  lower <= upper → clip lower upper c = Some v → lower <= v ∧ v <= upper.
Proof.
  intros Hlu. destruct c as [x|]; simpl; [|done].
  destruct (Qle_bool x lower) eqn:E1; [intros [= <-]; lra|].
  destruct (Qle_bool upper x) eqn:E2; intros [= <-].
  - lra.
  - assert (¬ x <= lower) by (rewrite <- Qle_bool_iff, E1; done).
    assert (¬ upper <= x) by (rewrite <- Qle_bool_iff, E2; done).
    lra.
Qed.

Lemma elem_of_dropna (cs : list cell) (v : Q) : v ∈ dropna cs ↔ Some v ∈ cs.
Proof.
  unfold dropna. rewrite list_elem_of_omap. split.
  - by intros ([x|] & Hx & [= ->]).
  - intros Hv. by exists (Some v).
Qed.

Lemma fold_Qmin_lower_bound (xs : list Q) (x0 b : Q) :
  b <= x0 → (∀ x, x ∈ xs → b <= x) → b <= fold_left Qmin xs x0.
Proof.
  revert x0. induction xs as [|x xs IH]; intros x0 H0 Hall; simpl; [done|].
  apply IH.
  - apply Q.min_glb; [done|]. apply Hall. by left.
  - intros y Hy. apply Hall. by right.
Qed.

Lemma fold_Qmax_upper_bound (xs : list Q) (x0 b : Q) :
  x0 <= b → (∀ x, x ∈ xs → x <= b) → fold_left Qmax xs x0 <= b.
Proof.
  revert x0. induction xs as [|x xs IH]; intros x0 H0 Hall; simpl; [done|].
  apply IH.
  - apply Q.max_lub; [done|]. apply Hall. by left.
  - intros y Hy. apply Hall. by right.
Qed.

(** X5: for a continuous annotation and a threshold [std_max >= 0], the
    two outer ticks of the legend lie within [-std_max] and [std_max], and
    every value written into the samples lies between the two ticks. *)
Theorem continuous_ticks_bound_the_values (o : options) (annotations : list pyval)
    (samples : list sample) (su : annotation_setup) :
  0 <= std_max o →
  annotation_type o = "continuous" →
  set_up_annotations bwr Paired light_palette normalize_pandas_object o annotations samples
  = Ok su →
  - std_max o <= annotation_min su
  ∧ annotation_max su <= std_max o
  ∧ ∀ v, Some v ∈ annotation_column su → annotation_min su <= v ∧ v <= annotation_max su.
Proof.
  intros Hstd Hcont. unfold set_up_annotations.
  destruct (negb _); [done|]. rewrite Hcont.
  change ("continuous" =? "continuous")%string with true. cbv iota.
  intros [= <-]. cbn [annotation_min annotation_max annotation_column].
  set (column := map (clip (- std_max o) (std_max o))
                   (normalize_pandas_object (map to_cell annotations))).
  assert (Hclip : ∀ v, Some v ∈ column → - std_max o <= v ∧ v <= std_max o).
  { intros v (c & Hc & _)%list_elem_of_fmap.
    apply (clip_between _ _ c); [lra|done]. }
  unfold series_min, series_max.
  destruct (dropna column) as [|x xs] eqn:E.
  - simpl. split; [lra|]. split; [lra|].
    intros v Hv%elem_of_dropna. rewrite E in Hv. by apply elem_of_nil in Hv.
  - assert (Hall : ∀ v, v ∈ x :: xs → - std_max o <= v ∧ v <= std_max o).
    { intros v Hv. apply Hclip, elem_of_dropna. by rewrite E. }
    assert (Hx : - std_max o <= x ∧ x <= std_max o) by (apply Hall; by left).
    assert (Hxs : ∀ v, v ∈ xs → - std_max o <= v ∧ v <= std_max o)
      by (intros v Hv; apply Hall; by right).
    pose proof (fold_Qmin_lower_bound xs x (- std_max o) (proj1 Hx)
                  (fun v Hv => proj1 (Hxs v Hv))) as Hlow.
    pose proof (fold_Qmax_upper_bound xs x (std_max o) (proj2 Hx)
                  (fun v Hv => proj2 (Hxs v Hv))) as Hup.
    destruct (fold_Qmin_le xs x) as [Hmin0 Hmin].
    destruct (fold_Qmax_ge xs x) as [Hmax0 Hmax].
    unfold max_cell, min_cell, from_option, Py.max, Py.min.
    set (lo := fold_left Qmin xs x) in *. set (hi := fold_left Qmax xs x) in *.
    assert (Hbetween : ∀ v, Some v ∈ column → lo <= v ∧ v <= hi).
    { intros v Hv%elem_of_dropna. rewrite E in Hv.
      apply elem_of_cons in Hv as [->|Hv]; [lra|]. split; auto. }
    destruct (Qle_bool lo (- std_max o)) eqn:E1;
      destruct (Qle_bool (std_max o) hi) eqn:E2;
      try (apply Qle_bool_iff in E1); try (apply Qle_bool_iff in E2);
      (split; [lra|]; split; [lra|]);
      intros v Hv; destruct (Hbetween v Hv); destruct (Hclip v Hv); lra.
Qed.

(** X6: for a categorical or binary annotation whose values are all
    missing, the mean of the column is NaN and the conversion of the mean
    to an integer raises ValueError, whatever was drawn before. *)
Theorem discrete_annotation_without_values_raises {geometry : Provider} (o : options)
    (component_coordinates : list component) (samples : list sample)
    (grid_probabilities : ndarray Q) (grid_states : ndarray Z)
    (annotations : list pyval) (cv : canvas) :
  annotation_type o ≠ "continuous" →
  length annotations = length samples →
  any annotations = true →
  (∀ v, v ∈ annotations → v = PNone ∨ v = PNaN) →
  plot_map Paired o component_coordinates samples grid_probabilities grid_states = Ok cv →
  plot_onco_gps bwr Paired light_palette normalize_pandas_object o component_coordinates
    samples grid_probabilities grid_states annotations
  = Raised (ValueError "cannot convert float NaN to integer").
Proof.
  intros Hcont%String.eqb_neq Hlen Hany Hmiss Hmap.
  unfold plot_onco_gps. rewrite Hmap. simpl. rewrite Hany.
  unfold plot_annotations, set_up_annotations.
  rewrite length_map, Hlen, Nat.eqb_refl. cbn [negb]. rewrite Hcont.
  assert (Hdrop : dropna (map to_cell annotations) = []).
  { clear -Hmiss. induction annotations as [|v vs IH]; [done|].
    destruct (Hmiss v) as [->| ->]; [by left|..]; simpl; apply IH;
      intros w Hw; apply Hmiss; by right. }
  unfold series_mean. by rewrite Hdrop.
Qed.

End AnnotationTicks.

Section AnnotationTicksExamples.

Import Visualize Examples.

Lemma continuous_ticks_bound_the_values_witness :
  ∃ su,
    set_up_annotations (ramp 256) (ramp 12) (ramp 2) (standardize 2 1) default_options
      [PNum 1; PNum 2; PNum 9] three_samples
    = Ok su
    ∧ - std_max default_options <= annotation_min su
    ∧ annotation_max su <= std_max default_options
    ∧ ∀ v, Some v ∈ annotation_column su → annotation_min su <= v ∧ v <= annotation_max su.
Proof.
  eexists. split; [reflexivity|].
  apply (continuous_ticks_bound_the_values (ramp 256) (ramp 12) (ramp 2) (standardize 2 1)
           default_options [PNum 1; PNum 2; PNum 9] three_samples).
  - discriminate.
  - reflexivity.
  - reflexivity.
Defined.

Lemma discrete_annotation_without_values_raises_witness :
  plot_onco_gps (geometry := convex_position) (ramp 256) (ramp 12) (ramp 2)
    (standardize 2 1) (options_with "binary" "auto" "violine") unit_square three_samples
    ramp_grid zero_states [PNaN; PNone; PNaN]
  = Raised (ValueError "cannot convert float NaN to integer").
Proof.
  eapply (discrete_annotation_without_values_raises (geometry := convex_position)
            (ramp 256) (ramp 12) (ramp 2) (standardize 2 1)
            (options_with "binary" "auto" "violine") unit_square three_samples
            ramp_grid zero_states [PNaN; PNone; PNaN]).
  - discriminate.
  - reflexivity.
  - reflexivity.
  - intros v Hv. apply list_elem_of_In in Hv. simpl in Hv.
    destruct Hv as [<-|[<-|[<-|[]]]]; auto.
  - reflexivity.
Defined.

End AnnotationTicksExamples.

(** ** What a pruning pass and the pruning loop leave *)

Section SelectMore.

Lemma select_zip {A B} (mask : list bool) (xs : list A) (ys : list B) :
  Dataframe.select mask (zip xs ys)
  = zip (Dataframe.select mask xs) (Dataframe.select mask ys).
Proof.
  revert xs ys. induction mask as [|b mask IH]; intros [|x xs] [|y ys];
    cbn [zip zip_with]; rewrite ?select_nil_l, ?select_nil_r; try done.
  - by destruct (Dataframe.select _ _).
  - rewrite !select_cons. destruct b; cbn [zip zip_with]; by rewrite <- IH.
Qed.

Lemma select_map_filter {A} (f : A -> bool) (xs : list A) :
  Dataframe.select (map f xs) xs = filter (fun x => f x = true) xs.
Proof.
  induction xs as [|x xs IH]; cbn [map]; [done|].
  rewrite select_cons, filter_cons, IH.
  destruct (f x); by case_decide.
Qed.

Lemma sublist_select {A} (mask : list bool) (xs : list A) :
  sublist (Dataframe.select mask xs) xs.
Proof.
  revert xs. induction mask as [|b mask IH]; intros [|x xs];
    rewrite ?select_nil_l, ?select_nil_r; try apply sublist_nil_l.
  rewrite select_cons. destruct b; [by apply sublist_skip|by apply sublist_cons].
Qed.

End SelectMore.

Section PruningResults.

Import Dataframe Properties DataframeAxes.

Context {float : Numpy.Float64}.
Variables min_good_value min_good_unique_value : option Q.

Local Abbreviation drop dataframe axis :=
  (drop_axis_label dataframe axis min_good_value min_good_unique_value).
Local Abbreviation loop fuel dataframe axis :=
  (drop_axes_label_loop fuel dataframe axis min_good_value min_good_unique_value).
Local Abbreviation keeps := (Properties.keeps min_good_value min_good_unique_value).

Lemma labels_of_loc (dataframe : DataFrame) (axis : Axis) (is_kept : list bool) :
  labels_of axis (loc dataframe axis is_kept) = select is_kept (labels_of axis dataframe)
  ∧ labels_of (other_axis axis) (loc dataframe axis is_kept)
    = labels_of (other_axis axis) dataframe.
Proof. by destruct axis. Qed.

Lemma length_labels_of (dataframe : DataFrame) (axis : Axis) :
  length (labels_of axis dataframe) = shape_at (shape dataframe) axis.
Proof. by destruct axis. Qed.

(** X7: one pruning pass on a well-formed table keeps exactly the labels
    of the pruned axis whose row (or column) meets the thresholds, each
    with its row (or column), in the order of the table; the labels of the
    other axis are untouched and the result is well-formed. *)
Theorem drop_axis_label_keeps_what_passes (dataframe pruned : DataFrame) (axis : Axis) :
  well_formed dataframe →
  drop dataframe axis = Ok pruned →
  well_formed pruned
  ∧ labels_of (other_axis axis) pruned = labels_of (other_axis axis) dataframe
  ∧ labelled axis pruned
    = filter (fun lv => keeps (shape_at (shape dataframe) (other_axis axis)) (snd lv) = true)
        (labelled axis dataframe).
Proof.
  intros Hwf Hrun.
  destruct (drop_axis_label_Ok _ _ dataframe pruned axis Hwf Hrun) as [_ ->].
  set (n := shape_at (shape dataframe) (other_axis axis)).
  set (vs := vectors dataframe (other_axis axis)).
  split; [by apply well_formed_loc|].
  destruct (labels_of_loc dataframe axis (map (keeps n) vs)) as [Hkept Hother].
  split; [done|].
  unfold labelled. rewrite Hkept, vectors_loc by done. fold vs.
  rewrite <- select_zip.
  assert (Hlen : length (labels_of axis dataframe) = length vs).
  { unfold vs. by rewrite length_labels_of, length_vectors. }
  assert (Hmask : map (keeps n) vs
                  = map (fun lv => keeps n (snd lv)) (zip (labels_of axis dataframe) vs)).
  { rewrite <- (map_map snd (keeps n)). f_equal. symmetry.
    apply snd_zip. lia. }
  rewrite Hmask. apply select_map_filter.
Qed.

(** X8: in the table the pruning loop returns, every row and every column
    meets the thresholds, fractions being taken of the size of the returned
    table. *)
Theorem drop_axes_label_result_meets_thresholds (dataframe pruned : DataFrame)
    (axis : option Axis) (axis' : Axis) :
  well_formed dataframe →
  drop_axes_label dataframe axis min_good_value min_good_unique_value = Some (Ok pruned) →
  Forall (fun vector => keeps (shape_at (shape pruned) (other_axis axis')) vector = true)
    (vectors pruned (other_axis axis')).
Proof.
  intros Hwf Hrun. unfold drop_axes_label in Hrun.
  apply drop_axes_label_loop_fixed in Hrun
    as (Hwf' & last & previous & Hwfp & Hprev & Hlast); [|done..].
  destruct (decide (shape_at (shape pruned) axis' = 0%nat)) as [Hzero|Hpos].
  { pose proof (length_vectors pruned axis' Hwf') as Hlen. rewrite Hzero in Hlen.
    by apply nil_length_inv in Hlen as ->. }
  assert (Hfixed : drop pruned axis' = Ok pruned).
  { assert (axis' = last ∨ axis' = other_axis last) as [->| ->]
      by (destruct axis', last; auto); [done|].
    eapply drop_axis_label_twice; [exact Hwfp|exact Hprev|lia]. }
  destruct (drop_axis_label_Ok _ _ pruned pruned axis' Hwf' Hfixed) as [_ Heq].
  set (n := shape_at (shape pruned) (other_axis axis')) in *.
  set (vs := vectors pruned (other_axis axis')) in *.
  assert (Hvs : vs = select (map (keeps n) vs) vs).
  { unfold vs at 1. rewrite Heq. by rewrite vectors_loc. }
  rewrite Hvs. apply select_map_self.
Qed.

Lemma drop_axes_label_loop_sublist (fuel : nat) (dataframe : DataFrame) (axis : Axis)
    (shape_before : nat * nat) (can_return : bool) (pruned : DataFrame) :
  loop fuel dataframe axis shape_before can_return = Some (Ok pruned) →
  ∀ axis', sublist (labels_of axis' pruned) (labels_of axis' dataframe).
Proof.
  revert dataframe axis shape_before can_return.
  induction fuel as [|fuel IH]; intros dataframe axis shape_before can_return; simpl;
    [done|].
  destruct (drop dataframe axis) as [dataframe'|e] eqn:Hpass; [|done].
  apply drop_axis_label_loc in Hpass as [is_kept ->].
  assert (Hpass : ∀ axis', sublist (labels_of axis' (loc dataframe axis is_kept))
                             (labels_of axis' dataframe)).
  { intros axis'. destruct (labels_of_loc dataframe axis is_kept) as [Hkept Hother].
    assert (axis' = axis ∨ axis' = other_axis axis) as [->| ->]
      by (destruct axis', axis; auto).
    - rewrite Hkept. apply sublist_select.
    - by rewrite Hother. }
  destruct (can_return && _).
  - by intros [= <-].
  - intros Hrun axis'. etrans; [by eapply IH|apply Hpass].
Qed.

(** X9: the pruning loop only drops labels: the row labels and the
    column labels of the table it returns are the labels of the table it was
    given with some of them left out, in the same order. *)
Theorem drop_axes_label_only_drops (dataframe pruned : DataFrame) (axis : option Axis) :
  drop_axes_label dataframe axis min_good_value min_good_unique_value = Some (Ok pruned) →
  sublist (index pruned) (index dataframe)
  ∧ sublist (columns pruned) (columns dataframe).
Proof.
  intros Hrun. unfold drop_axes_label in Hrun.
  pose proof (drop_axes_label_loop_sublist _ _ _ _ _ _ Hrun) as H.
  split; [apply (H axis_0)|apply (H axis_1)].
Qed.

End PruningResults.

Section PruningResultsExamples.

Import Dataframe Properties DataframeAxes Examples.

Lemma sparse_table_rows_and_columns : well_formed sparse_table.
Proof. split; [reflexivity|]. repeat constructor. Qed.

Lemma drop_axis_label_keeps_what_passes_witness :
  well_formed sparse_pruned
  ∧ labels_of (other_axis axis_0) sparse_pruned = labels_of (other_axis axis_0) sparse_table
  ∧ labelled axis_0 sparse_pruned
    = filter (fun lv => keeps (Some 1) None (shape_at (shape sparse_table) (other_axis axis_0))
                          (snd lv) = true)
        (labelled axis_0 sparse_table).
Proof.
  apply (drop_axis_label_keeps_what_passes (Some 1) None sparse_table sparse_pruned axis_0).
  - exact sparse_table_rows_and_columns.
  - reflexivity.
Defined.

Lemma drop_axes_label_result_meets_thresholds_witness :
  Forall (fun vector => keeps (Some 1) None (shape_at (shape sparse_pruned) (other_axis axis_1))
                          vector = true)
    (vectors sparse_pruned (other_axis axis_1)).
Proof.
  apply (drop_axes_label_result_meets_thresholds (Some 1) None sparse_table sparse_pruned
           None axis_1).
  - exact sparse_table_rows_and_columns.
  - reflexivity.
Defined.

Lemma drop_axes_label_only_drops_witness :
  sublist (index sparse_pruned) (index sparse_table)
  ∧ sublist (columns sparse_pruned) (columns sparse_table).
Proof.
  apply (drop_axes_label_only_drops (Some 1) None sparse_table sparse_pruned None).
  reflexivity.
Defined.

End PruningResultsExamples.

(** ** Unique labels *)

Section UniqueLabels.

Import Dataframe Properties RendererProperties DataframeAxes.

Lemma ascii_compare_lt_trans (a b c : Ascii.ascii) :
  Ascii.compare a b = Lt → Ascii.compare b c = Lt → Ascii.compare a c = Lt.
Proof. unfold Ascii.compare. rewrite !N.compare_lt_iff. lia. Qed.

Lemma ascii_compare_refl (a : Ascii.ascii) : Ascii.compare a a = Eq.
Proof. unfold Ascii.compare. apply N.compare_refl. Qed.

Lemma string_compare_lt_trans (x y z : string) :
  String.compare x y = Lt → String.compare y z = Lt → String.compare x z = Lt.
Proof.
  revert y z. induction x as [|a x IH]; intros [|b y] [|c z]; simpl; try done.
  destruct (Ascii.compare a b) eqn:Eab; try done;
    destruct (Ascii.compare b c) eqn:Ebc; try done.
  - apply Ascii.compare_eq_iff in Eab as ->. apply Ascii.compare_eq_iff in Ebc as ->.
    rewrite ascii_compare_refl. apply IH.
  - apply Ascii.compare_eq_iff in Eab as ->. by rewrite Ebc.
  - apply Ascii.compare_eq_iff in Ebc as <-. by rewrite Eab.
  - by rewrite (ascii_compare_lt_trans a b c).
Qed.

Lemma unique_increasing (labels : list string) :
  increasing String.compare (unique labels).
Proof.
  apply increasing_sorted_set.
  - apply String.compare_eq_iff.
  - apply String.compare_antisym.
  - apply string_compare_lt_trans.
Qed.

Lemma unique_NoDup (labels : list string) : NoDup (unique labels).
Proof.
  apply (increasing_NoDup String.compare).
  - apply String.compare_antisym.
  - apply unique_increasing.
Qed.

Lemma elem_of_unique_labels (a : string) (labels : list string) :
  a ∈ unique labels ↔ a ∈ labels.
Proof. apply elem_of_sorted_set. apply String.compare_eq_iff. Qed.

Lemma count_cons (a : string) (labels : list string) (label : string) :
  count (a :: labels) label
  = ((if decide (a = label) then 1 else 0) + count labels label)%nat.
Proof. unfold count. rewrite filter_cons. by destruct (decide (a = label)). Qed.

Lemma count_zero (labels : list string) (label : string) :
  count labels label = 0%nat ↔ label ∉ labels.
Proof.
  induction labels as [|a labels IH];
    [split; [intros _; apply not_elem_of_nil|done]|].
  rewrite count_cons, not_elem_of_cons.
  destruct (decide (a = label)) as [->|Hne]; [split; [lia|tauto]|].
  rewrite <- IH. split; [intros; split; [congruence|lia]|intros [_ H]; lia].
Qed.

Lemma NoDup_count (labels : list string) :
  NoDup labels ↔ ∀ label, label ∈ labels → count labels label = 1%nat.
Proof.
  induction labels as [|a labels IH].
  - split; [by intros _ ? ?%elem_of_nil|constructor].
  - rewrite NoDup_cons, IH. split.
    + intros [Ha Hall] label Hin. rewrite count_cons.
      destruct (decide (a = label)) as [<-|Hne].
      * apply count_zero in Ha. lia.
      * apply elem_of_cons in Hin as [->|Hin]; [done|]. by rewrite Hall.
    + intros Hall. split.
      * specialize (Hall a (list_elem_of_here _ _)). rewrite count_cons in Hall.
        rewrite decide_True in Hall by done. apply count_zero. lia.
      * intros label Hin. specialize (Hall label (list_elem_of_further _ _ _ Hin)).
        rewrite count_cons in Hall.
        destruct (decide (a = label)); [|lia].
        assert (count labels label ≠ 0%nat) by (rewrite count_zero; tauto). lia.
Qed.

Lemma error_axis_Ok (labels : list string) :
  error_axis labels tt = Ok tt ↔ NoDup labels.
Proof.
  unfold error_axis, unique_counts.
  assert (existsb id (map (fun _ : string => false) (unique labels)) = false) as ->.
  { induction (unique labels) as [|a l IH]; [done|]. exact IH. }
  rewrite NoDup_count.
  destruct (forallb _ _) eqn:E; simpl.
  - split; [intros _|done]. intros label Hin.
    rewrite forallb_forall in E. apply Nat.eqb_eq, E, in_map, list_elem_of_In.
    by apply elem_of_unique_labels.
  - split; [done|]. intros Hall. exfalso.
    assert (forallb (fun c => (c =? 1)%nat) (map (count labels) (unique labels)) = true)
      as E'; [|congruence].
    apply forallb_forall. intros c (label & <- & Hin)%in_map_iff.
    apply Nat.eqb_eq, Hall, elem_of_unique_labels, list_elem_of_In, Hin.
Qed.

Lemma error_axis_cases (labels : list string) :
  error_axis labels tt = Ok tt ∨ error_axis labels tt = Raised AssertionError.
Proof.
  unfold error_axis, unique_counts. destruct (existsb _ _); [by right|].
  destruct (forallb _ _); simpl; auto.
Qed.

(** X10: [error_axes] returns exactly when neither the row labels nor the
    column labels hold a label twice, and raises AssertionError
    otherwise. *)
Theorem error_axes_accepts_unique_labels (dataframe : DataFrame) :
  (error_axes dataframe = Ok tt ↔ NoDup (index dataframe) ∧ NoDup (columns dataframe))
  ∧ (error_axes dataframe = Ok tt ∨ error_axes dataframe = Raised AssertionError).
Proof.
  unfold error_axes. cbn [for_each].
  destruct (error_axis_cases (index dataframe)) as [H0|H0];
    destruct (error_axis_cases (columns dataframe)) as [H1|H1];
    pose proof (error_axis_Ok (index dataframe)) as E0;
    pose proof (error_axis_Ok (columns dataframe)) as E1;
    rewrite H0 in *; cbn [Py.bind]; try rewrite H1 in *; cbn [Py.bind].
  - split; [|by left]. split; [intros _|done]. split; [by apply E0|by apply E1].
  - split; [|by right]. split; [done|]. intros [_ H]. apply E1 in H. done.
  - split; [|by right]. split; [done|]. intros [H _]. apply E0 in H. done.
  - split; [|by right]. split; [done|]. intros [H _]. apply E0 in H. done.
Qed.

End UniqueLabels.

(** ** The table of [pivot] *)

Section PivotTable.

Import Dataframe Properties RendererProperties DataframeAxes.

Variable function : option (cell -> cell -> cell).
Variables axis_0_labels axis_1_labels : list string.

Local Abbreviation step :=
  (pivot_entry (map_int axis_0_labels) (map_int axis_1_labels) function).
Local Abbreviation known e :=
  (axis_0_label e ∈ axis_0_labels ∧ axis_1_label e ∈ axis_1_labels).
Local Abbreviation cell_of e i j :=
  (map_int axis_0_labels !! axis_0_label e = Some i
   ∧ map_int axis_1_labels !! axis_1_label e = Some j).

Lemma known_cell (e : entry) (matrix : list (list cell)) :
  has_shape (length axis_0_labels) (length axis_1_labels) matrix →
  known e →
  ∃ i j now, cell_of e i j ∧ matrix !! i ≫= (.!! j) = Some now.
Proof.
  intros Hshape [H0 H1].
  destruct (map_int_lookup_is_Some _ _ H0) as [i Hi].
  destruct (map_int_lookup_is_Some _ _ H1) as [j Hj].
  destruct (has_shape_lookup _ _ matrix i j Hshape) as [now Hnow].
  - apply map_int_lookup_Some in Hi. by eapply lookup_lt_Some.
  - apply map_int_lookup_Some in Hj. by eapply lookup_lt_Some.
  - by exists i, j, now.
Qed.

(** On entries with pairwise distinct key pairs that all find their cell
    missing, the loop never calls the function and stores every value. *)
Lemma pivot_loop_distinct (entries : list entry) (matrix : list (list cell)) :
  has_shape (length axis_0_labels) (length axis_1_labels) matrix →
  NoDup (map key_pair entries) →
  (∀ e, e ∈ entries → known e) →
  (∀ e i j, e ∈ entries → cell_of e i j → matrix !! i ≫= (.!! j) = Some None) →
  ∃ matrix',
    for_each entries step matrix = Ok matrix'
    ∧ ∀ e, e ∈ entries →
        ∃ i j, cell_of e i j ∧ matrix' !! i ≫= (.!! j) = Some (value e).
Proof.
  revert matrix.
  induction entries as [|e entries IH]; intros matrix Hshape Hkeys Hknown Hfree; simpl.
  { exists matrix. split; [done|]. by intros ? ?%elem_of_nil. }
  apply NoDup_cons in Hkeys as [Hfresh Hkeys].
  destruct (known_cell e matrix Hshape) as (i & j & now & [Hi Hj] & Hnow);
    [apply Hknown; by left|].
  assert (now = None) as ->.
  { rewrite (Hfree e i j) in Hnow; [congruence|by left|done]. }
  rewrite (pivot_entry_run _ _ _ e matrix i j None Hi Hj Hnow). simpl.
  assert (Hapart : ∀ e', e' ∈ entries → ¬ cell_of e' i j).
  { intros e' He' [Hi' Hj']. apply Hfresh.
    apply map_int_lookup_Some in Hi, Hj, Hi', Hj'.
    assert (key_pair e = key_pair e') as ->
      by (unfold key_pair; f_equal; congruence).
    by apply list_elem_of_fmap_2. }
  set (matrix1 := matrix_set matrix i j (value e)).
  assert (Hshape1 : has_shape (length axis_0_labels) (length axis_1_labels) matrix1)
    by by apply has_shape_set.
  destruct (IH matrix1) as (matrix' & Hrun & Hstored); [done|done|..].
  - intros e' He'. apply Hknown. by right.
  - intros e' i' j' He' Hcell. unfold matrix1. rewrite matrix_set_get_other.
    + apply (Hfree e'); [by right|done].
    + intros [= -> ->]. by apply (Hapart e').
  - exists matrix'. split; [done|].
    intros e' [->|He']%elem_of_cons; [|by apply Hstored].
    exists i, j. split; [done|].
    destruct (pivot_loop_frame _ _ _ entries matrix1 matrix' _ _ Hshape1 Hrun) as [_ Hframe].
    rewrite Hframe by done. by eapply matrix_set_get.
Qed.

End PivotTable.

Section PivotResults.

Import Dataframe Properties RendererProperties DataframeAxes.

(** With a function to call, the loop of [pivot] runs to its end. *)
Lemma pivot_loop_total (f : cell -> cell -> cell) (axis_0_labels axis_1_labels : list string)
    (entries : list entry) (matrix : list (list cell)) :
  has_shape (length axis_0_labels) (length axis_1_labels) matrix →
  (∀ e, e ∈ entries →
        axis_0_label e ∈ axis_0_labels ∧ axis_1_label e ∈ axis_1_labels) →
  ∃ matrix',
    for_each entries
      (pivot_entry (map_int axis_0_labels) (map_int axis_1_labels) (Some f)) matrix
    = Ok matrix'.
Proof.
  revert matrix.
  induction entries as [|e entries IH]; intros matrix Hshape Hknown; simpl; [eauto|].
  destruct (known_cell axis_0_labels axis_1_labels e matrix Hshape)
    as (i & j & now & [Hi Hj] & Hnow); [apply Hknown; by left|].
  rewrite (pivot_entry_run _ _ _ e matrix i j now Hi Hj Hnow).
  destruct now; simpl; (apply IH; [by apply has_shape_set|]);
    intros e' He'; apply Hknown; by right.
Qed.

Lemma table_labels_known (table : list entry) (e : entry) :
  e ∈ table →
  axis_0_label e ∈ unique (map axis_0_label table)
  ∧ axis_1_label e ∈ unique (map axis_1_label table).
Proof.
  intros He. rewrite !elem_of_unique_labels. split; by apply list_elem_of_fmap_2.
Qed.

(** X11: with a function to call, [pivot] always returns.  The table it
    returns has a row per distinct first key and a column per distinct second
    key, each set of labels strictly increasing; it passes [error_axes]; its
    matrix has a cell for every pair of labels; and the cell of a pair that
    is on no line of the input is missing. *)
Theorem pivot_with_function_returns_a_table (table : list entry)
    (f : cell -> cell -> cell) :
  ∃ dataframe,
    pivot table (Some f) = Ok dataframe
    ∧ well_formed dataframe
    ∧ error_axes dataframe = Ok tt
    ∧ increasing String.compare (index dataframe)
    ∧ increasing String.compare (columns dataframe)
    ∧ (∀ a, a ∈ index dataframe ↔ ∃ e, e ∈ table ∧ axis_0_label e = a)
    ∧ (∀ b, b ∈ columns dataframe ↔ ∃ e, e ∈ table ∧ axis_1_label e = b)
    ∧ ∀ i j a b,
        index dataframe !! i = Some a → columns dataframe !! j = Some b →
        (∀ e, e ∈ table → key_pair e ≠ (a, b)) →
        to_numpy dataframe !! i ≫= (.!! j) = Some None.
Proof.
  unfold pivot.
  set (l0 := unique (map axis_0_label table)).
  set (l1 := unique (map axis_1_label table)).
  pose proof (has_shape_full (length l0) (length l1)) as Hfull.
  destruct (pivot_loop_total f l0 l1 table _ Hfull) as [matrix Hrun];
    [apply table_labels_known|].
  rewrite Hrun. eexists. split; [reflexivity|]. simpl.
  destruct (pivot_loop_frame _ _ _ table _ matrix _ _ Hfull Hrun) as [[Hlen Hrows] Hframe].
  split; [split; [done|exact Hrows]|].
  split.
  { unfold error_axes. cbn [for_each index columns].
    rewrite (proj2 (error_axis_Ok l0)) by apply unique_NoDup. cbn [Py.bind].
    by rewrite (proj2 (error_axis_Ok l1)) by apply unique_NoDup. }
  split; [apply unique_increasing|]. split; [apply unique_increasing|].
  split; [|split].
  - intros a. unfold l0. rewrite elem_of_unique_labels, list_elem_of_fmap.
    split; intros (e & H0 & H1); exists e; by split.
  - intros b. unfold l1. rewrite elem_of_unique_labels, list_elem_of_fmap.
    split; intros (e & H0 & H1); exists e; by split.
  - intros i j a b Ha Hb Hfree. rewrite Hframe.
    + apply full_lookup; by eapply lookup_lt_Some.
    + intros e He [Hi Hj]. apply (Hfree e He). unfold key_pair.
      apply map_int_lookup_Some in Hi, Hj. f_equal; congruence.
Qed.

(** X12: on a long table whose key pairs are pairwise distinct, [pivot]
    returns without calling its function (so the default [None] is enough),
    and every line is found again: the cell at the line's two labels holds
    the line's value. *)
Theorem pivot_of_distinct_keys_stores_every_value (table : list entry)
    (function : option (cell -> cell -> cell)) :
  NoDup (map key_pair table) →
  ∃ dataframe,
    pivot table function = Ok dataframe
    ∧ ∀ e, e ∈ table →
        ∃ i j, index dataframe !! i = Some (axis_0_label e)
               ∧ columns dataframe !! j = Some (axis_1_label e)
               ∧ to_numpy dataframe !! i ≫= (.!! j) = Some (value e).
Proof.
  intros Hkeys. unfold pivot.
  set (l0 := unique (map axis_0_label table)).
  set (l1 := unique (map axis_1_label table)).
  pose proof (has_shape_full (length l0) (length l1)) as Hfull.
  destruct (pivot_loop_distinct function l0 l1 table _ Hfull Hkeys)
    as (matrix & Hrun & Hstored).
  - apply table_labels_known.
  - intros e i j _ [Hi Hj]. apply full_lookup.
    + apply map_int_lookup_Some in Hi. by eapply lookup_lt_Some.
    + apply map_int_lookup_Some in Hj. by eapply lookup_lt_Some.
  - rewrite Hrun. eexists. split; [reflexivity|]. simpl.
    intros e He. destruct (Hstored e He) as (i & j & [Hi Hj] & Hcell).
    exists i, j. split; [by apply map_int_lookup_Some|].
    split; [by apply map_int_lookup_Some|done].
Qed.

End PivotResults.

Section PivotResultsExamples.

Import Dataframe DataframeAxes Examples.

Lemma pivot_of_distinct_keys_stores_every_value_witness :
  ∃ dataframe,
    pivot [mk_entry "B" "Y" (Some 5); mk_entry "A" "X" None; mk_entry "A" "Y" (Some 2)]
      None
    = Ok dataframe
    ∧ ∀ e, e ∈ [mk_entry "B" "Y" (Some 5); mk_entry "A" "X" None;
                mk_entry "A" "Y" (Some 2)] →
        ∃ i j, index dataframe !! i = Some (axis_0_label e)
               ∧ columns dataframe !! j = Some (axis_1_label e)
               ∧ to_numpy dataframe !! i ≫= (.!! j) = Some (value e).
Proof.
  apply (pivot_of_distinct_keys_stores_every_value
           [mk_entry "B" "Y" (Some 5); mk_entry "A" "X" None; mk_entry "A" "Y" (Some 2)]
           None).
  apply (bool_decide_unpack _). vm_compute. exact I.
Defined.

End PivotResultsExamples.

(** ** Tables brought to common labels *)

Section SyncAxis.

Import Dataframe Properties RendererProperties DataframeAxes DataframeSync.

Variable reindex : DataFrame -> list string -> Axis -> result DataFrame.

Lemma elem_of_fold_union (axis : Axis) (rest : list DataFrame) (labels : gset string)
    (label : string) :
  label ∈ fold_left (fun labels dataframe => labels ∪ list_to_set (labels_of axis dataframe))
            rest labels
  ↔ label ∈ labels ∨ ∃ dataframe, dataframe ∈ rest ∧ label ∈ labels_of axis dataframe.
Proof.
  revert labels. induction rest as [|dataframe rest IH]; intros labels; simpl.
  - split; [by left|]. intros [H|(dataframe & H & _)]; [done|by apply elem_of_nil in H].
  - rewrite IH, elem_of_union, elem_of_list_to_set. split.
    + intros [[H|H]|(d & Hd & H)]; [by left| |].
      * right. exists dataframe. split; [by left|done].
      * right. exists d. split; [by right|done].
    + intros [H|(d & [->|Hd]%elem_of_cons & H)]; [by left; left|by left; right|].
      right. by exists d.
Qed.

(** X13: the method "union" brings every table to the labels that stand
    on the axis of at least one of the tables, each once and in increasing
    order. *)
Theorem sync_axis_union (dataframe_0 : DataFrame) (rest : list DataFrame) (axis : Axis) :
  ∃ labels,
    sync_axis reindex (dataframe_0 :: rest) axis "union"
    = reindex_all reindex labels axis (dataframe_0 :: rest)
    ∧ increasing String.compare labels
    ∧ ∀ label, label ∈ labels
               ↔ ∃ dataframe, dataframe ∈ dataframe_0 :: rest
                              ∧ label ∈ labels_of axis dataframe.
Proof.
  eexists. split; [reflexivity|]. split.
  - apply increasing_sorted_set.
    + apply String.compare_eq_iff.
    + apply String.compare_antisym.
    + apply string_compare_lt_trans.
  - intros label.
    rewrite (elem_of_sorted_set String.compare String.compare_eq_iff).
    rewrite elem_of_elements, elem_of_fold_union, elem_of_list_to_set. split.
    + intros [H|(d & Hd & H)].
      * exists dataframe_0. split; [by left|done].
      * exists d. split; [by right|done].
    + intros (d & [->|Hd]%elem_of_cons & H); [by left|]. right. by exists d.
Qed.

Lemma fold_left_app_labels (axis : Axis) (rest : list DataFrame) (labels : list string) :
  fold_left (fun labels dataframe => labels ++ labels_of axis dataframe) rest labels
  = labels ++ concat (map (labels_of axis) rest).
Proof.
  revert labels. induction rest as [|dataframe rest IH]; intros labels; simpl.
  - by rewrite app_nil_r.
  - by rewrite IH, app_assoc.
Qed.

Lemma count_app (labels labels' : list string) (label : string) :
  count (labels ++ labels') label = (count labels label + count labels' label)%nat.
Proof. unfold count. by rewrite filter_app, length_app. Qed.

Lemma count_concat (axis : Axis) (dataframes : list DataFrame) (label : string) :
  count (concat (map (labels_of axis) dataframes)) label = count_all dataframes axis label.
Proof.
  unfold count_all. induction dataframes as [|dataframe dataframes IH]; [done|].
  cbn [map concat sum_list foldr]. by rewrite count_app, IH.
Qed.

Lemma increasing_filter {A} (cmp : A -> A -> comparison) (P : A -> Prop)
    `{!∀ x, Decision (P x)} (l : list A) :
  increasing cmp l → increasing cmp (filter P l).
Proof.
  induction l as [|x l IH]; [done|]. intros [Hx Hl]. rewrite filter_cons.
  destruct (decide (P x)); [|by apply IH]. split; [|by apply IH].
  apply list.Forall_forall. intros y [_ Hy]%list_elem_of_filter.
  by eapply list.Forall_forall in Hx.
Qed.

Lemma count_le_1 (labels : list string) (label : string) :
  NoDup labels →
  count labels label = if decide (label ∈ labels) then 1%nat else 0%nat.
Proof.
  intros Hnd. destruct (decide (label ∈ labels)) as [Hin|Hout].
  - by apply NoDup_count.
  - by apply count_zero.
Qed.

Lemma count_all_full (dataframes : list DataFrame) (axis : Axis) (label : string) :
  Forall (fun dataframe => NoDup (labels_of axis dataframe)) dataframes →
  (count_all dataframes axis label ≤ length dataframes)%nat
  ∧ (count_all dataframes axis label = length dataframes
     ↔ ∀ dataframe, dataframe ∈ dataframes → label ∈ labels_of axis dataframe).
Proof.
  unfold count_all. induction 1 as [|dataframe dataframes Hnd _ IH].
  - split; [done|]. split; [by intros _ ? ?%elem_of_nil|done].
  - cbn [map sum_list foldr length]. destruct IH as [Hle IH].
    rewrite (count_le_1 _ _ Hnd).
    set (k := sum_list (map (fun d => count (labels_of axis d) label) dataframes)) in *.
    unfold id.
    destruct (decide (label ∈ labels_of axis dataframe)) as [Hin|Hout].
    + split; [lia|]. split.
      * intros Hsum d [->|Hd]%elem_of_cons; [done|]. apply IH; [lia|done].
      * intros Hall. assert (k = length dataframes); [|lia].
        apply IH. intros d Hd. apply Hall. by right.
    + split; [lia|]. split; [lia|]. intros Hall. exfalso. apply Hout, Hall. by left.
Qed.

(** The labels of the method "intersection", as the code computes them. *)
Lemma sync_axis_intersection_labels (dataframe_0 : DataFrame) (rest : list DataFrame)
    (axis : Axis) :
  sync_axis_labels (dataframe_0 :: rest) axis "intersection"
  = Returned
      (filter (fun label => count_all (dataframe_0 :: rest) axis label
                            = length (dataframe_0 :: rest))
         (unique (concat (map (labels_of axis) (dataframe_0 :: rest))))).
Proof.
  unfold sync_axis_labels, unique_counts.
  change ("intersection" =? "union")%string with false.
  change ("intersection" =? "intersection")%string with true. cbv iota.
  rewrite fold_left_app_labels.
  change (labels_of axis dataframe_0 ++ concat (map (labels_of axis) rest))
    with (concat (map (labels_of axis) (dataframe_0 :: rest))).
  set (all := concat (map (labels_of axis) (dataframe_0 :: rest))).
  f_equal. rewrite map_map.
  rewrite (select_map_filter
             (fun label => (count all label =? length (dataframe_0 :: rest))%nat)).
  apply list_filter_iff. intros label. unfold all.
  by rewrite Nat.eqb_eq, count_concat.
Qed.

Lemma elem_of_intersection_labels (dataframes : list DataFrame) (axis : Axis)
    (label : string) :
  label ∈ filter (fun label => count_all dataframes axis label = length dataframes)
            (unique (concat (map (labels_of axis) dataframes)))
  ↔ count_all dataframes axis label = length dataframes ∧ dataframes ≠ [].
Proof.
  rewrite list_elem_of_filter, elem_of_unique_labels. split.
  - intros [Hcount Hin]. split; [done|]. intros ->. by apply elem_of_nil in Hin.
  - intros [Hcount Hne]. split; [done|].
    destruct (decide (label ∈ concat (map (labels_of axis) dataframes))) as [Hin|Hout];
      [done|].
    apply count_zero in Hout. rewrite count_concat, Hcount in Hout.
    by destruct dataframes.
Qed.

(** X14: the method "intersection" brings every table to the labels that
    stand on the axis of the tables together exactly as many times as there
    are tables, each once and in increasing order. *)
Theorem sync_axis_intersection_counts (dataframe_0 : DataFrame) (rest : list DataFrame)
    (axis : Axis) :
  ∃ labels,
    sync_axis reindex (dataframe_0 :: rest) axis "intersection"
    = reindex_all reindex labels axis (dataframe_0 :: rest)
    ∧ increasing String.compare labels
    ∧ ∀ label, label ∈ labels
               ↔ count_all (dataframe_0 :: rest) axis label = S (length rest).
Proof.
  eexists. split; [|split].
  - unfold sync_axis. by rewrite sync_axis_intersection_labels.
  - apply increasing_filter, unique_increasing.
  - intros label. rewrite elem_of_intersection_labels. cbn [length].
    split; [by intros [H _]|by intros H].
Qed.

(** X15: when no table has a label twice on the axis, the method
    "intersection" brings every table to the labels that stand on the axis
    of all the tables. *)
Theorem sync_axis_intersection_of_unique_labels (dataframe_0 : DataFrame)
    (rest : list DataFrame) (axis : Axis) :
  Forall (fun dataframe => NoDup (labels_of axis dataframe)) (dataframe_0 :: rest) →
  ∃ labels,
    sync_axis reindex (dataframe_0 :: rest) axis "intersection"
    = reindex_all reindex labels axis (dataframe_0 :: rest)
    ∧ ∀ label, label ∈ labels
               ↔ ∀ dataframe, dataframe ∈ dataframe_0 :: rest
                              → label ∈ labels_of axis dataframe.
Proof.
  intros Hunique. eexists. split.
  - unfold sync_axis. by rewrite sync_axis_intersection_labels.
  - intros label. rewrite elem_of_intersection_labels.
    rewrite <- (proj2 (count_all_full (dataframe_0 :: rest) axis label Hunique)).
    split; [by intros [H _]|by intros H].
Qed.

End SyncAxis.

Section SyncAxisExamples.

Import Dataframe DataframeAxes DataframeSync Examples.

Lemma sync_axis_intersection_of_unique_labels_witness :
  ∃ labels,
    sync_axis reindex_unique [sparse_table; sparse_pruned] axis_0 "intersection"
    = reindex_all reindex_unique labels axis_0 [sparse_table; sparse_pruned]
    ∧ ∀ label, label ∈ labels
               ↔ ∀ dataframe, dataframe ∈ [sparse_table; sparse_pruned]
                              → label ∈ labels_of axis_0 dataframe.
Proof.
  apply (sync_axis_intersection_of_unique_labels reindex_unique sparse_table
           [sparse_pruned] axis_0).
  repeat constructor; apply (bool_decide_unpack _); vm_compute; exact I.
Defined.

End SyncAxisExamples.

(** ** The ANN field of a VCF INFO column *)

Section MapM.

Context {A B : Type}.

Lemma mapM_Ok (f : A -> result B) (g : A -> B) (l : list A) :
  (∀ x, x ∈ l → f x = Ok (g x)) → mapM f l = Ok (map g l).
Proof.
  induction l as [|x l IH]; intros Hf; [done|]. cbn [mapM map].
  rewrite Hf by left. simpl. rewrite IH; [done|]. intros y Hy. apply Hf. by right.
Qed.

Lemma mapM_raises (f : A -> result B) (l : list A) (e : exn) (x : A) :
  x ∈ l → f x = Raised e → (∀ y e', f y = Raised e' → e' = e) →
  mapM f l = Raised e.
Proof.
  intros Hx Hraise Honly. induction l as [|y l IH]; [by apply elem_of_nil in Hx|].
  cbn [mapM]. destruct (f y) as [b|e'] eqn:E; simpl.
  - apply elem_of_cons in Hx as [->|Hx]; [congruence|]. by rewrite IH.
  - f_equal. by eapply Honly.
Qed.

End MapM.

Section AnnField.

Import Stdlib.Strings.Ascii VcfInfo.

Lemma split_plain (sep : Ascii.ascii) (s : string) :
  mentions sep s = false → split sep s = [s].
Proof.
  induction s as [|c s IH]; simpl; [done|].
  destruct (Ascii.eqb c sep); simpl; [done|]. intros H. by rewrite IH.
Qed.

Lemma split_app (sep : Ascii.ascii) (s s' : string) :
  mentions sep s = false → split sep (s ++ String sep s') = s :: split sep s'.
Proof.
  induction s as [|c s IH]; simpl.
  - by rewrite Ascii.eqb_refl.
  - destruct (Ascii.eqb c sep); simpl; [done|]. intros H. by rewrite IH.
Qed.

(** Splitting what was joined gives the pieces back. *)
Lemma split_join (sep : Ascii.ascii) (fields : list string) :
  fields ≠ [] → Forall (fun field => mentions sep field = false) fields →
  split sep (join sep fields) = fields.
Proof.
  intros Hne Hplain. induction Hplain as [|field fields Hfield Hplain IH]; [done|].
  destruct fields as [|field' fields]; cbn [join].
  - by apply split_plain.
  - rewrite split_app by done. f_equal. by apply IH.
Qed.

Lemma mentions_app (c : Ascii.ascii) (s s' : string) :
  mentions c (s ++ s') = mentions c s || mentions c s'.
Proof. induction s as [|c' s IH]; simpl; [done|]. by rewrite IH, orb_assoc. Qed.

Lemma mentions_join (c sep : Ascii.ascii) (fields : list string) :
  Ascii.eqb sep c = false →
  Forall (fun field => mentions c field = false) fields →
  mentions c (join sep fields) = false.
Proof.
  intros Hsep Hplain. induction Hplain as [|field fields Hfield Hplain IH]; [done|].
  destruct fields as [|field' fields]; cbn [join]; [done|].
  rewrite mentions_app, Hfield. cbn [mentions orb]. rewrite Hsep. exact IH.
Qed.

Lemma index_first (x : string) (keys : list string) (i : nat) :
  keys !! i = Some x → x ∉ take i keys → index x keys = Ok i.
Proof.
  revert i. induction keys as [|key keys IH]; intros [|i]; simpl; try done.
  - intros [= ->] _. by rewrite String.eqb_refl.
  - intros Hi Hfirst. apply not_elem_of_cons in Hfirst as [Hne Hfirst].
    assert ((key =? x)%string = false) as -> by (apply String.eqb_neq; congruence).
    by rewrite (IH i).
Qed.

Lemma index_unknown (x : string) (keys : list string) :
  x ∉ keys → index x keys = Raised (ValueError "tuple.index(x): x not in tuple").
Proof.
  induction keys as [|key keys IH]; simpl; [done|].
  intros [Hne Hrest]%not_elem_of_cons.
  assert ((key =? x)%string = false) as -> by (apply String.eqb_neq; congruence).
  by rewrite IH.
Qed.

Lemma slice_to_map {A B} (f : A -> B) (n : option Z) (l : list A) :
  slice_to n (map f l) = map f (slice_to n l).
Proof.
  unfold slice_to. destruct n as [n|]; [|done].
  rewrite length_map. destruct (0 <=? n)%Z; symmetry; apply fmap_take.
Qed.

Lemma elem_of_slice_to {A} (n : option Z) (l : list A) (x : A) :
  x ∈ slice_to n l → x ∈ l.
Proof.
  unfold slice_to. destruct n as [n|]; [|done].
  destruct (0 <=? n)%Z; apply subseteq_take.
Qed.

Variable _get_vcf_info : string -> string -> option string.
Variable ANN_KEYS : list string.

(** X16: when the ANN value is a comma-separated list of records of
    bar-separated fields, none of which holds a comma or a bar, and every
    record has a field for the key, the function returns the field of the
    key of each record of the slice, in order. *)
Theorem get_vcf_info_ann_reads_the_fields (io ke : string) (n_an : option Z)
    (records : list (list string)) (ie : nat) :
  ANN_KEYS !! ie = Some ke →
  ke ∉ take ie ANN_KEYS →
  records ≠ [] →
  Forall (fun record => (ie < length record)%nat ∧ plain record) records →
  _get_vcf_info io "ANN" = Some (join ","%char (map (join "|"%char) records)) →
  _get_vcf_info_ann _get_vcf_info ANN_KEYS io ke n_an
  = Ok (Some (map (fun record => nth ie record EmptyString) (slice_to n_an records))).
Proof.
  intros Hkey Hfirst Hne Hrecords Han. unfold _get_vcf_info_ann. rewrite Han.
  rewrite (index_first _ _ ie) by done. simpl.
  rewrite split_join.
  - rewrite slice_to_map.
    rewrite (mapM_Ok _ (fun ans => nth ie (split "|"%char ans) EmptyString)).
    + simpl. do 2 f_equal. rewrite map_map. apply map_ext_Forall.
      apply list.Forall_forall. intros record Hin%elem_of_slice_to.
      eapply list.Forall_forall in Hrecords as [Hlen Hplain]; [|exact Hin].
      rewrite split_join; [done| |].
      * intros ->. simpl in Hlen. lia.
      * eapply Forall_impl; [exact Hplain|]. by intros field [H _].
    + intros ans (record & -> & Hin%elem_of_slice_to)%list_elem_of_fmap.
      eapply list.Forall_forall in Hrecords as [Hlen Hplain]; [|exact Hin].
      unfold subscript.
      destruct (lookup_lt_is_Some_2 (split "|"%char (join "|"%char record)) ie) as [field Hfield].
      * rewrite split_join; [done| |].
        -- intros ->. simpl in Hlen; lia.
        -- eapply Forall_impl; [exact Hplain|]. by intros f [H _].
      * rewrite Hfield. f_equal. symmetry. by apply nth_lookup_Some.
  - by destruct records.
  - apply Forall_map. eapply Forall_impl; [exact Hrecords|].
    intros record [_ Hplain]. simpl. apply mentions_join; [done|].
    eapply Forall_impl; [exact Hplain|]. by intros f [_ H].
Qed.

(** X17: a key that is not among [ANN_KEYS] is only noticed when the
    INFO column has an ANN value: then the function raises ValueError,
    whatever the value and the slice; without an ANN value it returns
    [None]. *)
Theorem get_vcf_info_ann_unknown_key (io ke : string) (n_an : option Z) :
  ke ∉ ANN_KEYS →
  (_get_vcf_info io "ANN" = None → _get_vcf_info_ann _get_vcf_info ANN_KEYS io ke n_an = Ok None)
  ∧ (is_Some (_get_vcf_info io "ANN") →
     ∃ msg, _get_vcf_info_ann _get_vcf_info ANN_KEYS io ke n_an = Raised (ValueError msg)).
Proof.
  intros Hke. unfold _get_vcf_info_ann. split.
  - by intros ->.
  - intros [an ->]. rewrite index_unknown by done. eauto.
Qed.

(** X18: when an annotation of the slice has too few fields for the key,
    the function raises IndexError. *)
Theorem get_vcf_info_ann_short_annotation (io ke an ans : string) (n_an : option Z)
    (ie : nat) :
  ANN_KEYS !! ie = Some ke →
  ke ∉ take ie ANN_KEYS →
  _get_vcf_info io "ANN" = Some an →
  ans ∈ slice_to n_an (split ","%char an) →
  (length (split "|"%char ans) ≤ ie)%nat →
  _get_vcf_info_ann _get_vcf_info ANN_KEYS io ke n_an = Raised IndexError.
Proof.
  intros Hkey Hfirst Han Hin Hshort. unfold _get_vcf_info_ann. rewrite Han.
  rewrite (index_first _ _ ie) by done. simpl.
  rewrite (mapM_raises _ _ IndexError ans); [done|done| |].
  - unfold subscript. by rewrite lookup_ge_None_2.
  - intros y e'. unfold subscript.
    destruct (split "|"%char y !! ie); intros [=]; by subst.
Qed.

End AnnField.

Section AnnFieldExamples.

Import VcfInfo.

Local Abbreviation info_ann value :=
  (fun (io key : string) => if String.eqb key "ANN" then Some value else None).
Local Abbreviation three_keys := ["allele"; "effect"; "impact"].

Lemma get_vcf_info_ann_reads_the_fields_witness :
  _get_vcf_info_ann (info_ann "A|missense_variant|MODERATE,T|stop_gained|HIGH")
    three_keys "ANN=..." "effect" (Some 1%Z)
  = Ok (Some (map (fun record => nth 1 record EmptyString)
                (slice_to (Some 1%Z)
                   [["A"; "missense_variant"; "MODERATE"]; ["T"; "stop_gained"; "HIGH"]]))).
Proof.
  apply (get_vcf_info_ann_reads_the_fields
           (info_ann "A|missense_variant|MODERATE,T|stop_gained|HIGH") three_keys
           "ANN=..." "effect" (Some 1%Z)
           [["A"; "missense_variant"; "MODERATE"]; ["T"; "stop_gained"; "HIGH"]] 1).
  - reflexivity.
  - intros H. apply list_elem_of_In in H. simpl in H. destruct H as [H|[]]. discriminate H.
  - discriminate.
  - repeat constructor; simpl; lia.
  - reflexivity.
Defined.

Lemma get_vcf_info_ann_unknown_key_witness :
  (info_ann "A|missense_variant|MODERATE" "ANN=..." "ANN" = None →
   _get_vcf_info_ann (info_ann "A|missense_variant|MODERATE") three_keys
     "ANN=..." "gene" None = Ok None)
  ∧ (is_Some (info_ann "A|missense_variant|MODERATE" "ANN=..." "ANN") →
     ∃ msg, _get_vcf_info_ann (info_ann "A|missense_variant|MODERATE") three_keys
              "ANN=..." "gene" None = Raised (ValueError msg)).
Proof.
  apply (get_vcf_info_ann_unknown_key (info_ann "A|missense_variant|MODERATE") three_keys
           "ANN=..." "gene" None).
  intros H. apply list_elem_of_In in H. simpl in H.
  destruct H as [H|[H|[H|[]]]]; discriminate H.
Defined.

Lemma get_vcf_info_ann_short_annotation_witness :
  _get_vcf_info_ann (info_ann "A|missense_variant|MODERATE,T|stop_gained") three_keys
    "ANN=..." "impact" None
  = Raised IndexError.
Proof.
  apply (get_vcf_info_ann_short_annotation
           (info_ann "A|missense_variant|MODERATE,T|stop_gained") three_keys
           "ANN=..." "impact" "A|missense_variant|MODERATE,T|stop_gained"
           "T|stop_gained" None 2).
  - reflexivity.
  - intros H. apply list_elem_of_In in H. simpl in H.
    destruct H as [H|[H|[]]]; discriminate H.
  - reflexivity.
  - apply list_elem_of_In. vm_compute. tauto.
  - vm_compute. lia.
Defined.

End AnnFieldExamples.

(** ** The reference labels of the heat-map panel *)

Section ReferenceLabels.

Import Pandas RendererProperties FeaturesPanel.

Lemma boundary_loop (rest : list cell) (acc : list nat) (prev_v : cell) (i : nat) :
  fst (fold_left boundary_step (zip (seq i (length rest)) rest) (acc, prev_v))
  = acc ++ changes prev_v rest (S i).
Proof.
  revert acc prev_v i. induction rest as [|v rest IH]; intros acc prev_v i; simpl.
  - by rewrite app_nil_r.
  - rewrite IH, Nat.add_1_r. destruct (differs prev_v v); simpl; [|done].
    by rewrite <- app_assoc.
Qed.

Lemma boundaries_changes (prev_v : cell) (rest : list cell) (shape1 : nat) :
  boundaries (prev_v :: rest) shape1 = Ok (0%nat :: changes prev_v rest 1 ++ [shape1]).
Proof. unfold boundaries. by rewrite boundary_loop. Qed.

Lemma elem_of_changes (prev_v : cell) (rest : list cell) (k b : nat) :
  b ∈ changes prev_v rest k
  ↔ (k ≤ b)%nat
    ∧ ∃ u v, (prev_v :: rest) !! (b - k)%nat = Some u
             ∧ rest !! (b - k)%nat = Some v
             ∧ differs u v = true.
Proof.
  revert prev_v k. induction rest as [|v rest IH]; intros prev_v k; simpl.
  - rewrite elem_of_nil. split; [done|]. by intros (_ & u & w & _ & H & _).
  - rewrite elem_of_app, IH. split.
    + intros [Hk|(Hle & u & w & Hu & Hw & Hd)].
      * destruct (differs prev_v v) eqn:E; [|by apply elem_of_nil in Hk].
        apply list_elem_of_singleton in Hk as ->. split; [done|].
        rewrite Nat.sub_diag. by exists prev_v, v.
      * split; [lia|]. exists u, w.
        replace (b - k)%nat with (S (b - S k)) by lia. done.
    + intros (Hle & u & w & Hu & Hw & Hd).
      destruct (decide (b = k)) as [->|Hne].
      * left. rewrite Nat.sub_diag in Hu, Hw. simpl in Hu, Hw.
        injection Hu as <-. injection Hw as <-. rewrite Hd. by left.
      * right. split; [lia|]. exists u, w.
        replace (b - k)%nat with (S (b - S k)) in Hu, Hw by lia. done.
Qed.

Lemma changes_bounds (prev_v : cell) (rest : list cell) (k b : nat) :
  b ∈ changes prev_v rest k → (k ≤ b < k + length rest)%nat.
Proof.
  intros (Hle & u & v & _ & Hv%lookup_lt_Some & _)%elem_of_changes. lia.
Qed.

Lemma increasing_changes (prev_v : cell) (rest : list cell) (k : nat) :
  increasing Nat.compare (changes prev_v rest k ++ [(k + length rest)%nat]).
Proof.
  revert prev_v k. induction rest as [|v rest IH]; intros prev_v k; simpl.
  - split; [constructor|done].
  - replace (k + S (length rest))%nat with (S k + length rest)%nat by lia.
    destruct (differs prev_v v); simpl; [|apply IH]. split; [|apply IH].
    apply list.Forall_forall. intros b [Hb|Hb]%elem_of_app.
    + apply changes_bounds in Hb. apply Nat.compare_lt_iff. lia.
    + apply list_elem_of_singleton in Hb as ->. apply Nat.compare_lt_iff. lia.
Qed.

(** X19: on a reference that is not empty and as long as the features
    are wide, the boundaries start with 0, end with the length of the
    reference and increase strictly, and a position in between is a boundary
    exactly when the value there differs from the value before it. *)
Theorem boundaries_are_the_changes (ref : list cell) :
  ref ≠ [] →
  ∃ bs,
    boundaries ref (length ref) = Ok bs
    ∧ head bs = Some 0%nat
    ∧ last bs = Some (length ref)
    ∧ increasing Nat.compare bs
    ∧ ∀ b, (0 < b < length ref)%nat →
           (b ∈ bs ↔ ∃ u v, ref !! (b - 1)%nat = Some u ∧ ref !! b = Some v
                            ∧ differs u v = true).
Proof.
  destruct ref as [|prev_v rest]; [done|]. intros _.
  rewrite boundaries_changes. eexists. split; [reflexivity|].
  split; [done|]. split; [|split].
  - cbn [length]. by rewrite app_comm_cons, last_snoc.
  - pose proof (increasing_changes prev_v rest 1) as Hinc. cbn [length].
    split; [|exact Hinc]. apply list.Forall_forall. intros b [Hb|Hb]%elem_of_app.
    + apply changes_bounds in Hb. apply Nat.compare_lt_iff. lia.
    + apply list_elem_of_singleton in Hb as ->. apply Nat.compare_lt_iff. lia.
  - intros b Hb. cbn [length] in Hb.
    rewrite elem_of_cons, elem_of_app, list_elem_of_singleton, elem_of_changes.
    destruct b as [|b]; [lia|].
    replace (S b - 1)%nat with b by lia. cbn [lookup list_lookup length]. split.
    + intros [?|[(_ & H)|?]]; [lia|done|lia].
    + intros H. right. left. split; [lia|done].
Qed.

Lemma position_loop (bs : list nat) (acc : list Q) (prev_b : nat) :
  fst (fold_left position_step bs (acc, prev_b)) = acc ++ middles prev_b bs.
Proof.
  revert acc prev_b. induction bs as [|b bs IH]; intros acc prev_b; simpl.
  - by rewrite app_nil_r.
  - by rewrite IH, <- app_assoc.
Qed.

Lemma length_middles (prev_b : nat) (bs : list nat) : length (middles prev_b bs) = length bs.
Proof. revert prev_b. induction bs as [|b bs IH]; intros prev_b; simpl; [done|]. by rewrite IH. Qed.

Lemma middles_lookup (prev_b : nat) (bs : list nat) (k b b' : nat) :
  (prev_b :: bs) !! k = Some b → bs !! k = Some b' →
  ∃ pos, middles prev_b bs !! k = Some pos
         ∧ pos == (inject_Z (Z.of_nat b) + inject_Z (Z.of_nat b')) / 2.
Proof.
  revert prev_b k. induction bs as [|b0 bs IH]; intros prev_b [|k]; simpl; try done.
  - intros [= ->] [= ->]. eexists. split; [done|]. field.
  - intros Hb Hb'. by apply IH.
Qed.

Lemma ref_label_loop (unique_ref_labels : list cell) (positions : list Q) (k : nat)
    (texts : list (Q * cell)) :
  (k ≤ length unique_ref_labels)%nat →
  for_each (zip (seq k (length positions)) positions) (ref_label unique_ref_labels) texts
  = if decide (k + length positions ≤ length unique_ref_labels)%nat
    then Ok (texts ++ zip positions (drop k unique_ref_labels))
    else Raised IndexError.
Proof.
  revert k texts. induction positions as [|pos positions IH]; intros k texts Hk; simpl.
  - rewrite app_nil_r. by rewrite decide_True by lia.
  - unfold ref_label at 1. simpl.
    destruct (unique_ref_labels !! k) as [label|] eqn:E; simpl.
    + pose proof (lookup_lt_Some _ _ _ E) as Hlt. rewrite IH by lia.
      rewrite (drop_S _ _ _ E). simpl.
      repeat case_decide; try lia; try done. by rewrite <- app_assoc.
    + apply lookup_ge_None in E. rewrite decide_False; [done|lia].
Qed.

Variable get_unique_in_order : list cell -> list cell.

(** X20: for a binary or categorical reference, the labels are written
    one per run of equal values, the [k]-th in the middle between the [k]-th
    boundary and the next; the [k]-th label is the [k]-th unique value, so
    the block returns when there are at least as many unique values as runs
    and raises IndexError when there are fewer. *)
Theorem ref_labels_are_centred_on_runs (ref_type : string) (ref : list cell)
    (shape1 : nat) (bs : list nat) :
  ref_type = "binary" ∨ ref_type = "categorical" →
  boundaries ref shape1 = Ok bs →
  length (label_horizontal_positions bs) = (length bs - 1)%nat
  ∧ (∀ k b b', bs !! k = Some b → bs !! S k = Some b' →
       ∃ pos, label_horizontal_positions bs !! k = Some pos
              ∧ pos == (inject_Z (Z.of_nat b) + inject_Z (Z.of_nat b')) / 2)
  ∧ ((length bs - 1 ≤ length (get_unique_in_order ref))%nat →
     plot_ref_labels get_unique_in_order ref_type ref shape1
     = Ok (zip (label_horizontal_positions bs) (get_unique_in_order ref)))
  ∧ ((length (get_unique_in_order ref) < length bs - 1)%nat →
     plot_ref_labels get_unique_in_order ref_type ref shape1 = Raised IndexError).
Proof.
  intros Htype Hbs.
  assert (Hrun : plot_ref_labels get_unique_in_order ref_type ref shape1
                 = for_each (zip (seq 0 (length (label_horizontal_positions bs)))
                               (label_horizontal_positions bs))
                     (ref_label (get_unique_in_order ref)) []).
  { unfold plot_ref_labels. rewrite Hbs.
    by destruct Htype as [-> | ->]. }
  rewrite Hrun, ref_label_loop by lia. clear Hrun.
  destruct ref as [|prev_v rest]; [done|].
  rewrite boundaries_changes in Hbs. injection Hbs as <-.
  unfold label_horizontal_positions. cbn [tail]. rewrite position_loop. cbn [app].
  set (tl := changes prev_v rest 1 ++ [shape1]).
  rewrite length_middles. cbn [length drop app].
  split; [lia|]. split; [|split].
  - intros k b b' Hb Hb'. by apply (middles_lookup 0 tl k b b').
  - intros Hle. by rewrite decide_True by lia.
  - intros Hlt. by rewrite decide_False by lia.
Qed.

End ReferenceLabels.

Section ReferenceLabelsExamples.

Import Pandas RendererProperties FeaturesPanel.

Lemma boundaries_are_the_changes_witness :
  ∃ bs,
    boundaries returning_reference (length returning_reference)
    = Ok bs
    ∧ head bs = Some 0%nat
    ∧ last bs = Some (length returning_reference)
    ∧ increasing Nat.compare bs
    ∧ ∀ b, (0 < b < length returning_reference)%nat →
           (b ∈ bs ↔ ∃ u v, returning_reference !! (b - 1)%nat = Some u
                            ∧ returning_reference !! b = Some v
                            ∧ differs u v = true).
Proof.
  apply (boundaries_are_the_changes returning_reference). discriminate.
Defined.

Lemma ref_labels_are_centred_on_runs_witness :
  length (label_horizontal_positions [0; 2; 3; 4]%nat) = (length [0; 2; 3; 4]%nat - 1)%nat
  ∧ (∀ k b b', [0; 2; 3; 4]%nat !! k = Some b → [0; 2; 3; 4]%nat !! S k = Some b' →
       ∃ pos, label_horizontal_positions [0; 2; 3; 4]%nat !! k = Some pos
              ∧ pos == (inject_Z (Z.of_nat b) + inject_Z (Z.of_nat b')) / 2)
  ∧ ((length [0; 2; 3; 4]%nat - 1
      ≤ length (first_appearances [] returning_reference))%nat →
     plot_ref_labels (first_appearances []) "binary" returning_reference 4
     = Ok (zip (label_horizontal_positions [0; 2; 3; 4]%nat)
             (first_appearances [] returning_reference)))
  ∧ ((length (first_appearances [] returning_reference)
      < length [0; 2; 3; 4]%nat - 1)%nat →
     plot_ref_labels (first_appearances []) "binary" returning_reference 4
     = Raised IndexError).
Proof.
  apply (ref_labels_are_centred_on_runs (first_appearances []) "binary"
           returning_reference 4 [0; 2; 3; 4]%nat).
  - by left.
  - reflexivity.
Defined.

End ReferenceLabelsExamples.

(** ** Shell commands *)

Section SplitOnce.

Import Stdlib.Strings.Ascii VcfInfo Shell.

Lemma split_once_plain (sep : ascii) (s : string) :
  mentions sep s = false → split_once sep s = [s].
Proof.
  induction s as [|c s IH]; simpl; [done|].
  destruct (Ascii.eqb c sep); simpl; [done|]. intros H. by rewrite IH.
Qed.

Lemma split_once_first (sep : ascii) (s : string) :
  mentions sep s = true →
  ∃ key value, split_once sep s = [key; value]
               ∧ s = (key ++ String sep value)%string
               ∧ mentions sep key = false.
Proof.
  induction s as [|c s IH]; simpl; [done|].
  destruct (Ascii.eqb c sep) eqn:E; simpl.
  - intros _. apply Ascii.eqb_eq in E as ->. by exists EmptyString, s.
  - intros (key & value & -> & -> & Hkey)%IH.
    exists (String c key), value. simpl. by rewrite E.
Qed.

Lemma split_once_two (sep : ascii) (s key value : string) :
  split_once sep s = [key; value] →
  s = (key ++ String sep value)%string ∧ mentions sep key = false.
Proof.
  intros Hsplit. destruct (mentions sep s) eqn:E.
  - destruct (split_once_first sep s E) as (key' & value' & Hs & -> & Hkey).
    rewrite Hs in Hsplit. by injection Hsplit as -> ->.
  - by rewrite split_once_plain in Hsplit.
Qed.

Lemma split_once_app (sep : ascii) (key value : string) :
  mentions sep key = false →
  split_once sep (key ++ String sep value) = [key; value].
Proof.
  induction key as [|c key IH]; simpl.
  - by rewrite Ascii.eqb_refl.
  - destruct (Ascii.eqb c sep); simpl; [done|]. intros H. by rewrite IH.
Qed.

End SplitOnce.

Section Environment.

Import Stdlib.Strings.Ascii VcfInfo Shell.

Variables (strip lower : string -> string) (split_whitespace : string -> list string).
Variable run : list string -> string -> outcome string.

Local Abbreviation is_assignment := (Shell.is_assignment strip).
Local Abbreviation environment_line := (Shell.environment_line strip).
Local Abbreviation get_environment := (Shell.get_environment strip run).

Lemma environment_line_assignment (key value : string) (environemnt : gmap string string) :
  is_assignment (key ++ String "=" value) = true →
  mentions "=" key = false →
  environment_line (key ++ String "=" value) environemnt
  = Ok (<[strip key := strip value]> environemnt).
Proof.
  intros Hkept Hkey. unfold Shell.environment_line.
  rewrite Hkept, split_once_app by done. done.
Qed.

(** A pass that returns has skipped its line or stored an assignment. *)
Lemma environment_line_Ok (line : string) (environemnt environemnt' : gmap string string) :
  environment_line line environemnt = Ok environemnt' →
  (is_assignment line = false ∧ environemnt' = environemnt)
  ∨ ∃ key value,
      is_assignment line = true
      ∧ line = (key ++ String "=" value)%string
      ∧ mentions "=" key = false
      ∧ environemnt' = <[strip key := strip value]> environemnt.
Proof.
  unfold Shell.environment_line. destruct (Shell.is_assignment strip line) eqn:Hkept.
  - destruct (mentions "=" line) eqn:E.
    + destruct (split_once_first "=" line E) as (key & value & -> & Hline & Hkey).
      simpl. intros [= <-]. right. by exists key, value.
    + by rewrite split_once_plain.
  - intros [= <-]. by left.
Qed.

Lemma environment_line_Raised (line : string) (environemnt : gmap string string) (e : exn) :
  environment_line line environemnt = Raised e →
  e = ValueError "not enough values to unpack (expected 2, got 1)".
Proof.
  unfold Shell.environment_line. destruct (Shell.is_assignment strip line); [|done].
  destruct (mentions "=" line) eqn:E.
  - by destruct (split_once_first "=" line E) as (key & value & -> & _).
  - rewrite split_once_plain by done. simpl. by intros [= <-].
Qed.

(** The loop stores nothing but the assignments of its lines. *)
Lemma environment_loop_provenance (lines : list string)
    (environemnt environemnt' : gmap string string) (k v : string) :
  for_each lines environment_line environemnt = Ok environemnt' →
  environemnt' !! k = Some v →
  environemnt !! k = Some v
  ∨ ∃ line key value,
      line ∈ lines ∧ is_assignment line = true
      ∧ line = (key ++ String "=" value)%string ∧ mentions "=" key = false
      ∧ k = strip key ∧ v = strip value.
Proof.
  revert environemnt. induction lines as [|line lines IH]; intros environemnt; simpl.
  - intros [= <-]. by left.
  - destruct (environment_line line environemnt) as [e1|] eqn:Hstep; simpl; [|done].
    intros Hrun Hk. destruct (IH e1 Hrun Hk) as [Hold|(l & key & value & Hl & H)].
    + apply environment_line_Ok in Hstep
        as [[_ ->]|(key & value & Hkept & Hline & Hkey & ->)]; [by left|].
      destruct (decide (strip key = k)) as [<-|Hne].
      * rewrite lookup_insert_eq in Hold. injection Hold as <-.
        right. exists line, key, value. split; [by left|done].
      * rewrite lookup_insert_ne in Hold by done. by left.
    + right. exists l, key, value. split; [by right|done].
Qed.

(** The loop leaves alone the names that none of its lines assigns. *)
Lemma environment_loop_frame (lines : list string)
    (environemnt environemnt' : gmap string string) (k : string) :
  for_each lines environment_line environemnt = Ok environemnt' →
  (∀ key value, (key ++ String "=" value)%string ∈ lines →
                is_assignment (key ++ String "=" value) = true →
                mentions "=" key = false → strip key ≠ k) →
  environemnt' !! k = environemnt !! k.
Proof.
  revert environemnt. induction lines as [|line lines IH]; intros environemnt; simpl.
  - by intros [= <-].
  - destruct (environment_line line environemnt) as [e1|] eqn:Hstep; simpl; [|done].
    intros Hrun Hfree. rewrite (IH e1 Hrun).
    + apply environment_line_Ok in Hstep
        as [[_ ->]|(key & value & Hkept & -> & Hkey & ->)]; [done|].
      apply lookup_insert_ne. apply (Hfree key value); [by left|done..].
    + intros key value Hin. apply Hfree. by right.
Qed.

Lemma environment_loop_total (lines : list string) (environemnt : gmap string string) :
  (∀ line, line ∈ lines → is_assignment line = true → mentions "=" line = true) →
  ∃ environemnt', for_each lines environment_line environemnt = Ok environemnt'.
Proof.
  revert environemnt. induction lines as [|line lines IH]; intros environemnt Hlines;
    simpl; [eauto|].
  assert (∃ e1, environment_line line environemnt = Ok e1) as [e1 ->].
  { unfold Shell.environment_line.
    destruct (Shell.is_assignment strip line) eqn:Hkept; [|eauto].
    destruct (split_once_first "=" line) as (key & value & -> & _);
      [apply Hlines; [by left|done]|]. simpl. eauto. }
  simpl. apply IH. intros l Hl. apply Hlines. by right.
Qed.

(** X21: when [env] succeeds and every line of its output that is taken
    for an assignment holds an equals sign, [get_environment] runs that one
    command and returns a dictionary in which every entry comes from an
    assignment of the output (the stripped text before the first equals sign
    for the stripped text after it), and in which the last assignment of a
    name is the one that is kept. *)
Theorem get_environment_keeps_the_last_assignment (history : list string)
    (stdout : string) :
  run history "env" = Returned stdout →
  (∀ line, line ∈ split "010" stdout → is_assignment line = true →
           mentions "=" line = true) →
  ∃ environemnt,
    get_environment history = (history ++ ["env"], Returned environemnt)
    ∧ (∀ k v, environemnt !! k = Some v →
         ∃ key value,
           (key ++ String "=" value)%string ∈ split "010" stdout
           ∧ is_assignment (key ++ String "=" value) = true
           ∧ mentions "=" key = false
           ∧ k = strip key ∧ v = strip value)
    ∧ ∀ before after key value,
        split "010" stdout = before ++ (key ++ String "=" value)%string :: after →
        is_assignment (key ++ String "=" value) = true →
        mentions "=" key = false →
        (∀ key' value', (key' ++ String "=" value')%string ∈ after →
                        is_assignment (key' ++ String "=" value') = true →
                        mentions "=" key' = false → strip key' ≠ strip key) →
        environemnt !! strip key = Some (strip value).
Proof.
  intros Hrun Hlines. unfold Shell.get_environment, command. rewrite Hrun.
  destruct (environment_loop_total (split "010" stdout) ∅ Hlines) as [env Hloop].
  exists env. rewrite Hloop. split; [done|]. split.
  - intros k v Hk.
    destruct (environment_loop_provenance _ _ _ k v Hloop Hk)
      as [Hempty|(line & key & value & Hin & Hkept & -> & Hkey & -> & ->)].
    + by rewrite lookup_empty in Hempty.
    + by exists key, value.
  - intros before after key value Hsplit Hkept Hkey Hlast.
    rewrite Hsplit in Hloop.
    rewrite for_each_app in Hloop. cbn [for_each] in Hloop.
    destruct (for_each before environment_line ∅) as [e1|]; [|done].
    cbn [Py.bind] in Hloop. rewrite environment_line_assignment in Hloop by done.
    cbn [Py.bind] in Hloop.
    rewrite (environment_loop_frame after _ env (strip key) Hloop Hlast).
    apply lookup_insert_eq.
Qed.

(** X22: when [env] succeeds and a line of its output is neither empty
    nor, once stripped, begins with a colon, and holds no equals sign (a line
    of blanks is such a line), [get_environment] raises ValueError: the line
    cannot be unpacked into a name and a value. *)
Theorem get_environment_line_without_equals_sign (history : list string)
    (stdout line : string) :
  run history "env" = Returned stdout →
  line ∈ split "010" stdout →
  is_assignment line = true →
  mentions "=" line = false →
  get_environment history
  = (history ++ ["env"],
     Failed (Builtin (ValueError "not enough values to unpack (expected 2, got 1)"))).
Proof.
  intros Hrun Hin Hkept Hplain. unfold Shell.get_environment, command. rewrite Hrun.
  rewrite (for_each_raises _ _ _
             (ValueError "not enough values to unpack (expected 2, got 1)") line);
    [done|done| |].
  - intros c. unfold Shell.environment_line. by rewrite Hkept, split_once_plain.
  - intros y c e'. apply environment_line_Raised.
Qed.

End Environment.

Section Installation.

Import Stdlib.Strings.Ascii VcfInfo Shell.

Variables (strip lower : string -> string) (split_whitespace : string -> list string).
Variable run : list string -> string -> outcome string.

Local Abbreviation install_missing := (Shell.install_missing lower run).
Local Abbreviation installations := (Shell.installations lower).

Lemma installations_cons (libraries_now : list string) (library : string)
    (libraries : list string) :
  installations libraries_now (library :: libraries)
  = if decide (lower library ∈ libraries_now) then installations libraries_now libraries
    else ("pip install " ++ lower library)%string :: installations libraries_now libraries.
Proof.
  unfold Shell.installations. cbn [map]. rewrite filter_cons.
  destruct (decide (lower library ∈ libraries_now)); by case_decide.
Qed.

(** The loop runs the installations in order and stops at the first that
    fails. *)
Lemma install_missing_runs (libraries_now libraries : list string) (history : list string) :
  install_missing libraries_now libraries history
  = (history ++ installations libraries_now libraries, Returned tt)
  ∨ ∃ done_ c rest e,
      installations libraries_now libraries = done_ ++ c :: rest
      ∧ run (history ++ done_) c = Failed e
      ∧ install_missing libraries_now libraries history
        = (history ++ done_ ++ [c], Failed e).
Proof.
  revert history. induction libraries as [|library libraries IH]; intros history.
  - left. simpl. by rewrite app_nil_r.
  - rewrite installations_cons. cbn [Shell.install_missing].
    destruct (decide (lower library ∈ libraries_now)); [apply IH|].
    unfold command.
    destruct (run history ("pip install " ++ lower library)%string) as [out|e] eqn:Hrun.
    + destruct (IH (history ++ [("pip install " ++ lower library)%string]))
        as [->|(done_ & c & rest & e & Hsplit & Hfail & ->)].
      * left. by rewrite <- app_assoc.
      * right. exists (("pip install " ++ lower library)%string :: done_), c, rest, e.
        rewrite Hsplit. split; [done|].
        rewrite <- app_assoc in Hfail. split; [done|]. by rewrite <- app_assoc.
    + right. exists [], ("pip install " ++ lower library)%string,
        (installations libraries_now libraries), e.
      rewrite app_nil_r. done.
Qed.

Lemma elem_of_installations (libraries_now libraries : list string) (c : string) :
  c ∈ installations libraries_now libraries →
  ∃ library, c = ("pip install " ++ library)%string ∧ library ∉ libraries_now.
Proof.
  unfold Shell.installations.
  intros (library & -> & [Hout _]%list_elem_of_filter)%list_elem_of_fmap. eauto.
Qed.

(** X23: when [pip list] succeeds and each line of its output after the
    two lines of header holds a name, [install_python_libraries] runs
    [pip list] and then, in the order of its argument, one [pip install] for
    each library whose name in small letters is not listed (twice for a
    library that is named twice), and it stops at the first installation that
    fails, raising its error.  It runs nothing else: no [pip install] for a
    library that is listed. *)
Theorem install_python_libraries_installs_what_is_missing (libraries : list string)
    (history : list string) (stdout : string) (libraries_now : list string) :
  run history "pip list" = Returned stdout →
  mapM (library_of_line lower split_whitespace) (drop 2 (split "010" (strip stdout)))
  = Ok libraries_now →
  (install_python_libraries strip lower split_whitespace run libraries history
   = (history ++ "pip list" :: installations libraries_now libraries, Returned tt)
   ∨ ∃ done_ c rest e,
       installations libraries_now libraries = done_ ++ c :: rest
       ∧ run (history ++ "pip list" :: done_) c = Failed e
       ∧ install_python_libraries strip lower split_whitespace run libraries history
         = (history ++ "pip list" :: done_ ++ [c], Failed e))
  ∧ ∀ library,
      library ∈ libraries_now →
      ("pip install " ++ library)%string ∉ installations libraries_now libraries.
Proof.
  intros Hrun Hnow. split.
  - unfold install_python_libraries, command. rewrite Hrun, Hnow.
    destruct (install_missing_runs libraries_now libraries (history ++ ["pip list"]))
      as [->|(done_ & c & rest & e & Hsplit & Hfail & ->)].
    + left. by rewrite <- app_assoc.
    + right. exists done_, c, rest, e. rewrite <- app_assoc in Hfail.
      split; [done|]. split; [done|]. by rewrite <- app_assoc.
  - intros library Hin (library' & Heq & Hout)%elem_of_installations.
    cbv [String.append] in Heq. by injection Heq as ->.
Qed.

End Installation.

Section ShellExamples.

Import Stdlib.Strings.Ascii VcfInfo Shell.

Lemma get_environment_keeps_the_last_assignment_witness :
  ∃ environemnt,
    Shell.get_environment strip_spaces (prints env_output) []
    = ([] ++ ["env"], Returned environemnt)
    ∧ (∀ k v, environemnt !! k = Some v →
         ∃ key value,
           (key ++ String "=" value)%string ∈ split "010" env_output
           ∧ Shell.is_assignment strip_spaces (key ++ String "=" value) = true
           ∧ mentions "=" key = false
           ∧ k = strip_spaces key ∧ v = strip_spaces value)
    ∧ ∀ before after key value,
        split "010" env_output = before ++ (key ++ String "=" value)%string :: after →
        Shell.is_assignment strip_spaces (key ++ String "=" value) = true →
        mentions "=" key = false →
        (∀ key' value', (key' ++ String "=" value')%string ∈ after →
                        Shell.is_assignment strip_spaces (key' ++ String "=" value') = true →
                        mentions "=" key' = false →
                        strip_spaces key' ≠ strip_spaces key) →
        environemnt !! strip_spaces key = Some (strip_spaces value).
Proof.
  apply (get_environment_keeps_the_last_assignment strip_spaces (prints env_output)
           [] env_output).
  - reflexivity.
  - intros line Hin _. apply list_elem_of_In in Hin. vm_compute in Hin.
    destruct Hin as [<-|[<-|[<-|[]]]]; reflexivity.
Defined.

Lemma get_environment_line_without_equals_sign_witness :
  Shell.get_environment strip_spaces (prints env_output_blank) []
  = ([] ++ ["env"],
     Failed (Builtin (ValueError "not enough values to unpack (expected 2, got 1)"))).
Proof.
  apply (get_environment_line_without_equals_sign strip_spaces (prints env_output_blank)
           [] env_output_blank " ").
  - reflexivity.
  - apply list_elem_of_In. vm_compute. tauto.
  - reflexivity.
  - reflexivity.
Defined.

Lemma install_python_libraries_installs_what_is_missing_witness :
  (install_python_libraries strip_spaces id split_spaces (prints pip_output)
     ["scipy"; "numpy"; "scipy"] []
   = ([] ++ "pip list" :: Shell.installations id ["numpy"; "pandas"]
                            ["scipy"; "numpy"; "scipy"],
      Returned tt)
   ∨ ∃ done_ c rest e,
       Shell.installations id ["numpy"; "pandas"] ["scipy"; "numpy"; "scipy"]
       = done_ ++ c :: rest
       ∧ prints pip_output ([] ++ "pip list" :: done_) c = Failed e
       ∧ install_python_libraries strip_spaces id split_spaces (prints pip_output)
           ["scipy"; "numpy"; "scipy"] []
         = ([] ++ "pip list" :: done_ ++ [c], Failed e))
  ∧ ∀ library,
      library ∈ ["numpy"; "pandas"] →
      ("pip install " ++ library)%string
      ∉ Shell.installations id ["numpy"; "pandas"] ["scipy"; "numpy"; "scipy"].
Proof.
  apply (install_python_libraries_installs_what_is_missing strip_spaces id split_spaces
           (prints pip_output) ["scipy"; "numpy"; "scipy"] [] pip_output
           ["numpy"; "pandas"]).
  - reflexivity.
  - reflexivity.
Defined.

End ShellExamples.

(** ** Component labels in every mode *)

Section LabelShifts.

Import Visualize LabelProperties.

Context {geometry : Provider} {float : Numpy.Float64}.

Lemma label_component_step (o : options) (region : list point) (c : component)
    (shift : Q) (cv : canvas) :
  ∃ shift', label_component o region c (shift, cv) = Ok (shift', cv ++ [label_text c shift'])
            ∧ (shift' = shift ∨ shift' = shift * -1).
Proof.
  unfold label_component, label_text.
  destruct (String.eqb (component_text_position o) "auto").
  - destruct (contains_point region _); eauto.
  - destruct (String.eqb (component_text_position o) "top"); [eauto|].
    destruct (String.eqb (component_text_position o) "bottom"); eauto.
Qed.

Lemma label_loop_shifts (o : options) (region : list point) (cs : list component)
    (shift : Q) (cv : canvas) :
  shift = 3 # 100 ∨ shift = - (3 # 100) →
  ∃ shift' shifts,
    for_each cs (label_component o region) (shift, cv)
    = Ok (shift', cv ++ zip_with label_text cs shifts)
    ∧ length shifts = length cs
    ∧ Forall (fun s => s = 3 # 100 ∨ s = - (3 # 100)) shifts.
Proof.
  revert shift cv. induction cs as [|c cs IH]; intros shift cv Hshift.
  - exists shift, []. simpl. by rewrite app_nil_r.
  - destruct (label_component_step o region c shift cv) as (s1 & Hstep & Hs1).
    assert (H1 : s1 = 3 # 100 ∨ s1 = - (3 # 100)).
    { destruct Hs1 as [->| ->]; [done|]. destruct Hshift as [->| ->]; [by right|by left]. }
    destruct (IH s1 (cv ++ [label_text c s1]) H1) as (s' & shifts & Hrun & Hlen & Hall).
    exists s', (s1 :: shifts). cbn [for_each]. rewrite Hstep. cbn [Py.bind].
    rewrite Hrun. split; [by rewrite <- app_assoc|].
    split; [simpl; by rewrite Hlen|by constructor].
Qed.

(** X24: whatever the mode (also a string that is none of the three
    modes), every component gets its label, in the order of the components,
    0.03 above or 0.03 below its marker. *)
Theorem component_labels_keep_their_distance (o : options) (region : list point)
    (cs : list component) (cv : canvas) :
  ∃ shifts,
    plot_component_labels o region cs cv = Ok (cv ++ zip_with label_text cs shifts)
    ∧ length shifts = length cs
    ∧ Forall (fun s => s = 3 # 100 ∨ s = - (3 # 100)) shifts.
Proof.
  unfold plot_component_labels.
  destruct (label_loop_shifts o region cs (- (3 # 100)) cv) as (s' & shifts & -> & H);
    [by right|].
  by exists shifts.
Qed.

Lemma label_loop_top (o : options) (region : list point) (cs : list component)
    (k : nat) (cv : canvas) :
  component_text_position o = "top" →
  ∃ shift',
    for_each cs (label_component o region)
      (if Nat.even k then - (3 # 100) else 3 # 100, cv)
    = Ok (shift',
          cv ++ zip_with label_text cs
                  (map (fun i => if Nat.even i then 3 # 100 else - (3 # 100))
                     (seq k (length cs)))).
Proof.
  intros Htop. revert k cv. induction cs as [|c cs IH]; intros k cv.
  - eexists. simpl. by rewrite app_nil_r.
  - cbn [for_each length seq map zip_with].
    assert (Hstep : label_component o region c (if Nat.even k then - (3 # 100) else 3 # 100, cv)
                    = Ok (if Nat.even (S k) then - (3 # 100) else 3 # 100,
                          cv ++ [label_text c (if Nat.even k then 3 # 100 else - (3 # 100))])).
    { unfold label_component, label_text. rewrite Htop. simpl String.eqb. cbv iota.
      rewrite Nat.even_succ, <- Nat.negb_even. by destruct (Nat.even k). }
    rewrite Hstep. cbn [Py.bind].
    destruct (IH (S k) (cv ++ [label_text c (if Nat.even k then 3 # 100 else - (3 # 100))]))
      as [shift' ->].
    exists shift'. by rewrite <- app_assoc.
Qed.

(** X25: in "top" mode the labels change side at every component, for
    any list of components: the first, third, ... label is 0.03 above its
    marker, the second, fourth, ... 0.03 below. *)
Theorem top_labels_alternate_for_any_components (o : options) (region : list point)
    (cs : list component) (cv : canvas) :
  component_text_position o = "top" →
  plot_component_labels o region cs cv
  = Ok (cv ++ zip_with label_text cs (alternating (length cs))).
Proof.
  intros Htop. unfold plot_component_labels, alternating.
  destruct (label_loop_top o region cs 0 cv Htop) as [shift' Hrun].
  cbn [Nat.even] in Hrun. by rewrite Hrun.
Qed.

End LabelShifts.

Section LabelShiftsExamples.

Import Visualize LabelProperties Examples.

Lemma top_labels_alternate_for_any_components_witness :
  plot_component_labels (geometry := convex_position) top_options
    (component_points unit_square) unit_square []
  = Ok ([] ++ zip_with label_text unit_square (alternating (length unit_square))).
Proof.
  apply (top_labels_alternate_for_any_components (geometry := convex_position)
           top_options (component_points unit_square) unit_square []).
  reflexivity.
Defined.

End LabelShiftsExamples.

(** ** Every cell of [pivot] *)

Section PivotCells.

Import Dataframe Properties DataframeAxes LabelProperties.

Lemma map_int_lookup_iff (labels : list string) (i : nat) (a x : string) :
  NoDup labels → labels !! i = Some a →
  (map_int labels !! x = Some i ↔ x = a).
Proof.
  intros Hnd Hi. split.
  - intros H%map_int_lookup_Some. congruence.
  - intros ->.
    destruct (map_int_lookup_is_Some labels a) as [i' Hi'];
      [by eapply list_elem_of_lookup_2|].
    pose proof (map_int_lookup_Some _ _ _ Hi') as Ha.
    by rewrite (NoDup_lookup _ _ _ _ Hnd Hi Ha).
Qed.

Variable f : cell -> cell -> cell.
Variables axis_0_labels axis_1_labels : list string.

Local Abbreviation step :=
  (pivot_entry (map_int axis_0_labels) (map_int axis_1_labels) (Some f)).
Local Abbreviation cell_of e i j :=
  (map_int axis_0_labels !! axis_0_label e = Some i
   ∧ map_int axis_1_labels !! axis_1_label e = Some j).

(** The loop of [pivot] folds the values of the lines of a cell into the
    cell. *)
Lemma pivot_loop_fold (entries : list entry) (matrix matrix' : list (list cell))
    (i j : nat) (value_now : cell) :
  for_each entries step matrix = Ok matrix' →
  matrix !! i ≫= (.!! j) = Some value_now →
  matrix' !! i ≫= (.!! j)
  = Some (fold_left (reduce f)
            (map value (filter (fun e => cell_of e i j) entries)) value_now).
Proof.
  revert matrix value_now.
  induction entries as [|e entries IH]; intros matrix value_now; simpl.
  - by intros [= <-].
  - destruct (step e matrix) as [matrix1|] eqn:Hstep; simpl; [|done].
    intros Hrun Hnow. revert Hstep. unfold pivot_entry, label_index, matrix_get.
    destruct (map_int axis_0_labels !! axis_0_label e) as [i0|] eqn:Hi0; simpl; [|done].
    destruct (map_int axis_1_labels !! axis_1_label e) as [j0|] eqn:Hj0; simpl; [|done].
    destruct (matrix !! i0 ≫= (.!! j0)) as [now0|] eqn:Hnow0; simpl; [|done].
    intros Hstep.
    assert (matrix1 = matrix_set matrix i0 j0 (reduce f now0 (value e))) as ->.
    { unfold reduce. destruct (isna now0); simpl in Hstep; by injection Hstep as <-. }
    rewrite filter_cons. destruct (decide (i0 = i ∧ j0 = j)) as [[-> ->]|Hne].
    + rewrite decide_True by done. cbn [map fold_left].
      apply (IH _ _ Hrun). rewrite Hnow0 in Hnow. injection Hnow as ->.
      by eapply matrix_set_get.
    + rewrite decide_False by (intros [H0 H1]; apply Hne; split; congruence).
      apply (IH _ _ Hrun). rewrite matrix_set_get_other; [done|].
      intros [= -> ->]. by apply Hne.
Qed.

End PivotCells.

Section PivotCellsResult.

Import Dataframe Properties DataframeAxes LabelProperties.

(** X26: in the table that [pivot] returns with a function [f], the cell
    of a row label and a column label holds the values of the lines with
    this key pair folded from the left, in the order of the lines: the first
    value (and any value that meets a missing cell) is stored as it is, every
    other value [v] turns the cell [c] into [f(c, v)]; a pair with no line
    has a missing cell. *)
Theorem pivot_cell_is_the_fold_of_its_lines (table : list entry)
    (f : cell -> cell -> cell) (dataframe : DataFrame) (i j : nat) (a b : string) :
  pivot table (Some f) = Ok dataframe →
  index dataframe !! i = Some a →
  columns dataframe !! j = Some b →
  to_numpy dataframe !! i ≫= (.!! j)
  = Some (fold_left (reduce f) (values_of table a b) None).
Proof.
  unfold pivot.
  set (l0 := unique (map axis_0_label table)).
  set (l1 := unique (map axis_1_label table)).
  destruct (for_each table _ _) as [matrix|] eqn:Hrun; simpl; [|done].
  intros [= <-]. simpl. intros Ha Hb.
  rewrite (pivot_loop_fold f l0 l1 table _ matrix i j None Hrun).
  - unfold values_of. do 3 f_equal. apply list_filter_iff. intros e.
    unfold key_pair.
    rewrite (map_int_lookup_iff l0 i a) by (done || apply unique_NoDup).
    rewrite (map_int_lookup_iff l1 j b) by (done || apply unique_NoDup).
    split; [by intros [-> ->]|by intros [= -> ->]].
  - apply full_lookup; by eapply lookup_lt_Some.
Qed.

End PivotCellsResult.

Section PivotCellsExamples.

Import Dataframe DataframeAxes LabelProperties Examples.

Lemma pivot_cell_is_the_fold_of_its_lines_witness :
  to_numpy {| index := ["A"; "B"]; columns := ["X"; "Y"];
              to_numpy := [[Some 3; None]; [None; Some 5]] |} !! 0%nat ≫= (.!! 0%nat)
  = Some (fold_left (reduce sum_reducer) (values_of sum_table "A" "X") None).
Proof.
  apply (pivot_cell_is_the_fold_of_its_lines sum_table sum_reducer
           {| index := ["A"; "B"]; columns := ["X"; "Y"];
              to_numpy := [[Some 3; None]; [None; Some 5]] |} 0 0 "A" "X").
  - reflexivity.
  - reflexivity.
  - reflexivity.
Defined.

End PivotCellsExamples.

(** ** Pruning a table that has an empty axis *)

Section EmptyAxis.

Import Dataframe Properties DataframeAxes.

Context {float : Numpy.Float64}.
Variables min_good_value min_good_unique_value : option Q.

Local Abbreviation drop dataframe axis :=
  (drop_axis_label dataframe axis min_good_value min_good_unique_value).

(** A pass on an axis without labels finds no vector to look at. *)
Lemma drop_axis_label_empty (dataframe : DataFrame) (axis : Axis) :
  well_formed dataframe →
  is_not_None min_good_value || is_not_None min_good_unique_value = true →
  shape_at (shape dataframe) axis = 0%nat →
  drop dataframe axis
  = Raised (ValueError "Cannot apply_along_axis when any iteration dimensions are 0").
Proof.
  intros Hwf Hsome Hzero.
  pose proof (length_vectors dataframe axis Hwf) as Hlen. rewrite Hzero in Hlen.
  apply nil_length_inv in Hlen.
  unfold drop_axis_label, apply_along_axis. rewrite Hsome, Hlen. simpl.
  destruct min_good_value, min_good_unique_value; simpl in *; done.
Qed.

(** X27: the pruning loop never returns a table for a well-formed table
    that has no row or no column: it raises, in its first pass or in its
    second. *)
Theorem drop_axes_label_empty_axis_raises (dataframe : DataFrame) (axis : option Axis) :
  well_formed dataframe →
  fst (shape dataframe) = 0%nat ∨ snd (shape dataframe) = 0%nat →
  ∃ e, drop_axes_label dataframe axis min_good_value min_good_unique_value
       = Some (Raised e).
Proof.
  intros Hwf Hempty. unfold drop_axes_label, passes.
  set (a := match axis with
            | Some axis => axis
            | None => if (fst (shape dataframe) <? snd (shape dataframe))%nat
                      then axis_1 else axis_0
            end).
  cbn [drop_axes_label_loop].
  destruct (is_not_None min_good_value || is_not_None min_good_unique_value) eqn:Hsome.
  2: { exists AssertionError. unfold drop_axis_label at 1. by rewrite Hsome. }
  destruct (decide (shape_at (shape dataframe) a = 0%nat)) as [Hzero|Hpos].
  { eexists. by rewrite drop_axis_label_empty. }
  assert (Hother : shape_at (shape dataframe) (other_axis a) = 0%nat).
  { destruct a; simpl in *; destruct Hempty; (done || lia). }
  rewrite (drop_axis_label_run _ _ dataframe a Hwf Hsome).
  - cbn [andb]. eexists. rewrite drop_axis_label_empty; [done| |done|].
    + by apply well_formed_loc.
    + by rewrite shape_loc_other.
  - intros Hnil. pose proof (length_vectors dataframe a Hwf) as Hlen.
    rewrite Hnil in Hlen. simpl in Hlen. lia.
Qed.

End EmptyAxis.

Section EmptyAxisExamples.

Import Dataframe Properties Examples.

Lemma drop_axes_label_empty_axis_raises_witness :
  ∃ e, drop_axes_label {| index := ["r"]; columns := []; to_numpy := [[]] |} None
         (Some (1 # 2)) None
       = Some (Raised e).
Proof.
  apply (drop_axes_label_empty_axis_raises (Some (1 # 2)) None
           {| index := ["r"]; columns := []; to_numpy := [[]] |} None).
  - split; [reflexivity|]. repeat constructor.
  - right. reflexivity.
Defined.

End EmptyAxisExamples.
